(** * PhotoFrameSync: a shallow embedding of the two Google Photos download clients

    The repository holds two variants of one command-line program:
    - variant A (the picker client): creates a picker session, polls it,
      pages through the picked items and downloads them;
    - variant B (the search client, [main.go]): pages through a filtered
      library search and downloads the hits.

    Both are sequential Go programs whose only interesting behaviour is the
    order and content of their effects.  The embedding threads an explicit
    [World] through a small state monad: the local disk, the Go heap cell that
    holds the caller's filter map, the scripted answers of the remote servers,
    the log of requests sent, the console, and the runtime's timer events. *)

From stdpp Require Import base option list gmap strings.
From Stdlib Require Import ZArith.
From Stdlib.Strings Require Import Byte.

Set Warnings "-register-all".
Open Scope Z_scope.

(** ** Go values and errors *)

(** [errno] values the [os] package can hand back. *)
Inductive Errno := ENOENT | EACCES | ENOTDIR | EISDIR | ENOSPC | EIO.

#[global] Instance Errno_eq_dec : EqDecision Errno.
Proof. solve_decision. Defined.

(** A value stored under a key of a [map[string]interface{}].  [VChan] stands
    for the values [json.Marshal] rejects (channels, functions). *)
Inductive Value :=
| VInt (n : Z)
| VStr (s : string)
| VList (l : list Value)
| VMap (kvs : list (string * Value))
| VChan.

(** Go's [error].  [Errorf] keeps the format string and the arguments of
    [fmt.Errorf] instead of rendering them. *)
Inductive Error :=
| SysErr (e : Errno)
| NetErr (msg : string)
| JSONErr (msg : string)
| Errorf (format : string) (args : list Arg)
with Arg :=
| AInt (n : Z)
| AStr (s : string)
| ABytes (b : list byte)
| ADur (d : Z)
| AErr (e : Error).

(** [os.IsNotExist]: true only for the bare [ENOENT] of a failed system call;
    an error wrapped by [fmt.Errorf("%v")] is not recognised. *)
Definition os_IsNotExist (err : Error) : bool :=
  match err with
  | SysErr ENOENT => true
  | _ => false
  end.

(** ** net/http *)

Inductive Method := GET | POST.

(** [url.Values] is a [map[string][]string]. *)
Abbreviation Values := (gmap string (list string)).

(** [Values.Add]: append to the slice stored under the key. *)
Definition Values_Add (key value : string) (v : Values) : Values :=
  <[key := default [] (v !! key) ++ [value]]> v.

(** A request as the server sees it.  The query is kept as the [url.Values]
    it was encoded from, the JSON payload as the map that was marshalled. *)
Record Request := mkRequest {
  ReqMethod : Method;
  ReqURL : string;
  ReqQuery : Values;
  ReqHeader : list (string * string);
  ReqPayload : option (gmap string Value);
}.

(** A response body is a stream: the bytes that arrive, then end of file or a
    read error. *)
Record BodyT := mkBody {
  data : list byte;
  read_err : option Error;
}.

Record Response := mkResponse {
  StatusCode : Z;
  Body : BodyT;
}.

Definition StatusOK : Z := 200.

(** Outcome of one round trip: a transport error or a response. *)
Inductive Reply :=
| Fail (err : Error)
| Answer (resp : Response).

(** ** oauth2 *)

Record Token := mkToken {
  AccessToken : string;
  RefreshToken : string;
  Expiry : Z;
}.

Record Config := mkConfig {
  ClientID : string;
  Scopes : string;
}.

(** [*http.Client] as built by [config.Client]: it carries the token. *)
Record HttpClient := mkClient {
  source : Token;
}.

(** What reaches the local callback listener during one web authorization:
    how long the user took, the code delivered to the handler, and the result
    of exchanging that code. *)
Record Callback := mkCallback {
  elapsed : Z;
  code : string;
  exchanged : Error + Token;
}.

(** ** time *)

(** The case of a [select] over the timeout timer and the poll ticker that the
    runtime lets proceed. *)
Inductive Fired := TimerFired | TickFired.

Inductive Clock := Timer (d : Z) | Ticker (d : Z).

(** ** The world *)

(** A line written by [fmt.Printf] / [fmt.Println]: format and arguments. *)
Record Line := mkLine {
  line_format : string;
  line_args : list Arg;
}.

Record World := mkWorld {
  (** what the local disk holds, by path *)
  files : gmap string (list byte);
  (** paths whose lookup fails before the last component is examined
      (a parent that is missing, unreadable, or not a directory) *)
  lookup_fault : string → option Errno;
  (** paths that cannot be created or truncated *)
  create_fault : string → option Errno;
  (** the Go maps on the heap, by address *)
  heap : gmap positive (gmap string Value);
  (** the outcomes of the round trips still to come, in order *)
  net : list Reply;
  (** every request sent so far, oldest first *)
  sent : list Request;
  (** the console *)
  stdout : list Line;
  (** wall-clock time *)
  now : Z;
  (** the web authorizations still to come *)
  browser : list Callback;
  (** patterns registered on [http.DefaultServeMux] *)
  mux : list string;
  (** the [select] cases the runtime will let proceed, in order *)
  sched : list Fired;
  (** timers and tickers created so far *)
  clocks : list Clock;
}.

Definition set_files (f : gmap string (list byte)) (w : World) : World :=
  mkWorld f (lookup_fault w) (create_fault w) (heap w) (net w) (sent w)
          (stdout w) (now w) (browser w) (mux w) (sched w) (clocks w).
Definition set_heap (h : gmap positive (gmap string Value)) (w : World) : World :=
  mkWorld (files w) (lookup_fault w) (create_fault w) h (net w) (sent w)
          (stdout w) (now w) (browser w) (mux w) (sched w) (clocks w).
Definition set_net (n : list Reply) (s : list Request) (w : World) : World :=
  mkWorld (files w) (lookup_fault w) (create_fault w) (heap w) n s
          (stdout w) (now w) (browser w) (mux w) (sched w) (clocks w).
Definition set_stdout (o : list Line) (w : World) : World :=
  mkWorld (files w) (lookup_fault w) (create_fault w) (heap w) (net w) (sent w)
          o (now w) (browser w) (mux w) (sched w) (clocks w).
Definition set_now (t : Z) (w : World) : World :=
  mkWorld (files w) (lookup_fault w) (create_fault w) (heap w) (net w) (sent w)
          (stdout w) t (browser w) (mux w) (sched w) (clocks w).
Definition set_browser (b : list Callback) (w : World) : World :=
  mkWorld (files w) (lookup_fault w) (create_fault w) (heap w) (net w) (sent w)
          (stdout w) (now w) b (mux w) (sched w) (clocks w).
Definition set_mux (m : list string) (w : World) : World :=
  mkWorld (files w) (lookup_fault w) (create_fault w) (heap w) (net w) (sent w)
          (stdout w) (now w) (browser w) m (sched w) (clocks w).
Definition set_sched (s : list Fired) (w : World) : World :=
  mkWorld (files w) (lookup_fault w) (create_fault w) (heap w) (net w) (sent w)
          (stdout w) (now w) (browser w) (mux w) s (clocks w).
Definition set_clocks (c : list Clock) (w : World) : World :=
  mkWorld (files w) (lookup_fault w) (create_fault w) (heap w) (net w) (sent w)
          (stdout w) (now w) (browser w) (mux w) (sched w) c.

(** ** The monad *)

(** Why a run did not return to its caller. *)
Inductive Stop :=
| Fatal (format : string) (args : list Arg)   (* log.Fatalf: os.Exit(1) *)
| Panic (msg : string)                        (* run-time panic *)
| Blocked                                     (* waits for ever *)
| OutOfFuel.                                  (* never produced, see the totality lemmas *)

Inductive Run (A : Type) :=
| Done (a : A) (w : World)
| Halt (s : Stop) (w : World).
Arguments Done {A} a w.
Arguments Halt {A} s w.

Definition M (A : Type) : Type := World → Run A.

Definition ret {A} (a : A) : M A := λ w, Done a w.
Definition bind {A B} (m : M A) (k : A → M B) : M B :=
  λ w, match m w with
       | Done a w' => k a w'
       | Halt s w' => Halt s w'
       end.
Definition halt {A} (s : Stop) : M A := λ w, Halt s w.

#[global] Instance M_ret : MRet M := @ret.
#[global] Instance M_bind : MBind M := λ A B k m, bind m k.

(** Reads the world; used only to size the fuel of a loop. *)
Definition get_world : M World := λ w, Done w w.

(** The world a run ends in, returned or not. *)
Definition world_of {A} (r : Run A) : World :=
  match r with Done _ w => w | Halt _ w => w end.

(** ** Primitives of the Go standard library *)

Definition fmt_Printf (format : string) (args : list Arg) : M unit :=
  λ w, Done () (set_stdout (stdout w ++ [mkLine format args]) w).

(** [os.Stat], reduced to its error. *)
Definition os_Stat (path : string) : M (option Error) :=
  λ w, match lookup_fault w path with
       | Some e => Done (Some (SysErr e)) w
       | None =>
           match files w !! path with
           | Some _ => Done None w
           | None => Done (Some (SysErr ENOENT)) w
           end
       end.

(** [os.Open] followed by reading the file: the content or the error. *)
Definition os_Open (path : string) : M (Error + list byte) :=
  λ w, match lookup_fault w path with
       | Some e => Done (inl (SysErr e)) w
       | None =>
           match files w !! path with
           | Some content => Done (inr content) w
           | None => Done (inl (SysErr ENOENT)) w
           end
       end.

(** [os.Create]: creates or truncates; the handle is the path. *)
Definition os_Create (path : string) : M (Error + string) :=
  λ w, match lookup_fault w path with
       | Some e => Done (inl (SysErr e)) w
       | None =>
           match create_fault w path with
           | Some e => Done (inl (SysErr e)) w
           | None => Done (inr path) (set_files (<[path := []]> (files w)) w)
           end
       end.

(** Writing to an open file appends at its end. *)
Definition file_Write (out : string) (b : list byte) : M unit :=
  λ w, Done () (set_files (<[out := default [] (files w !! out) ++ b]> (files w)) w).

(** [io.Copy(out, body)]: everything that arrives is written; the result is
    the read error that ended the stream, if any. *)
Definition io_Copy (out : string) (body : BodyT) : M (option Error) :=
  file_Write out (data body) ;; ret (read_err body).

(** One round trip.  The request is logged; the next scripted outcome is
    consumed.  When the script is exhausted the connection fails. *)
Definition client_Do (client : HttpClient) (req : Request) : M Reply :=
  λ w, match net w with
       | [] => Done (Fail (NetErr "connection refused")) (set_net [] (sent w ++ [req]) w)
       | r :: rest => Done r (set_net rest (sent w ++ [req]) w)
       end.

Definition client_Get (client : HttpClient) (url : string) (query : Values) : M Reply :=
  client_Do client (mkRequest GET url query [] None).

Definition client_Post (client : HttpClient) (url contentType : string) : M Reply :=
  client_Do client (mkRequest POST url ∅ [("Content-Type", contentType)] None).

Definition time_Sleep (d : Z) : M unit :=
  λ w, Done () (set_now (now w + d) w).

Definition time_Now : M Z := λ w, Done (now w) w.

(** [time.NewTimer]. *)
Definition time_NewTimer (d : Z) : M unit :=
  λ w, Done () (set_clocks (clocks w ++ [Timer d]) w).

(** [time.NewTicker] panics on a non-positive interval. *)
Definition time_NewTicker (d : Z) : M unit :=
  λ w, if decide (d ≤ 0)
       then Halt (Panic "non-positive interval for NewTicker") w
       else Done () (set_clocks (clocks w ++ [Ticker d]) w).

(** [select] over the timer and the ticker channel: the runtime decides which
    case proceeds; with nothing left to fire the goroutine is parked. *)
Definition select_timer_ticker : M Fired :=
  λ w, match sched w with
       | [] => Halt Blocked w
       | ev :: rest => Done ev (set_sched rest w)
       end.

(** Library functions whose code is outside the repository. *)
Class GoLib := {
  (** [filepath.Join] *)
  filepath_Join : string → string → string;
  (** [time.ParseDuration], in nanoseconds *)
  time_ParseDuration : string → Error + Z;
  (** [oauth2.Config.AuthCodeURL] *)
  oauth2_AuthCodeURL : Config → string → string;
}.

(** [json.NewDecoder(body).Decode(&v)] for a struct type [T]. *)
Class JSONDecode (T : Type) := json_Decode : BodyT → Error + T.
(** [json.NewEncoder(f).Encode(v)]. *)
Class JSONEncode (T : Type) := json_Encode : T → list byte.

(** What [DownloadMediaItem] reads of its item; the two variants pass
    different struct types with the same two fields. *)
Class Downloadable (I : Type) := {
  item_BaseUrl : I → string;
  item_Filename : I → string;
}.

Section Download.
Context `{GoLib} {I : Type} `{Downloadable I}.

(** [DownloadMediaItem], the same in both variants. *)
Definition DownloadMediaItem (item : I) (folder : string) (client : HttpClient)
  : M (option Error) :=
  let downloadUrl := item_BaseUrl item +:+ "=d" in
  let filePath := filepath_Join folder (item_Filename item) in
  err ← os_Stat filePath;
  match err with
  | None =>
      fmt_Printf "File %s already exists, skipping download.\n" [AStr (item_Filename item)] ;;
      ret None
  | Some err =>
      if negb (os_IsNotExist err) then ret (Some err) else
      r ← client_Get client downloadUrl ∅;
      match r with
      | Fail err => ret (Some err)
      | Answer resp =>
          if negb (StatusCode resp =? StatusOK)
          then ret (Some (Errorf "failed to download file %s, HTTP status %d"
                                 [AStr (item_Filename item); AInt (StatusCode resp)]))
          else
            c ← os_Create filePath;
            match c with
            | inl err => ret (Some err)
            | inr out =>
                err ← io_Copy out (Body resp);
                match err with
                | Some err => ret (Some err)
                | None =>
                    fmt_Printf "Downloaded: %s\n" [AStr (item_Filename item)] ;;
                    ret None
                end
            end
      end
  end.
End Download.

(** ** Go maps on the heap *)

(** A [map[string]interface{}] value is a reference: [None] is the nil map. *)
Abbreviation MapRef := (option positive).

(** [m := map[string]any{...}]: a fresh cell. *)
Definition map_make (content : gmap string Value) : M MapRef :=
  λ w, let l := fresh (dom (heap w)) in
       Done (Some l) (set_heap (<[l := content]> (heap w)) w).

(** [m[key] = v]: writes through the reference; panics on the nil map. *)
Definition map_assign (m : MapRef) (key : string) (v : Value) : M unit :=
  λ w, match m with
       | None => Halt (Panic "assignment to entry in nil map") w
       | Some l =>
           Done () (set_heap (<[l := <[key := v]> (default ∅ (heap w !! l))]> (heap w)) w)
       end.

Fixpoint marshalable (v : Value) : bool :=
  match v with
  | VInt _ | VStr _ => true
  | VList l => forallb marshalable l
  | VMap kvs => forallb (λ kv, let '(_, x) := kv in marshalable x) kvs
  | VChan => false
  end.

(** [json.Marshal(m)]: the document sent is the content of the map at the
    time of the call. *)
Definition json_Marshal (m : MapRef) : M (Error + gmap string Value) :=
  λ w, let content := default ∅ (m ≫= λ l, heap w !! l) in
       if forallb (λ kv, marshalable kv.2) (map_to_list content)
       then Done (inr content) w
       else Done (inl (JSONErr "json: unsupported type")) w.

(** ** net/url *)

Record URL := mkURL {
  URLPath : string;
  RawQuery : Values;
}.

Definition is_CTL (c : Ascii.ascii) : bool :=
  let n := Ascii.nat_of_ascii c in ((n <? 32) || (n =? 127))%nat.

Fixpoint containsCTL (s : string) : bool :=
  match s with
  | EmptyString => false
  | String c s => is_CTL c || containsCTL s
  end.

(** [url.Parse] for a string without a query part: it only rejects control
    characters. *)
Definition url_Parse (s : string) : Error + URL :=
  if containsCTL s
  then inl (NetErr "net/url: invalid control character in URL")
  else inr (mkURL s ∅).

(** ** Credential store and authorization flow (both variants) *)

Inductive Variant := PickerClient | SearchClient.

Definition fmt_Println (s : string) : M unit := fmt_Printf "%v\n" [AStr s].

(** [http.HandleFunc]: a second registration of a pattern panics. *)
Definition http_HandleFunc (pattern : string) : M unit :=
  λ w, if decide (pattern ∈ mux w)
       then Halt (Panic "http: multiple registrations") w
       else Done () (set_mux (mux w ++ [pattern]) w).

(** [<-authCodeChannel]: blocks until the handler delivers the code. *)
Definition recv_authCodeChannel : M Callback :=
  λ w, match browser w with
       | [] => Halt Blocked w
       | cb :: rest => Done cb (set_now (now w + elapsed cb) (set_browser rest w))
       end.

Section Auth.
Context `{GoLib} `{JSONDecode Token} `{JSONEncode Token}.
Variable variant : Variant.

Definition tokenFromFile (file : string) : M (option Token * option Error) :=
  f ← os_Open file;
  match f with
  | inl err => ret (None, Some err)
  | inr content =>
      match json_Decode (mkBody content None) with
      | inl err => ret (Some (mkToken "" "" 0), Some err)
      | inr tok => ret (Some tok, None)
      end
  end.

Definition saveToken (path : string) (token : Token) : M unit :=
  match variant with
  | SearchClient => fmt_Printf "Saving token to %s\n" [AStr path]
  | PickerClient => ret ()
  end;;
  f ← os_Create path;
  match f with
  | inl err => halt (Fatal "Unable to cache token: %v" [AErr err])
  | inr f => file_Write f (json_Encode token)
  end.

(** The listener goroutine only feeds [authCodeChannel]; what it delivers
    is the next [Callback] of the world. *)
Definition getTokenFromWeb (config : Config) : M Token :=
  http_HandleFunc "/";;
  let authURL := oauth2_AuthCodeURL config "state-token" in
  fmt_Printf "Go to the following link in your browser then type the authorization code:\n%v\n"
             [AStr authURL];;
  cb ← recv_authCodeChannel;
  match exchanged cb with
  | inl err => halt (Fatal "Unable to retrieve token from web: %v" [AErr err])
  | inr tok => ret tok
  end.

Definition getNewTokenAndSave (config : Config) (tokenFile : string)
  : M (option Token * option Error) :=
  tok ← getTokenFromWeb config;
  saveToken tokenFile tok;;
  ret (Some tok, None).

(** A nil [*oauth2.Token] cannot be dereferenced. *)
Definition deref (tok : option Token) : M Token :=
  match tok with
  | Some t => ret t
  | None => halt (Panic "invalid memory address or nil pointer dereference")
  end.

Definition getClient (config : Config) : M (HttpClient * Token) :=
  let tokenFile := "token.json" in
  '(tok, err) ← tokenFromFile tokenFile;
  tok ← match err with
        | Some _ =>
            '(tok, err) ← getNewTokenAndSave config tokenFile;
            match err with
            | Some err => halt (Fatal "Unable to retrieve token: %v" [AErr err])
            | None => ret tok
            end
        | None => ret tok
        end;
  t ← deref tok;
  t0 ← time_Now;
  tok ← (if Expiry t <? t0 then
           '(tok, err) ← getNewTokenAndSave config tokenFile;
           match err with
           | Some err => halt (Fatal "Unable to retrieve token: %v" [AErr err])
           | None => ret tok
           end
         else ret tok);
  t ← deref tok;
  ret (mkClient t, t).
End Auth.

(** ** Variant B: the search client ([main.go]) *)

Module Search.

Record MediaItem := mkMediaItem {
  Id : string;
  BaseUrl : string;
  Filename : string;
}.

Record MediaItemsResponse := mkMediaItemsResponse {
  MediaItems : list MediaItem;
  NextPageToken : string;
}.

Record GooglePhotosClient := mkGooglePhotosClient {
  client : HttpClient;
}.

#[global] Instance MediaItem_Downloadable : Downloadable MediaItem :=
  {| item_BaseUrl := BaseUrl; item_Filename := Filename |}.

Definition url : string := "https://photoslibrary.googleapis.com/v1/mediaItems:search".

Definition Millisecond : Z := 1000000.

Section Client.
Context `{GoLib} `{JSONDecode MediaItemsResponse}.

(** The [for] statement of [SearchMediaItems]; [allItems] and [pageToken]
    are its two loop variables. *)
Fixpoint SearchMediaItems_for (fuel : nat) (gp : GooglePhotosClient)
    (filterPayload : MapRef) (allItems : list MediaItem) (pageToken : string)
  : M (list MediaItem * option Error) :=
  match fuel with
  | O => halt OutOfFuel
  | S fuel =>
      let payload := filterPayload in
      map_assign payload "pageSize" (VInt 100);;
      (if decide (pageToken ≠ "") then map_assign payload "pageToken" (VStr pageToken)
       else ret ());;
      p ← json_Marshal payload;
      match p with
      | inl err => ret ([], Some (Errorf "error marshaling payload: %v" [AErr err]))
      | inr payloadBytes =>
          (* http.NewRequest cannot fail on this method and URL *)
          let req := mkRequest POST url ∅ [("Content-Type", "application/json")]
                               (Some payloadBytes) in
          r ← client_Do (client gp) req;
          match r with
          | Fail err => ret ([], Some err)
          | Answer resp =>
              if negb (StatusCode resp =? StatusOK)
              then
                let bodyBytes := data (Body resp) in
                ret ([], Some (Errorf "non-OK HTTP status %d: %s"
                                      [AInt (StatusCode resp); ABytes bodyBytes]))
              else
                match json_Decode (Body resp) with
                | inl err => ret ([], Some err)
                | inr itemsResp =>
                    let allItems := allItems ++ MediaItems itemsResp in
                    if decide (NextPageToken itemsResp = "")
                    then ret (allItems, None)
                    else
                      time_Sleep (100 * Millisecond);;
                      SearchMediaItems_for fuel gp filterPayload allItems
                                           (NextPageToken itemsResp)
                end
          end
      end
  end.

(** Every iteration performs one round trip, and a round trip on an
    exhausted script fails, so the script bounds the number of
    iterations. *)
Definition SearchMediaItems (gp : GooglePhotosClient) (filterPayload : MapRef)
  : M (list MediaItem * option Error) :=
  w ← get_world;
  SearchMediaItems_for (S (length (net w))) gp filterPayload [] "".

(** The [for ... range mediaItems] statement of [main]. *)
Fixpoint main_range (mediaItems : list MediaItem) (folder : string)
    (client : HttpClient) : M unit :=
  match mediaItems with
  | [] => ret ()
  | item :: rest =>
      err ← DownloadMediaItem item folder client;
      match err with
      | Some err =>
          fmt_Printf "Error downloading %s: %v\n" [AStr (Filename item); AErr err]
      | None => ret ()
      end;;
      main_range rest folder client
  end.

Context `{JSONDecode Token} `{JSONEncode Token}.

(** [main] from the point where the folder flag and the credentials have
    been read. *)
Definition main (folder : string) (config : Config) : M unit :=
  '(client, _) ← getClient SearchClient config;
  let photosClient := mkGooglePhotosClient client in
  filterPayload ← map_make
    {[ "filters" :=
         VMap [("featureFilter",
                VMap [("includedFeatures", VList [VStr "FAVORITES"])])] ]};
  fmt_Println "Fetching favorite photos from Google Photos...";;
  '(mediaItems, err) ← SearchMediaItems photosClient filterPayload;
  match err with
  | Some err => halt (Fatal "Error retrieving favorite photos: %v" [AErr err])
  | None =>
      fmt_Printf "Found %d favorite photos.\n" [AInt (Z.of_nat (length mediaItems))];;
      main_range mediaItems folder client;;
      fmt_Println "Finished downloading photos."
  end.
End Client.

End Search.

(** ** Variant A: the picker client *)

(** [strings.Trim(s, cutset)]. *)
Fixpoint inCutset (c : Ascii.ascii) (cutset : string) : bool :=
  match cutset with
  | EmptyString => false
  | String a rest => Ascii.eqb a c || inCutset c rest
  end.

Fixpoint strings_TrimLeft (s cutset : string) : string :=
  match s with
  | EmptyString => EmptyString
  | String a rest => if inCutset a cutset then strings_TrimLeft rest cutset else s
  end.

Fixpoint strings_TrimRight (s cutset : string) : string :=
  match s with
  | EmptyString => EmptyString
  | String a rest =>
      match strings_TrimRight rest cutset with
      | EmptyString => if inCutset a cutset then EmptyString else String a EmptyString
      | t => String a t
      end
  end.

Definition strings_Trim (s cutset : string) : string :=
  strings_TrimRight (strings_TrimLeft s cutset) cutset.

(** The one-character string holding a double quote. *)
Definition quote : string := String (Ascii.ascii_of_nat 34) EmptyString.

Module Picker.

Definition sessionURL : string := "https://photospicker.googleapis.com/v1/sessions".
Definition mediaItemsURL : string := "https://photospicker.googleapis.com/v1/mediaItems".

Record PollingConfig := mkPollingConfig {
  PollInterval : string;
  TimeoutIn : string;
}.

(** Fields that share their name with a type carry a prime. *)
Record PickingSession := mkPickingSession {
  ID : string;
  MediaItemsSet : bool;
  PickerURI : string;
  PollingConfig' : PollingConfig;
}.

Record MediaFile := mkMediaFile {
  BaseUrl : string;
  Filename : string;
}.

Definition MediaType := string.

Definition MediaTypePhoto : MediaType := "PHOTO".
Definition MediaTypeVideo : MediaType := "VIDEO".
Definition MediaTypeTypeUnspecified : MediaType := "TYPE_UNSPECIFIED".

Record PickedMediaItem := mkPickedMediaItem {
  Id : string;
  CreateTime : string;
  Type' : MediaType;
  MediaFile' : MediaFile;
}.

Record MediaItemsList := mkMediaItemsList {
  MediaItems : list PickedMediaItem;
  NextPageToken : string;
}.

(** The field is [MediaItems] in the source, as in [MediaItemsList]. *)
Record DownloadableMediaItems := mkDownloadableMediaItems {
  MediaItems' : list PickedMediaItem;
}.

#[global] Instance MediaFile_Downloadable : Downloadable MediaFile :=
  {| item_BaseUrl := BaseUrl; item_Filename := Filename |}.

(** The zero values returned next to an error. *)
Definition PickingSession_zero : PickingSession :=
  mkPickingSession "" false "" (mkPollingConfig "" "").
Definition MediaItemsList_zero : MediaItemsList := mkMediaItemsList [] "".
Definition DownloadableMediaItems_zero : DownloadableMediaItems :=
  mkDownloadableMediaItems [].

Section Client.
Context `{GoLib} `{JSONDecode PickingSession} `{JSONDecode MediaItemsList}.

Definition newSession (client : HttpClient) : M (PickingSession * option Error) :=
  r ← client_Post client sessionURL "application/json";
  match r with
  | Fail err => halt (Fatal "Failed to create session: %v" [AErr err])
  | Answer resp =>
      if negb (StatusCode resp =? StatusOK)
      then ret (PickingSession_zero,
                Some (Errorf "failed to create session: status %d" [AInt (StatusCode resp)]))
      else
        match json_Decode (Body resp) with
        | inl err =>
            ret (PickingSession_zero,
                 Some (Errorf "failed to decode session response: %v" [AErr err]))
        | inr sessionResult => ret (sessionResult, None)
        end
  end.

Definition getMediaItemsFromFirstPage (client : HttpClient) (sessionID : string)
  : M (MediaItemsList * option Error) :=
  match url_Parse mediaItemsURL with
  | inl err =>
      ret (MediaItemsList_zero,
           Some (Errorf "failed to parse media items URL: %v" [AErr err]))
  | inr mediaItemsURL =>
      let mediaItemsQuery := RawQuery mediaItemsURL in
      let mediaItemsQuery := Values_Add "sessionId" sessionID mediaItemsQuery in
      let mediaItemsQuery := Values_Add "pageSize" "100" mediaItemsQuery in
      let mediaItemsURL := mkURL (URLPath mediaItemsURL) mediaItemsQuery in
      r ← client_Get client (URLPath mediaItemsURL) (RawQuery mediaItemsURL);
      match r with
      | Fail err =>
          ret (MediaItemsList_zero,
               Some (Errorf "failed to get media items: %v" [AErr err]))
      | Answer resp =>
          if negb (StatusCode resp =? StatusOK)
          then ret (MediaItemsList_zero,
                    Some (Errorf "failed to fetch media items: status %d"
                                 [AInt (StatusCode resp)]))
          else
            match json_Decode (Body resp) with
            | inl err =>
                ret (MediaItemsList_zero,
                     Some (Errorf "failed to decode media items response: %v" [AErr err]))
            | inr firstPageItems => ret (firstPageItems, None)
            end
      end
  end.

Definition getMediaItemsFromPageURL (client : HttpClient) (sessionID pageToken : string)
  : M (MediaItemsList * option Error) :=
  match url_Parse mediaItemsURL with
  | inl err =>
      ret (MediaItemsList_zero,
           Some (Errorf "failed to parse media items URL: %v" [AErr err]))
  | inr mediaItemsURL =>
      let mediaItemsQuery := RawQuery mediaItemsURL in
      let mediaItemsQuery := Values_Add "sessionId" sessionID mediaItemsQuery in
      let mediaItemsQuery := Values_Add "pageSize" "100" mediaItemsQuery in
      let mediaItemsQuery := Values_Add "pageToken" pageToken mediaItemsQuery in
      let mediaItemsURL := mkURL (URLPath mediaItemsURL) mediaItemsQuery in
      r ← client_Get client (URLPath mediaItemsURL) (RawQuery mediaItemsURL);
      match r with
      | Fail err =>
          ret (MediaItemsList_zero,
               Some (Errorf "failed to get media items from page URL: %v" [AErr err]))
      | Answer resp =>
          if negb (StatusCode resp =? StatusOK)
          then ret (MediaItemsList_zero,
                    Some (Errorf "failed to fetch media items: status %d"
                                 [AInt (StatusCode resp)]))
          else
            match json_Decode (Body resp) with
            | inl err =>
                ret (MediaItemsList_zero,
                     Some (Errorf "failed to decode media items response: %v" [AErr err]))
            | inr pageItems => ret (pageItems, None)
            end
      end
  end.

(** The [for nextPageToken != ""] statement of [fetchSelectedMediaItems]. *)
Fixpoint fetchSelectedMediaItems_for (fuel : nat) (client : HttpClient)
    (sessionID : string) (downloadableItems : DownloadableMediaItems)
    (nextPageToken : string) : M (DownloadableMediaItems * option Error) :=
  match fuel with
  | O => halt OutOfFuel
  | S fuel =>
      if decide (nextPageToken = "") then ret (downloadableItems, None)
      else
        '(pageList, err) ← getMediaItemsFromPageURL client sessionID nextPageToken;
        match err with
        | Some err =>
            ret (DownloadableMediaItems_zero,
                 Some (Errorf "failed to fetch next page media items: %v" [AErr err]))
        | None =>
            let downloadableItems :=
              mkDownloadableMediaItems
                (MediaItems' downloadableItems ++ MediaItems pageList) in
            fetchSelectedMediaItems_for fuel client sessionID downloadableItems
                                        (NextPageToken pageList)
        end
  end.

(** Every iteration that does not leave the loop performs a round trip,
    and a round trip on an exhausted script fails, so the script bounds the
    number of iterations. *)
Definition fetchSelectedMediaItems (client : HttpClient) (sessionID : string)
  : M (DownloadableMediaItems * option Error) :=
  '(firstPageList, err) ← getMediaItemsFromFirstPage client sessionID;
  match err with
  | Some err =>
      ret (DownloadableMediaItems_zero,
           Some (Errorf "failed to fetch first page media items: %v" [AErr err]))
  | None =>
      let downloadableItems := mkDownloadableMediaItems (MediaItems firstPageList) in
      let nextPageToken := NextPageToken firstPageList in
      w ← get_world;
      fetchSelectedMediaItems_for (S (length (net w))) client sessionID
                                  downloadableItems nextPageToken
  end.

Definition parseDuration (duration : string) : Error + Z :=
  let duration := strings_Trim duration quote in
  time_ParseDuration duration.

Definition pollForCompleteSession (client : HttpClient) (sessionID : string)
  : M (bool * option Error) :=
  let sessionCheckURL := sessionURL +:+ "/" +:+ sessionID in
  r ← client_Get client sessionCheckURL ∅;
  match r with
  | Fail err => ret (false, Some (Errorf "failed to check session: %v" [AErr err]))
  | Answer resp =>
      if negb (StatusCode resp =? StatusOK)
      then ret (false, Some (Errorf "failed to check session: status %d"
                                    [AInt (StatusCode resp)]))
      else
        match json_Decode (Body resp) with
        | inl err =>
            ret (false, Some (Errorf "failed to decode session response: %v" [AErr err]))
        | inr sessionResult => ret (MediaItemsSet sessionResult, None)
        end
  end.

(** The [for { select { ... } }] statement of [waitForSessionComplete]. *)
Fixpoint waitForSessionComplete_for (fuel : nat) (client : HttpClient)
    (session : PickingSession) (timeout : Z)
  : M (DownloadableMediaItems * option Error) :=
  match fuel with
  | O => halt OutOfFuel
  | S fuel =>
      ev ← select_timer_ticker;
      match ev with
      | TimerFired =>
          ret (DownloadableMediaItems_zero,
               Some (Errorf "session timed out after %v" [ADur timeout]))
      | TickFired =>
          '(complete, err) ← pollForCompleteSession client (ID session);
          match err with
          | Some err =>
              ret (DownloadableMediaItems_zero,
                   Some (Errorf "polling failed: %v" [AErr err]))
          | None =>
              if complete : bool then
                '(mediaItems, err) ← fetchSelectedMediaItems client (ID session);
                match err with
                | Some err =>
                    ret (DownloadableMediaItems_zero,
                         Some (Errorf "failed to fetch selected media items: %v"
                                      [AErr err]))
                | None => ret (mediaItems, None)
                end
              else waitForSessionComplete_for fuel client session timeout
          end
      end
  end.

(** Every iteration consumes one event of the schedule, and the goroutine
    is parked when none is left, so the schedule bounds the number of
    iterations. *)
Definition waitForSessionComplete (client : HttpClient) (session : PickingSession)
  : M (DownloadableMediaItems * option Error) :=
  match parseDuration (PollInterval (PollingConfig' session)) with
  | inl err =>
      ret (DownloadableMediaItems_zero,
           Some (Errorf "invalid polling interval: %v" [AErr err]))
  | inr interval =>
      match parseDuration (TimeoutIn (PollingConfig' session)) with
      | inl err =>
          ret (DownloadableMediaItems_zero,
               Some (Errorf "invalid timeout: %v" [AErr err]))
      | inr timeout =>
          time_NewTimer timeout;;
          time_NewTicker interval;;
          w ← get_world;
          waitForSessionComplete_for (S (length (sched w))) client session timeout
      end
  end.

Fixpoint downloadItems_range (client : HttpClient) (items : list PickedMediaItem)
    (folder : string) : M unit :=
  match items with
  | [] => ret ()
  | item :: rest =>
      err ← DownloadMediaItem (MediaFile' item) folder client;
      match err with
      | Some err =>
          fmt_Printf "Error downloading %s: %v\n"
                     [AStr (Filename (MediaFile' item)); AErr err]
      | None => ret ()
      end;;
      downloadItems_range client rest folder
  end.

Definition downloadItems (client : HttpClient) (items : DownloadableMediaItems)
    (folder : string) : M unit :=
  downloadItems_range client (MediaItems' items) folder.

Context `{JSONDecode Token} `{JSONEncode Token}.

(** [main] from the point where the folder flag and the credentials have
    been read. *)
Definition main (downloadPath : string) (config : Config) : M unit :=
  '(client, _) ← getClient PickerClient config;
  '(pickingSession, err) ← newSession client;
  match err with
  | Some err =>
      halt (Fatal "Failed to initialise photos picker session: %v" [AErr err])
  | None =>
      fmt_Printf "\nOpen the following URL in your browser to select photos:\n%s\n"
                 [AStr (PickerURI pickingSession)];;
      fmt_Printf "\nWaiting for photo selection (timeout: %s, polling every %s)...\n"
                 [AStr (TimeoutIn (PollingConfig' pickingSession));
                  AStr (PollInterval (PollingConfig' pickingSession))];;
      '(downloadableItems, err) ← waitForSessionComplete client pickingSession;
      match err with
      | Some err => halt (Fatal "Failed while waiting for photo selection: %v" [AErr err])
      | None => downloadItems client downloadableItems downloadPath
      end
  end.
End Client.

End Picker.

(** ** Vocabulary of the statements *)

Section Vocabulary.
Context `{GoLib} {I : Type} `{Downloadable I}.

(** The local path [DownloadMediaItem] works on. *)
Definition target (folder : string) (item : I) : string :=
  filepath_Join folder (item_Filename item).

(** The one request [DownloadMediaItem] may send. *)
Definition download_request (item : I) : Request :=
  mkRequest GET (item_BaseUrl item +:+ "=d") ∅ [] None.

(** The existence check finds the file. *)
Definition stat_finds (w : World) (path : string) : Prop :=
  os_Stat path w = Done None w.

(** The existence check reports that there is no such file. *)
Definition stat_not_exist (w : World) (path : string) : Prop :=
  os_Stat path w = Done (Some (SysErr ENOENT)) w.
End Vocabulary.

(** The requests sent between two worlds. *)
Definition sent_since (w w' : World) : list Request :=
  drop (length (sent w)) (sent w').

(** A well-behaved round trip: status 200 and a body that arrives whole. *)
Definition ok (body : list byte) : Reply :=
  Answer (mkResponse StatusOK (mkBody body None)).

(** The outcome of the next round trip, given the script that is left. *)
Definition reply_after (script : list Reply) : Reply :=
  default (Fail (NetErr "connection refused")) (head script).

Definition next_reply (w : World) : Reply := reply_after (net w).

(** [os.Create] would succeed on the path. *)
Definition creatable (w : World) (path : string) : Prop :=
  lookup_fault w path = None ∧ create_fault w path = None.

(** [json.Marshal] accepts the map. *)
Definition marshals (m : gmap string Value) : bool :=
  forallb (λ kv, marshalable kv.2) (map_to_list m).

(** What one iteration of [SearchMediaItems] leaves in the caller's map, and
    sends as its payload, when it starts from content [m] with [pageToken]. *)
Definition search_payload (m : gmap string Value) (pageToken : string)
  : gmap string Value :=
  if decide (pageToken = "") then <["pageSize" := VInt 100]> m
  else <["pageToken" := VStr pageToken]> (<["pageSize" := VInt 100]> m).

Definition search_request (payload : gmap string Value) : Request :=
  mkRequest POST Search.url ∅ [("Content-Type", "application/json")] (Some payload).

(** The page token a search request carries in its payload, if any. *)
Definition carried_token (r : Request) : option Value :=
  ReqPayload r ≫= λ m, m !! "pageToken".

(** The page size a search request asks for in its payload, if any. *)
Definition carried_size (r : Request) : option Value :=
  ReqPayload r ≫= λ m, m !! "pageSize".

(** A 200 response with the given body. *)
Definition page_reply (body : BodyT) : Reply :=
  Answer (mkResponse StatusOK body).

(** A round trip that does not yield a page of type [T]: a transport error,
    a status other than 200, or a body that does not decode. *)
Definition bad_reply (T : Type) `{JSONDecode T} (r : Reply) : Prop :=
  match r with
  | Fail _ => True
  | Answer resp =>
      StatusCode resp ≠ StatusOK ∨ ∃ err, json_Decode (T:=T) (Body resp) = inl err
  end.

(** The requests of the two page fetchers of the picker client. *)
Definition first_page_request (sessionID : string) : Request :=
  mkRequest GET Picker.mediaItemsURL
    (Values_Add "pageSize" "100" (Values_Add "sessionId" sessionID ∅)) [] None.

Definition next_page_request (sessionID pageToken : string) : Request :=
  mkRequest GET Picker.mediaItemsURL
    (Values_Add "pageToken" pageToken
       (Values_Add "pageSize" "100" (Values_Add "sessionId" sessionID ∅))) [] None.

(** The page token and the page size a picker request carries in its query. *)
Definition query_token (r : Request) : option (list string) := ReqQuery r !! "pageToken".
Definition query_size (r : Request) : option (list string) := ReqQuery r !! "pageSize".



(** The reading of "stop and report" that is put to the test: once the
    download of an item has returned an error, the loop sends nothing more. *)
Definition stops_after_error {I : Type} (loop : list I → M unit)
    (download : I → M (option Error)) : Prop :=
  ∀ pre item post w w1 e w2,
    loop pre w = Done () w1 →
    download item w1 = Done (Some e) w2 →
    sent (world_of (loop (pre ++ item :: post) w)) = sent w2.

(** The line the download loops print for a failed item. *)
Definition error_line (filename : string) (err : Error) : Line :=
  mkLine "Error downloading %s: %v\n" [AStr filename; AErr err].

(** What [getClient] finds in the token file. *)
Inductive TokenFile :=
| Unreadable (err : Error)
| Undecodable (err : Error)
| Stored (tok : Token).

Definition token_file `{JSONDecode Token} (w : World) : TokenFile :=
  match lookup_fault w "token.json" with
  | Some e => Unreadable (SysErr e)
  | None =>
      match files w !! "token.json" with
      | None => Unreadable (SysErr ENOENT)
      | Some content =>
          match json_Decode (mkBody content None) with
          | inl err => Undecodable err
          | inr tok => Stored tok
          end
      end
  end.

(** The token file cannot be read or decoded, or the token it holds expired
    before the current time. *)
Definition must_authorize `{JSONDecode Token} (w : World) : Prop :=
  match token_file w with
  | Stored tok => Expiry tok < now w
  | _ => True
  end.

#[global] Instance must_authorize_dec `{JSONDecode Token} (w : World) :
  Decision (must_authorize w).
Proof. unfold must_authorize. destruct (token_file w); apply _. Defined.

(** The web authorization flow ran between the two worlds: its first step
    registers the callback handler. *)
Definition web_flow_ran (w w' : World) : Prop := mux w' ≠ mux w.

(** The request of one poll of the picker session. *)
Definition poll_request (sessionID : string) : Request :=
  mkRequest GET (Picker.sessionURL +:+ "/" +:+ sessionID) ∅ [] None.

(** The reply to a poll is a session document whose [mediaItemsSet] is [set]. *)
Definition session_reply `{JSONDecode Picker.PickingSession} (set : bool) (r : Reply) : Prop :=
  ∃ resp s, r = Answer resp ∧ StatusCode resp = StatusOK ∧
            json_Decode (Body resp) = inr s ∧ Picker.MediaItemsSet s = set.

(** ** Vocabulary of the further properties *)

(** The request is a search request whose payload agrees with [m] on every
    key that [SearchMediaItems] does not set itself. *)
Definition sends_filter (m : gmap string Value) (r : Request) : Prop :=
  ∃ p, r = search_request p
       ∧ ∀ k, k ≠ "pageSize" → k ≠ "pageToken" → p !! k = m !! k.

(** Encoding a token and decoding the bytes gives the token back. *)
Definition token_codec_round_trip `{JSONDecode Token} `{JSONEncode Token} (tok : Token) : Prop :=
  json_Decode (mkBody (json_Encode tok) None) = inr tok.

(** The first reason why [os.Create] fails on the path, if it does. *)
Definition create_error (w : World) (path : string) : option Errno :=
  match lookup_fault w path with
  | Some e => Some e
  | None => create_fault w path
  end.

(** The filter payload [main] of variant B builds. *)
Definition favorites_filter : gmap string Value :=
  {[ "filters" :=
       VMap [("featureFilter", VMap [("includedFeatures", VList [VStr "FAVORITES"])])] ]}.

(** The disk, and what can go wrong on it, is the same in both worlds. *)
Definition same_disk (w w' : World) : Prop :=
  files w' = files w ∧ lookup_fault w' = lookup_fault w ∧ create_fault w' = create_fault w.

(** The request that creates a picker session. *)
Definition session_request : Request :=
  mkRequest POST Picker.sessionURL ∅ [("Content-Type", "application/json")] None.

(** What [main] of variant A prints once the session exists. *)
Definition session_lines (s : Picker.PickingSession) : list Line :=
  [mkLine "\nOpen the following URL in your browser to select photos:\n%s\n"
          [AStr (Picker.PickerURI s)];
   mkLine "\nWaiting for photo selection (timeout: %s, polling every %s)...\n"
          [AStr (Picker.TimeoutIn (Picker.PollingConfig' s));
           AStr (Picker.PollInterval (Picker.PollingConfig' s))]].

(** ** A concrete library and concrete worlds, for the examples *)

Module Demo.

(** Durations are spelled in whole seconds, as the picker service does. *)
Definition parse_seconds (s : string) : Error + Z :=
  if String.eqb s "5s" then inr 5000000000
  else if String.eqb s "60s" then inr 60000000000
  else inl (Errorf "time: invalid duration %q" [AStr s]).

Definition lib : GoLib := {|
  filepath_Join := λ dir name, dir +:+ "/" +:+ name;
  time_ParseDuration := parse_seconds;
  oauth2_AuthCodeURL := λ config state,
    "https://accounts.google.com/o/oauth2/auth?client_id=" +:+ ClientID config
      +:+ "&state=" +:+ state;
|}.

Definition name_of (b : byte) : string := String (Ascii.ascii_of_byte b) EmptyString.

(** A toy wire format: the first byte of a page is its continuation token
    ([x00] for none), every further byte names one media item. *)
Definition token_of (b : byte) : string :=
  if Byte.eqb b x00 then "" else name_of b.

Definition search_item (b : byte) : Search.MediaItem :=
  Search.mkMediaItem (name_of b) ("https://lh3.example/" +:+ name_of b)
                     (name_of b +:+ ".jpg").

Definition decode_search : JSONDecode Search.MediaItemsResponse :=
  λ body,
    match read_err body, data body with
    | Some err, _ => inl err
    | None, [] => inl (JSONErr "EOF")
    | None, t :: items =>
        inr (Search.mkMediaItemsResponse (search_item <$> items) (token_of t))
    end.

Definition picked_item (b : byte) : Picker.PickedMediaItem :=
  Picker.mkPickedMediaItem (name_of b) "2024-01-01T00:00:00Z" Picker.MediaTypePhoto
    (Picker.mkMediaFile ("https://lh3.example/" +:+ name_of b) (name_of b +:+ ".jpg")).

Definition decode_list : JSONDecode Picker.MediaItemsList :=
  λ body,
    match read_err body, data body with
    | Some err, _ => inl err
    | None, [] => inl (JSONErr "EOF")
    | None, t :: items =>
        inr (Picker.mkMediaItemsList (picked_item <$> items) (token_of t))
    end.

(** A session document is one byte: [x01] once the media items are set. *)
Definition decode_session : JSONDecode Picker.PickingSession :=
  λ body,
    match read_err body, data body with
    | None, [b] =>
        inr (Picker.mkPickingSession "s1" (Byte.eqb b x01) "https://picker.example/s1"
               (Picker.mkPollingConfig "5s" "60s"))
    | Some err, _ => inl err
    | None, _ => inl (JSONErr "EOF")
    end.

(** A token file is one byte: the expiry time. *)
Definition decode_token : JSONDecode Token :=
  λ body,
    match data body with
    | [b] => inr (mkToken "access" "refresh" (Z.of_N (Byte.to_N b)))
    | _ => inl (JSONErr "EOF")
    end.

Definition encode_token : JSONEncode Token :=
  λ tok, match Byte.of_N (Z.to_N (Expiry tok)) with
         | Some b => [b]
         | None => []
         end.

Definition config : Config := mkConfig "client-id" "photos.readonly".
Definition client : HttpClient := mkClient (mkToken "access" "refresh" 100).
Definition gp : Search.GooglePhotosClient := Search.mkGooglePhotosClient client.

(** An empty disk without faults, no network script, time 10. *)
Definition world0 : World :=
  mkWorld ∅ (λ _, None) (λ _, None) ∅ [] [] [] 10 [] [] [] [].

Definition with_net (script : list Reply) (w : World) : World :=
  set_net script (sent w) w.

Definition not_found : Reply :=
  Answer (mkResponse 404 (mkBody [] None)).

Definition itemA : Search.MediaItem := search_item x61.
Definition itemB : Search.MediaItem := search_item x62.
Definition pickedA : Picker.PickedMediaItem := picked_item x61.
Definition pickedB : Picker.PickedMediaItem := picked_item x62.

(** A disk that already holds [photos/a.jpg]. *)
Definition world_with_a : World :=
  set_files {[ "photos/a.jpg" := [x01; x02] ]} world0.

(** A disk on which [photos/a.jpg] cannot be looked up. *)
Definition world_denied : World :=
  mkWorld ∅ (λ path, if String.eqb path "photos/a.jpg" then Some EACCES else None)
          (λ _, None) ∅ [] [] [] 10 [] [] [] [].

(** Two pages: item [a] with continuation token [t], then item [b]. *)
Definition page1 : BodyT := mkBody [x74; x61] None.
Definition page2 : BodyT := mkBody [x00; x62] None.

(** The filter payload of [main] in variant B, stored at address 1. *)
Definition filter : gmap string Value :=
  {[ "filters" :=
       VMap [("featureFilter", VMap [("includedFeatures", VList [VStr "FAVORITES"])])] ]}.

Definition world_search (script : list Reply) : World :=
  set_heap {[ 1%positive := filter ]} (with_net script world0).

(** A picker session whose poll interval arrives quoted. *)
Definition session : Picker.PickingSession :=
  Picker.mkPickingSession "s1" false "https://picker.example/s1"
    (Picker.mkPollingConfig (quote +:+ "5s" +:+ quote) "60s").

Definition pending : Reply := ok [x00].
Definition selected : Reply := ok [x01].

Definition world_polling (events : list Fired) (script : list Reply) : World :=
  set_sched events (with_net script world0).

(** Token files: one that expired at time 5, one that is good until 100. *)
Definition world_expired : World :=
  set_browser [mkCallback 3 "code" (inr (mkToken "new" "refresh" 200))]
    (set_files {[ "token.json" := [x05] ]} world0).

Definition world_fresh : World :=
  set_files {[ "token.json" := [x64] ]} world0.

End Demo.

(** ** Further worlds for the examples *)

Module Cases.

(** A response whose body breaks off after one byte. *)
Definition broken : Reply :=
  Answer (mkResponse StatusOK (mkBody [x07] (Some (NetErr "reset")))).

(** Another media item that is stored under the file name of [Demo.itemA]. *)
Definition itemA' : Search.MediaItem :=
  Search.mkMediaItem "other" "https://lh3.example/other" "a.jpg".





(** A library that also reads a zero duration. *)
Definition lib0 : GoLib := {|
  filepath_Join := filepath_Join (GoLib := Demo.lib);
  time_ParseDuration := λ s,
    if String.eqb s "0s" then inr 0 else Demo.parse_seconds s;
  oauth2_AuthCodeURL := oauth2_AuthCodeURL (GoLib := Demo.lib);
|}.

Definition session_of (interval timeout : string) : Picker.PickingSession :=
  Picker.mkPickingSession "s1" false "https://picker.example/s1"
    (Picker.mkPollingConfig interval timeout).

(** No token file; the browser comes back after 3 with a code that the
    token endpoint answers as given. *)
Definition world_callback (answer : Error + Token) : World :=
  set_browser [mkCallback 3 "code" answer] Demo.world0.

(** The same on a disk where [token.json] cannot be created. *)
Definition world_read_only (answer : Error + Token) : World :=
  mkWorld ∅ (λ _, None)
          (λ path, if String.eqb path "token.json" then Some EACCES else None)
          ∅ [] [] [] 10 [mkCallback 3 "code" answer] [] [] [].

(** A good token file, a network script and a schedule of timer events. *)
Definition world_run (events : list Fired) (script : list Reply) : World :=
  set_sched events (Demo.with_net script Demo.world_fresh).

(** The session document the toy codec reads from one byte. *)
Definition session1 : Picker.PickingSession := session_of "5s" "60s".

End Cases.

(** * Proofs *)

Ltac unmonad :=
  unfold mbind, M_bind, bind, mret, M_ret, ret, halt, get_world in *.

(** ** The network script *)

Lemma client_Do_next client req w :
  client_Do client req w = Done (next_reply w) (set_net (tail (net w)) (sent w ++ [req]) w).
Proof. unfold client_Do, next_reply, reply_after. destruct (net w); reflexivity. Qed.

Lemma next_reply_Answer w resp :
  next_reply w = Answer resp → net w = Answer resp :: tail (net w).
Proof. unfold next_reply, reply_after. destruct (net w); cbn; [done|]. by intros ->. Qed.

Lemma next_reply_cons r rest w :
  net w = r :: rest → next_reply w = r ∧ tail (net w) = rest.
Proof. unfold next_reply, reply_after. by intros ->. Qed.

Section DownloadFacts.
Context `{GoLib} {I : Type} `{Downloadable I}.
Implicit Types (item : I) (folder : string) (client : HttpClient) (w : World).

Lemma os_Stat_cases w path :
  (stat_finds w path ∧ lookup_fault w path = None ∧ is_Some (files w !! path))
  ∨ (stat_not_exist w path ∧
     (lookup_fault w path = Some ENOENT ∨
      lookup_fault w path = None ∧ files w !! path = None))
  ∨ (∃ e, os_Stat path w = Done (Some (SysErr e)) w ∧ e ≠ ENOENT ∧
          lookup_fault w path = Some e).
Proof.
  unfold stat_finds, stat_not_exist, os_Stat.
  destruct (lookup_fault w path) as [e|] eqn:Hf.
  - destruct (decide (e = ENOENT)) as [->|Hne]; [right; left; eauto|].
    right; right. exists e. eauto.
  - destruct (files w !! path) eqn:Hl; [left|right; left]; eauto.
Qed.

Lemma stat_not_exist_frame w w' path :
  lookup_fault w' = lookup_fault w →
  files w' !! path = files w !! path →
  stat_not_exist w path → stat_not_exist w' path.
Proof.
  unfold stat_not_exist, os_Stat. intros -> ->.
  repeat case_match; intros; simplify_eq; done.
Qed.

(** The file is there: nothing but a console line. *)
Lemma Download_skip item folder client w :
  stat_finds w (target folder item) →
  DownloadMediaItem item folder client w =
    Done None (set_stdout (stdout w ++
      [mkLine "File %s already exists, skipping download.\n" [AStr (item_Filename item)]]) w).
Proof.
  unfold stat_finds, target, DownloadMediaItem. unmonad. intros ->. reflexivity.
Qed.

(** The existence check fails for another reason: the error, nothing else. *)
Lemma Download_stat_error item folder client w e :
  os_Stat (target folder item) w = Done (Some e) w →
  os_IsNotExist e = false →
  DownloadMediaItem item folder client w = Done (Some e) w.
Proof.
  unfold target, DownloadMediaItem. unmonad. intros -> He. rewrite He. reflexivity.
Qed.

(** The file is not there: one round trip, whose outcome decides the rest. *)
Lemma Download_fetch item folder client w :
  stat_not_exist w (target folder item) →
  let w1 := set_net (tail (net w)) (sent w ++ [download_request item]) w in
  DownloadMediaItem item folder client w =
    match next_reply w with
    | Fail err => Done (Some err) w1
    | Answer resp =>
        if negb (StatusCode resp =? StatusOK)
        then Done (Some (Errorf "failed to download file %s, HTTP status %d"
                                [AStr (item_Filename item); AInt (StatusCode resp)])) w1
        else
          match lookup_fault w (target folder item), create_fault w (target folder item) with
          | Some e, _ => Done (Some (SysErr e)) w1
          | None, Some e => Done (Some (SysErr e)) w1
          | None, None =>
              let w2 := set_files (<[target folder item := data (Body resp)]> (files w)) w1 in
              match read_err (Body resp) with
              | Some err => Done (Some err) w2
              | None =>
                  Done None (set_stdout (stdout w ++
                    [mkLine "Downloaded: %s\n" [AStr (item_Filename item)]]) w2)
              end
          end
    end.
Proof.
  unfold stat_not_exist, target, DownloadMediaItem, download_request. unmonad.
  intros ->. cbn.
  unfold client_Get. rewrite client_Do_next.
  destruct (next_reply w) as [err|resp]; cbn; try reflexivity.
  destruct (StatusCode resp =? StatusOK); cbn; try reflexivity.
  unfold os_Create; cbn.
  destruct (lookup_fault w _); cbn; try reflexivity.
  destruct (create_fault w _); cbn; try reflexivity.
  unfold io_Copy, file_Write. unmonad. cbn.
  rewrite lookup_insert_eq. cbn. rewrite insert_insert_eq.
  destruct (read_err (Body resp)); reflexivity.
Qed.

(** [DownloadMediaItem] always returns to its caller. *)
Lemma Download_total item folder client w :
  ∃ r w', DownloadMediaItem item folder client w = Done r w'.
Proof.
  destruct (os_Stat_cases w (target folder item)) as [(Hs&_)|[(Hs&_)|(e&Hs&Hne&_)]].
  - rewrite (Download_skip _ _ _ _ Hs). eauto.
  - rewrite (Download_fetch _ _ _ _ Hs). cbn.
    repeat (case_match; eauto).
  - erewrite Download_stat_error; eauto. destruct e; done.
Qed.
End DownloadFacts.

Section DownloadClaims.
Context `{GoLib} {I : Type} `{Downloadable I}.
Implicit Types (item : I) (folder : string) (client : HttpClient) (w : World).

(** C1. Whatever the item and the folder: when the existence check finds a
    file under the item's name, [DownloadMediaItem] returns success, sends
    no request and leaves the disk as it is; when the check reports that
    there is no such file, it sends one GET to the base URL followed by
    [=d], and, the answer being a complete 200 response and the file being
    creatable, it returns success having written exactly the response bytes
    to a file that is new at [filepath.Join(folder, Filename)]. *)
Theorem DownloadMediaItem_skips_or_fetches item folder client w :
  (stat_finds w (target folder item) →
     ∃ w', DownloadMediaItem item folder client w = Done None w' ∧
           files w' = files w ∧ sent w' = sent w ∧ net w' = net w)
  ∧ (stat_not_exist w (target folder item) →
     sent (world_of (DownloadMediaItem item folder client w))
       = sent w ++ [download_request item]
     ∧ ∀ body rest,
         net w = ok body :: rest →
         creatable w (target folder item) →
         ∃ w', DownloadMediaItem item folder client w = Done None w' ∧
               files w !! target folder item = None ∧
               files w' = <[target folder item := body]> (files w) ∧
               net w' = rest).
Proof.
  split.
  - intros Hs. rewrite (Download_skip _ _ _ _ Hs). eexists; split; [reflexivity|done].
  - intros Hs. rewrite (Download_fetch _ _ _ _ Hs). cbn. split.
    + repeat case_match; reflexivity.
    + intros body rest Hnet [Hl Hc].
      destruct (next_reply_cons _ _ _ Hnet) as [-> ->]. rewrite Hl, Hc. cbn.
      eexists; split; [reflexivity|]. cbn. split; [|done].
      unfold stat_not_exist, os_Stat in Hs. rewrite Hl in Hs.
      destruct (files w !! target folder item); [discriminate|done].
Qed.

(** C6. After a call of [DownloadMediaItem] that returned success, a second
    call for the same item and folder finds the file through the existence
    check and returns success; it sends nothing, consumes nothing of the
    network, and leaves every file as the first call left it.  More
    generally, whatever the first call returned, a second call that meets the
    same answer from the server leaves the files as the first call left
    them. *)
Theorem DownloadMediaItem_idempotent item folder client w r1 w1 :
  DownloadMediaItem item folder client w = Done r1 w1 →
  (r1 = None →
   ∃ w2, DownloadMediaItem item folder client w1 = Done None w2 ∧
         stat_finds w1 (target folder item) ∧
         files w2 = files w1 ∧ sent w2 = sent w1 ∧ net w2 = net w1)
  ∧ (next_reply w1 = next_reply w →
     files (world_of (DownloadMediaItem item folder client w1)) = files w1).
Proof.
  intros Hrun.
  assert (stat_finds w1 (target folder item) →
          ∃ w2, DownloadMediaItem item folder client w1 = Done None w2 ∧
                stat_finds w1 (target folder item) ∧
                files w2 = files w1 ∧ sent w2 = sent w1 ∧ net w2 = net w1) as Hskip.
  { intros Hs1. rewrite (Download_skip _ _ _ _ Hs1). eexists; split; [reflexivity|done]. }
  assert (lookup_fault w (target folder item) = None →
          is_Some (files w1 !! target folder item) → lookup_fault w1 = lookup_fault w →
          stat_finds w1 (target folder item)) as Hfinds.
  { intros Hl [c Hc] Hl1. unfold stat_finds, os_Stat. by rewrite Hl1, Hl, Hc. }
  destruct (os_Stat_cases w (target folder item))
    as [(Hs&Hl&Hc)|[(Hs&_)|(e&Hs&Hne&_)]].
  - rewrite (Download_skip _ _ _ _ Hs) in Hrun. injection Hrun as <- <-.
    assert (stat_finds
              (set_stdout (stdout w ++
                 [mkLine "File %s already exists, skipping download.\n"
                         [AStr (item_Filename item)]]) w) (target folder item)) as Hs1
      by (by apply Hfinds).
    split; [intros _; by apply Hskip|].
    intros _. destruct (Hskip Hs1) as (w2 & Hrun2 & _ & Hf & _). by rewrite Hrun2.
  - rewrite (Download_fetch _ _ _ _ Hs) in Hrun. cbn zeta in Hrun.
    assert (stat_not_exist
              (set_net (tail (net w)) (sent w ++ [download_request item]) w)
              (target folder item)) as Hs'
      by (by apply (stat_not_exist_frame w)).
    destruct (next_reply w) as [err|resp] eqn:Hr.
    { injection Hrun as <- <-. split; [done|]. intros Hsame.
      by rewrite (Download_fetch _ _ _ _ Hs'), Hsame. }
    destruct (negb (StatusCode resp =? StatusOK)) eqn:Hst.
    { injection Hrun as <- <-. split; [done|]. intros Hsame.
      by rewrite (Download_fetch _ _ _ _ Hs'), Hsame, Hst. }
    destruct (lookup_fault w (target folder item)) as [e|] eqn:Hl.
    { injection Hrun as <- <-. split; [done|]. intros Hsame.
      rewrite (Download_fetch _ _ _ _ Hs'), Hsame, Hst. cbn. by rewrite Hl. }
    destruct (create_fault w (target folder item)) as [e|] eqn:Hc.
    { injection Hrun as <- <-. split; [done|]. intros Hsame.
      rewrite (Download_fetch _ _ _ _ Hs'), Hsame, Hst. cbn. by rewrite Hl, Hc. }
    assert (stat_finds w1 (target folder item)) as Hs1.
    { apply Hfinds; [done| |];
        destruct (read_err (Body resp)); injection Hrun as <- <-; cbn;
        rewrite ?lookup_insert_eq; eauto. }
    split; [intros _; by apply Hskip|].
    intros _. destruct (Hskip Hs1) as (w2 & Hrun2 & _ & Hf & _). by rewrite Hrun2.
  - erewrite Download_stat_error in Hrun; eauto; [|destruct e; done].
    injection Hrun as <- <-. split; [done|]. intros _.
    erewrite Download_stat_error; eauto. destruct e; done.
Qed.

(** C9. A failure of [DownloadMediaItem] before the output file is created
    leaves the disk as it was: when the existence check fails with an error
    other than not-exist the error is returned and nothing at all happens;
    when the round trip fails, or the status is not 200, an error is
    returned and no file is created or changed.  Conversely an error return
    with a changed disk is a failed copy: the status was 200, the body broke
    off with that very error, and the target holds the bytes that had
    arrived. *)
Theorem DownloadMediaItem_failure_and_disk item folder client w :
  (∀ e, os_Stat (target folder item) w = Done (Some e) w →
        os_IsNotExist e = false →
        DownloadMediaItem item folder client w = Done (Some e) w)
  ∧ (stat_not_exist w (target folder item) →
     ∀ e, next_reply w = Fail e →
          ∃ w', DownloadMediaItem item folder client w = Done (Some e) w' ∧
                files w' = files w)
  ∧ (stat_not_exist w (target folder item) →
     ∀ resp, next_reply w = Answer resp → StatusCode resp ≠ StatusOK →
             ∃ e w', DownloadMediaItem item folder client w = Done (Some e) w' ∧
                     files w' = files w)
  ∧ (∀ e w', DownloadMediaItem item folder client w = Done (Some e) w' →
             files w' ≠ files w →
             ∃ resp, next_reply w = Answer resp ∧
                     StatusCode resp = StatusOK ∧
                     read_err (Body resp) = Some e ∧
                     files w' = <[target folder item := data (Body resp)]> (files w)).
Proof.
  split; [|split; [|split]].
  - intros e Hs He. by apply Download_stat_error.
  - intros Hs e Hr. rewrite (Download_fetch _ _ _ _ Hs), Hr. cbn.
    eexists; split; reflexivity.
  - intros Hs resp Hr Hne. rewrite (Download_fetch _ _ _ _ Hs), Hr. cbn.
    destruct (Z.eqb_spec (StatusCode resp) StatusOK); [done|]. cbn.
    do 2 eexists; split; reflexivity.
  - intros e w' Hrun Hch.
    destruct (os_Stat_cases w (target folder item))
      as [(Hs&_)|[(Hs&_)|(e'&Hs&Hne&_)]].
    + rewrite (Download_skip _ _ _ _ Hs) in Hrun. discriminate.
    + rewrite (Download_fetch _ _ _ _ Hs) in Hrun. cbn in Hrun.
      destruct (next_reply w) as [err|resp]; cbn in *;
        try (injection Hrun as <- <-; done).
      destruct (Z.eqb_spec (StatusCode resp) StatusOK) as [Hok|]; cbn in *;
        [|injection Hrun as <- <-; done].
      repeat case_match; simplify_eq; try done.
      exists resp. done.
    + erewrite Download_stat_error in Hrun; eauto; [|destruct e'; done].
      injection Hrun as <- <-. done.
Qed.
End DownloadClaims.

Section SearchFacts.
Context `{GoLib} `{JSONDecode Search.MediaItemsResponse}.
Implicit Types (gp : Search.GooglePhotosClient) (l : positive) (w : World)
  (m : gmap string Value) (all : list Search.MediaItem).

(** One iteration of the loop of [SearchMediaItems]. *)
Lemma Search_step fuel gp l all tok w :
  let m := default ∅ (heap w !! l) in
  let m' := search_payload m tok in
  let w1 := set_heap (<[l := m']> (heap w)) w in
  let w2 := set_net (tail (net w)) (sent w ++ [search_request m']) w1 in
  Search.SearchMediaItems_for (S fuel) gp (Some l) all tok w =
    if marshals m' then
      match next_reply w with
      | Fail err => Done ([], Some err) w2
      | Answer resp =>
          if negb (StatusCode resp =? StatusOK)
          then Done ([], Some (Errorf "non-OK HTTP status %d: %s"
                                 [AInt (StatusCode resp); ABytes (data (Body resp))])) w2
          else
            match json_Decode (Body resp) with
            | inl err => Done ([], Some err) w2
            | inr itemsResp =>
                if decide (Search.NextPageToken itemsResp = "")
                then Done (all ++ Search.MediaItems itemsResp, None) w2
                else Search.SearchMediaItems_for fuel gp (Some l)
                       (all ++ Search.MediaItems itemsResp)
                       (Search.NextPageToken itemsResp)
                       (set_now (now w + 100 * Search.Millisecond) w2)
            end
      end
    else Done ([], Some (Errorf "error marshaling payload: %v"
                           [AErr (JSONErr "json: unsupported type")])) w1.
Proof.
  intros m m' w1 w2. subst w2 w1 m'. unfold search_payload.
  cbn [Search.SearchMediaItems_for]. unmonad. unfold map_assign at 1. cbn. fold m.
  destruct (decide (tok = "")) as [->|Htok];
    [rewrite decide_False by (by intros [])|rewrite decide_True by done]; cbn.
  - unfold json_Marshal. cbn. rewrite lookup_insert_eq. cbn. fold (marshals (<["pageSize":=VInt 100]> m)).
    destruct (marshals _); [|reflexivity].
    rewrite client_Do_next. unfold next_reply, reply_after. cbn.
    destruct (head (net w)) as [[err|resp]|]; cbn; [reflexivity| |reflexivity].
    destruct (StatusCode resp =? StatusOK); cbn; [|reflexivity].
    destruct (json_Decode (Body resp)) as [err|p]; [reflexivity|].
    destruct (decide (Search.NextPageToken p = "")); reflexivity.
  - rewrite lookup_insert_eq. cbn. rewrite insert_insert_eq.
    unfold json_Marshal. cbn. rewrite lookup_insert_eq. cbn.
    fold (marshals (<["pageToken":=VStr tok]> (<["pageSize":=VInt 100]> m))).
    destruct (marshals _); [|reflexivity].
    rewrite client_Do_next. unfold next_reply, reply_after. cbn.
    destruct (head (net w)) as [[err|resp]|]; cbn; [reflexivity| |reflexivity].
    destruct (StatusCode resp =? StatusOK); cbn; [|reflexivity].
    destruct (json_Decode (Body resp)) as [err|p]; [reflexivity|].
    destruct (decide (Search.NextPageToken p = "")); reflexivity.
Qed.

Lemma marshals_insert m k v :
  marshals m = true → marshalable v = true → marshals (<[k := v]> m) = true.
Proof.
  unfold marshals. rewrite !forallb_forall. intros Hm Hv [k' v'] Hin.
  apply list_elem_of_In, elem_of_map_to_list in Hin. cbn.
  rewrite lookup_insert in Hin. case_decide; simplify_eq; [done|].
  apply (Hm (k', v')), list_elem_of_In, elem_of_map_to_list, Hin.
Qed.

Lemma marshals_search_payload m tok :
  marshals m = true → marshals (search_payload m tok) = true.
Proof.
  intros Hm. unfold search_payload.
  case_decide; repeat apply marshals_insert; done.
Qed.

Lemma search_payload_size m tok :
  search_payload m tok !! "pageSize" = Some (VInt 100).
Proof. unfold search_payload. case_decide; by simplify_map_eq. Qed.

Lemma search_payload_other m tok k :
  k ≠ "pageSize" → k ≠ "pageToken" → search_payload m tok !! k = m !! k.
Proof. intros. unfold search_payload. case_decide; by simplify_map_eq. Qed.

Lemma search_payload_token m tok :
  tok ≠ "" → search_payload m tok !! "pageToken" = Some (VStr tok).
Proof. intros. unfold search_payload. case_decide; by simplify_map_eq. Qed.

(** What holds of every run of the loop, however the servers behave. *)
Lemma Search_for_always gp l : ∀ fuel all tok w,
  (length (net w) < fuel)%nat →
  ∃ items err w' m',
    Search.SearchMediaItems_for fuel gp (Some l) all tok w = Done (items, err) w'
    ∧ (is_Some err → items = [])
    ∧ heap w' !! l = Some m'
    ∧ m' !! "pageSize" = Some (VInt 100)
    ∧ (∀ k, k ≠ "pageSize" → k ≠ "pageToken" →
            m' !! k = default ∅ (heap w !! l) !! k)
    ∧ (∃ new, sent w' = sent w ++ new ∧
              Forall (λ r, carried_size r = Some (VInt 100)) new)
    ∧ files w' = files w
    ∧ (tok ≠ "" → ∃ t, t ≠ "" ∧ m' !! "pageToken" = Some (VStr t)).
Proof.
  induction fuel as [|fuel IH]; intros all tok w Hfuel; [lia|].
  rewrite Search_step. cbn zeta.
  set (m := default ∅ (heap w !! l)).
  set (m1 := search_payload m tok).
  assert (∀ (w2 : World) (r : list Search.MediaItem * option Error),
    heap w2 !! l = Some m1 → files w2 = files w →
    sent w2 = sent w ++ [search_request m1] →
    (is_Some r.2 → r.1 = []) →
    ∃ items err w' m',
      Done r w2 = Done (items, err) w'
      ∧ (is_Some err → items = [])
      ∧ heap w' !! l = Some m'
      ∧ m' !! "pageSize" = Some (VInt 100)
      ∧ (∀ k, k ≠ "pageSize" → k ≠ "pageToken" → m' !! k = m !! k)
      ∧ (∃ new, sent w' = sent w ++ new ∧
                Forall (λ r, carried_size r = Some (VInt 100)) new)
      ∧ files w' = files w
      ∧ (tok ≠ "" → ∃ t, t ≠ "" ∧ m' !! "pageToken" = Some (VStr t))) as Hdone.
  { intros w2 [items err] Hh Hf Hs Hr. exists items, err, w2, m1.
    split; [done|]. split; [done|]. split; [done|].
    split; [apply search_payload_size|].
    split; [intros; by apply search_payload_other|].
    split; [|split; [done|]].
    - exists [search_request m1]. split; [done|].
      constructor; [|constructor]. unfold carried_size. cbn. apply search_payload_size.
    - intros Ht. exists tok. split; [done|]. by apply search_payload_token. }
  destruct (marshals m1).
  2:{ exists [], (Some (Errorf "error marshaling payload: %v"
                        [AErr (JSONErr "json: unsupported type")])).
      eexists _, m1. split; [reflexivity|]. cbn.
      rewrite lookup_insert_eq. split; [done|]. split; [done|].
      split; [apply search_payload_size|].
      split; [intros; by apply search_payload_other|].
      split; [|split; [done|]].
      - exists []. by rewrite app_nil_r.
      - intros Ht. exists tok. split; [done|]. by apply search_payload_token. }
  destruct (next_reply w) as [err|resp] eqn:Hr.
  - apply Hdone; cbn; [by rewrite lookup_insert_eq|done..].
  - destruct (negb (StatusCode resp =? StatusOK));
      [apply Hdone; cbn; [by rewrite lookup_insert_eq|done..]|].
    destruct (json_Decode (Body resp)) as [err|p];
      [apply Hdone; cbn; [by rewrite lookup_insert_eq|done..]|].
    case_decide; [apply Hdone; cbn; [by rewrite lookup_insert_eq|done|done|]|].
    { by intros [? [=]]. }
    edestruct (IH (all ++ Search.MediaItems p) (Search.NextPageToken p)) as
      (items & err & w' & m' & -> & Hi & Hh & Hsz & Hk & (new & Hs & Hn) & Hf & Ht);
      [|exists items, err, w', m'; split; [reflexivity|]].
    { apply next_reply_Answer in Hr. rewrite Hr in Hfuel. cbn in *. lia. }
    cbn in Hk, Hs, Hf. rewrite lookup_insert_eq in Hk. cbn in Hk.
    split; [done|]. split; [done|]. split; [done|].
    split. { intros k ??. rewrite Hk by done. by apply search_payload_other. }
    split; [|split; [done|by intros _; apply Ht]].
    exists (search_request m1 :: new). rewrite Hs, <- app_assoc. split; [done|].
    constructor; [|done]. unfold carried_size. cbn. apply search_payload_size.
Qed.

Lemma Search_for_nil_map fuel gp all tok w :
  Search.SearchMediaItems_for (S fuel) gp None all tok w
    = Halt (Panic "assignment to entry in nil map") w.
Proof. reflexivity. Qed.

Lemma SearchMediaItems_unfold gp filterPayload w :
  Search.SearchMediaItems gp filterPayload w =
  Search.SearchMediaItems_for (S (length (net w))) gp filterPayload [] "" w.
Proof. reflexivity. Qed.

(** A run over a prefix of pages that all announce a successor. *)
Lemma Search_for_prefix gp l rest :
  ∀ (bps : list (BodyT * Search.MediaItemsResponse)) fuel all tok w,
  marshals (default ∅ (heap w !! l)) = true →
  Forall (λ bp, json_Decode bp.1 = inr bp.2 ∧ Search.NextPageToken bp.2 ≠ "") bps →
  net w = (page_reply <$> bps.*1) ++ rest →
  ∃ w' tok' new,
    Search.SearchMediaItems_for (length bps + fuel) gp (Some l) all tok w =
    Search.SearchMediaItems_for fuel gp (Some l)
      (all ++ concat (Search.MediaItems <$> bps.*2)) tok' w'
    ∧ net w' = rest
    ∧ files w' = files w
    ∧ marshals (default ∅ (heap w' !! l)) = true
    ∧ sent w' = sent w ++ new
    ∧ (carried_token <$> new)
        ++ [search_payload (default ∅ (heap w' !! l)) tok' !! "pageToken"]
      = (search_payload (default ∅ (heap w !! l)) tok !! "pageToken")
          :: ((λ bp, Some (VStr (Search.NextPageToken bp.2))) <$> bps).
Proof.
  induction bps as [|[b p] bps IH]; intros fuel all tok w Hm Hgood Hnet.
  - exists w, tok, []. cbn. rewrite !app_nil_r. done.
  - apply Forall_cons in Hgood as [[Hdec Htok] Hgood]. cbn in Hdec, Htok.
    cbn [length plus]. rewrite Search_step. cbn zeta.
    rewrite (marshals_search_payload _ tok Hm).
    cbn in Hnet. destruct (next_reply_cons _ _ _ Hnet) as [-> ->].
    unfold page_reply at 1. cbn [StatusCode Body]. rewrite Hdec.
    change (negb (StatusOK =? StatusOK)) with false. cbv iota.
    destruct (decide (Search.NextPageToken p = "")) as [|_]; [done|].
    set (m1 := search_payload (default ∅ (heap w !! l)) tok).
    edestruct (IH fuel (all ++ Search.MediaItems p) (Search.NextPageToken p))
      as (w' & tok' & new & -> & Hn & Hf & Hm' & Hs & Hc); [| |reflexivity|].
    { cbn. rewrite lookup_insert_eq. cbn. by apply marshals_search_payload. }
    { done. }
    cbn in Hs, Hc, Hf. rewrite lookup_insert_eq in Hc. cbn in Hc.
    exists w', tok', (search_request m1 :: new).
    rewrite <- app_assoc. split; [done|]. split; [done|]. split; [done|].
    split; [done|]. split; [by rewrite Hs, <- app_assoc|].
    cbn. rewrite Hc. f_equal. f_equal.
    by apply search_payload_token.
Qed.
End SearchFacts.

Section PickerFacts.
Context `{GoLib} `{JSONDecode Picker.PickingSession} `{JSONDecode Picker.MediaItemsList}.
Implicit Types (client : HttpClient) (w : World) (sid tok : string).

Lemma url_Parse_mediaItemsURL :
  url_Parse Picker.mediaItemsURL = inr (mkURL Picker.mediaItemsURL ∅).
Proof. reflexivity. Qed.

Lemma FirstPage_step client sid w :
  let w1 := set_net (tail (net w)) (sent w ++ [first_page_request sid]) w in
  Picker.getMediaItemsFromFirstPage client sid w =
    match next_reply w with
    | Fail err =>
        Done (Picker.MediaItemsList_zero,
              Some (Errorf "failed to get media items: %v" [AErr err])) w1
    | Answer resp =>
        if negb (StatusCode resp =? StatusOK)
        then Done (Picker.MediaItemsList_zero,
                   Some (Errorf "failed to fetch media items: status %d"
                                [AInt (StatusCode resp)])) w1
        else
          match json_Decode (Body resp) with
          | inl err =>
              Done (Picker.MediaItemsList_zero,
                    Some (Errorf "failed to decode media items response: %v" [AErr err])) w1
          | inr page => Done (page, None) w1
          end
    end.
Proof.
  unfold Picker.getMediaItemsFromFirstPage. rewrite url_Parse_mediaItemsURL.
  unmonad. unfold client_Get. rewrite client_Do_next. cbn.
  destruct (next_reply w) as [err|resp]; [reflexivity|].
  destruct (negb (StatusCode resp =? StatusOK)); [reflexivity|].
  destruct (json_Decode (Body resp)); reflexivity.
Qed.

Lemma PageURL_step client sid tok w :
  let w1 := set_net (tail (net w)) (sent w ++ [next_page_request sid tok]) w in
  Picker.getMediaItemsFromPageURL client sid tok w =
    match next_reply w with
    | Fail err =>
        Done (Picker.MediaItemsList_zero,
              Some (Errorf "failed to get media items from page URL: %v" [AErr err])) w1
    | Answer resp =>
        if negb (StatusCode resp =? StatusOK)
        then Done (Picker.MediaItemsList_zero,
                   Some (Errorf "failed to fetch media items: status %d"
                                [AInt (StatusCode resp)])) w1
        else
          match json_Decode (Body resp) with
          | inl err =>
              Done (Picker.MediaItemsList_zero,
                    Some (Errorf "failed to decode media items response: %v" [AErr err])) w1
          | inr page => Done (page, None) w1
          end
    end.
Proof.
  unfold Picker.getMediaItemsFromPageURL. rewrite url_Parse_mediaItemsURL.
  unmonad. unfold client_Get. rewrite client_Do_next. cbn.
  destruct (next_reply w) as [err|resp]; [reflexivity|].
  destruct (negb (StatusCode resp =? StatusOK)); [reflexivity|].
  destruct (json_Decode (Body resp)); reflexivity.
Qed.

(** Both fetchers return the zero list next to an error, send exactly one
    request, and do not touch the disk. *)
Lemma PageURL_always client sid tok w :
  ∃ page err,
    Picker.getMediaItemsFromPageURL client sid tok w
      = Done (page, err) (set_net (tail (net w)) (sent w ++ [next_page_request sid tok]) w)
    ∧ (is_Some err → page = Picker.MediaItemsList_zero ∧
                     bad_reply Picker.MediaItemsList (next_reply w))
    ∧ (err = None → ∃ resp, next_reply w = Answer resp ∧ StatusCode resp = StatusOK ∧
                            json_Decode (Body resp) = inr page).
Proof.
  rewrite PageURL_step. cbn zeta.
  destruct (next_reply w) as [e|resp]; [do 2 eexists; split; [reflexivity|]|].
  { split; [done|]. intros [=]. }
  destruct (Z.eqb_spec (StatusCode resp) StatusOK) as [Hok|Hne]; cbn [negb].
  2:{ do 2 eexists; split; [reflexivity|]. split; [intros _; split; [done|by left]|intros [=]]. }
  destruct (json_Decode (Body resp)) as [e|page] eqn:Hd;
    do 2 eexists; (split; [reflexivity|]).
  - split; [intros _; split; [done|right; eauto]|intros [=]].
  - split; [by intros [? [=]]|]. intros _. eauto.
Qed.

Lemma FirstPage_always client sid w :
  ∃ page err,
    Picker.getMediaItemsFromFirstPage client sid w
      = Done (page, err) (set_net (tail (net w)) (sent w ++ [first_page_request sid]) w)
    ∧ (is_Some err → page = Picker.MediaItemsList_zero ∧
                     bad_reply Picker.MediaItemsList (next_reply w))
    ∧ (err = None → ∃ resp, next_reply w = Answer resp ∧ StatusCode resp = StatusOK ∧
                            json_Decode (Body resp) = inr page).
Proof.
  rewrite FirstPage_step. cbn zeta.
  destruct (next_reply w) as [e|resp]; [do 2 eexists; split; [reflexivity|]|].
  { split; [done|]. intros [=]. }
  destruct (Z.eqb_spec (StatusCode resp) StatusOK) as [Hok|Hne]; cbn [negb].
  2:{ do 2 eexists; split; [reflexivity|]. split; [intros _; split; [done|by left]|intros [=]]. }
  destruct (json_Decode (Body resp)) as [e|page] eqn:Hd;
    do 2 eexists; (split; [reflexivity|]).
  - split; [intros _; split; [done|right; eauto]|intros [=]].
  - split; [by intros [? [=]]|]. intros _. eauto.
Qed.

Lemma query_size_first sid : query_size (first_page_request sid) = Some ["100"].
Proof.
  unfold query_size, first_page_request, Values_Add. cbn.
  rewrite lookup_insert_eq. by rewrite lookup_insert_ne, lookup_empty.
Qed.

Lemma query_size_next sid tok : query_size (next_page_request sid tok) = Some ["100"].
Proof.
  unfold query_size, next_page_request, Values_Add. cbn.
  rewrite lookup_insert_ne by done. rewrite lookup_insert_eq.
  by rewrite lookup_insert_ne, lookup_empty.
Qed.

Lemma query_token_first sid : query_token (first_page_request sid) = None.
Proof.
  unfold query_token, first_page_request, Values_Add. cbn.
  by rewrite !lookup_insert_ne, lookup_empty.
Qed.

Lemma query_token_next sid tok : query_token (next_page_request sid tok) = Some [tok].
Proof.
  unfold query_token, next_page_request, Values_Add. cbn.
  rewrite lookup_insert_eq. by rewrite !lookup_insert_ne, lookup_empty.
Qed.

Lemma fetch_for_step fuel client sid d tok w :
  Picker.fetchSelectedMediaItems_for (S fuel) client sid d tok w =
    if decide (tok = "") then Done (d, None) w
    else
      match Picker.getMediaItemsFromPageURL client sid tok w with
      | Done (page, Some err) w1 =>
          Done (Picker.DownloadableMediaItems_zero,
                Some (Errorf "failed to fetch next page media items: %v" [AErr err])) w1
      | Done (page, None) w1 =>
          Picker.fetchSelectedMediaItems_for fuel client sid
            (Picker.mkDownloadableMediaItems (Picker.MediaItems' d ++ Picker.MediaItems page))
            (Picker.NextPageToken page) w1
      | Halt s w1 => Halt s w1
      end.
Proof.
  cbn [Picker.fetchSelectedMediaItems_for]. case_decide; [reflexivity|].
  unmonad. destruct (Picker.getMediaItemsFromPageURL client sid tok w) as [[page [err|]]|];
    reflexivity.
Qed.

(** What holds of every run of the loop, however the servers behave. *)
Lemma fetch_for_always client sid : ∀ fuel d tok w,
  (length (net w) < fuel)%nat →
  ∃ items err w',
    Picker.fetchSelectedMediaItems_for fuel client sid d tok w = Done (items, err) w'
    ∧ (is_Some err → items = Picker.DownloadableMediaItems_zero)
    ∧ (∃ new, sent w' = sent w ++ new ∧
              Forall (λ r, query_size r = Some ["100"]) new)
    ∧ files w' = files w ∧ sched w' = sched w.
Proof.
  induction fuel as [|fuel IH]; intros d tok w Hfuel; [lia|].
  rewrite fetch_for_step. case_decide.
  { exists d, None, w. split; [done|]. split; [by intros [? [=]]|].
    split; [|done]. exists []. by rewrite app_nil_r. }
  destruct (PageURL_always client sid tok w) as (page & err & -> & Herr & Hok).
  destruct err as [err|].
  { do 3 eexists; split; [reflexivity|]. split; [done|]. split; [|done].
    eexists [_]. split; [done|]. constructor; [apply query_size_next|constructor]. }
  destruct (Hok eq_refl) as (resp & Hr & _).
  edestruct (IH (Picker.mkDownloadableMediaItems (Picker.MediaItems' d ++ Picker.MediaItems page))
                (Picker.NextPageToken page))
    as (items & e & w' & -> & Hi & (new & Hs & Hn) & Hf & Hsc).
  { apply next_reply_Answer in Hr. rewrite Hr in Hfuel. cbn in *. lia. }
  exists items, e, w'. split; [done|]. split; [done|]. split; [|done].
  exists (next_page_request sid tok :: new). cbn in Hs. rewrite Hs, <- app_assoc.
  split; [done|]. constructor; [apply query_size_next|done].
Qed.

(** A run over a prefix of pages that all announce a successor. *)
Lemma fetch_for_prefix client sid rest :
  ∀ (bps : list (BodyT * Picker.MediaItemsList)) fuel d tok w,
  tok ≠ "" →
  Forall (λ bp, json_Decode bp.1 = inr bp.2 ∧ Picker.NextPageToken bp.2 ≠ "") bps →
  net w = (page_reply <$> bps.*1) ++ rest →
  ∃ w' tok' new,
    Picker.fetchSelectedMediaItems_for (length bps + fuel) client sid d tok w =
    Picker.fetchSelectedMediaItems_for fuel client sid
      (Picker.mkDownloadableMediaItems
         (Picker.MediaItems' d ++ concat (Picker.MediaItems <$> bps.*2))) tok' w'
    ∧ tok' ≠ ""
    ∧ net w' = rest
    ∧ files w' = files w
    ∧ sent w' = sent w ++ new
    ∧ (query_token <$> new) ++ [Some [tok']]
      = Some [tok] :: ((λ bp, Some [Picker.NextPageToken bp.2]) <$> bps).
Proof.
  induction bps as [|[b p] bps IH]; intros fuel d tok w Htok Hgood Hnet.
  - exists w, tok, []. cbn. rewrite !app_nil_r. by destruct d.
  - apply Forall_cons in Hgood as [[Hdec Hp] Hgood]. cbn in Hdec, Hp.
    cbn [length plus]. rewrite fetch_for_step, PageURL_step. cbn zeta.
    destruct (decide (tok = "")) as [|_]; [done|].
    cbn in Hnet. destruct (next_reply_cons _ _ _ Hnet) as [-> ->].
    unfold page_reply at 1. cbn [StatusCode Body]. rewrite Hdec.
    change (negb (StatusOK =? StatusOK)) with false. cbv iota.
    edestruct (IH fuel (Picker.mkDownloadableMediaItems
                          (Picker.MediaItems' d ++ Picker.MediaItems p))
                  (Picker.NextPageToken p))
      as (w' & tok' & new & -> & Ht' & Hn & Hf & Hs & Hc); [done|done|reflexivity|].
    cbn in Hs, Hf. exists w', tok', (next_page_request sid tok :: new).
    cbn. rewrite <- app_assoc. split; [done|]. split; [done|]. split; [done|].
    split; [done|]. split; [by rewrite Hs, <- app_assoc|].
    rewrite Hc. f_equal.
Qed.

Lemma fetchSelectedMediaItems_unfold client sid w :
  Picker.fetchSelectedMediaItems client sid w =
    match Picker.getMediaItemsFromFirstPage client sid w with
    | Done (firstPageList, Some err) w1 =>
        Done (Picker.DownloadableMediaItems_zero,
              Some (Errorf "failed to fetch first page media items: %v" [AErr err])) w1
    | Done (firstPageList, None) w1 =>
        Picker.fetchSelectedMediaItems_for (S (length (net w1))) client sid
          (Picker.mkDownloadableMediaItems (Picker.MediaItems firstPageList))
          (Picker.NextPageToken firstPageList) w1
    | Halt s w1 => Halt s w1
    end.
Proof.
  unfold Picker.fetchSelectedMediaItems. unmonad.
  destruct (Picker.getMediaItemsFromFirstPage client sid w) as [[page [err|]]|];
    reflexivity.
Qed.

(** What holds of every run of [fetchSelectedMediaItems]. *)
Lemma fetchSelectedMediaItems_always client sid w :
  ∃ items err w',
    Picker.fetchSelectedMediaItems client sid w = Done (items, err) w'
    ∧ (is_Some err → items = Picker.DownloadableMediaItems_zero)
    ∧ (∃ new, sent w' = sent w ++ new ∧
              Forall (λ r, query_size r = Some ["100"]) new)
    ∧ files w' = files w ∧ sched w' = sched w.
Proof.
  rewrite fetchSelectedMediaItems_unfold.
  destruct (FirstPage_always client sid w) as (page & err & -> & Herr & Hok).
  destruct err as [err|].
  { do 3 eexists; split; [reflexivity|]. split; [done|]. split; [|done].
    eexists [_]. split; [done|]. constructor; [apply query_size_first|constructor]. }
  edestruct (fetch_for_always client sid)
    as (items & e & w' & -> & Hi & (new & Hs & Hn) & Hf & Hsc);
    [|exists items, e, w'; split; [reflexivity|]].
  { lia. }
  split; [done|]. split; [|done].
  exists (first_page_request sid :: new). cbn in Hs. rewrite Hs, <- app_assoc.
  split; [done|]. constructor; [apply query_size_first|done].
Qed.
End PickerFacts.

Section PaginationClaims.
Context `{JSONDecode Search.MediaItemsResponse} `{JSONDecode Picker.MediaItemsList}.

Lemma sent_since_app w w' new :
  sent w' = sent w ++ new → sent_since w w' = new.
Proof. unfold sent_since. intros ->. by rewrite drop_app_length. Qed.

Lemma SearchMediaItems_pages gp l m w
    (bps : list (BodyT * Search.MediaItemsResponse)) b p rest :
  heap w !! l = Some m →
  marshals m = true →
  Forall (λ bp, json_Decode bp.1 = inr bp.2 ∧ Search.NextPageToken bp.2 ≠ "") bps →
  json_Decode b = inr p →
  Search.NextPageToken p = "" →
  net w = (page_reply <$> (bps.*1 ++ [b])) ++ rest →
  ∃ w', Search.SearchMediaItems gp (Some l) w
          = Done (concat (Search.MediaItems <$> (bps.*2 ++ [p])), None) w'
        ∧ net w' = rest
        ∧ files w' = files w
        ∧ carried_token <$> sent_since w w'
          = (m !! "pageToken") :: ((λ bp, Some (VStr (Search.NextPageToken bp.2))) <$> bps).
Proof.
  intros Hl Hm Hgood Hdec Hlast Hnet.
  rewrite SearchMediaItems_unfold.
  rewrite fmap_app, <- app_assoc in Hnet. cbn in Hnet.
  replace (S (length (net w))) with (length bps + S (S (length rest)))%nat
    by (rewrite Hnet, length_app, !length_fmap; cbn; lia).
  destruct (Search_for_prefix gp l (page_reply b :: rest) bps (S (S (length rest))) [] "" w)
    as (w1 & tok1 & new & -> & Hn & Hf & Hm1 & Hs & Hc); [by rewrite Hl|done|done|].
  rewrite Search_step. cbn zeta.
  rewrite (marshals_search_payload _ tok1 Hm1).
  destruct (next_reply_cons _ _ _ Hn) as [-> ->].
  unfold page_reply at 1. cbn [StatusCode Body]. rewrite Hdec.
  change (negb (StatusOK =? StatusOK)) with false. cbv iota.
  destruct (decide (Search.NextPageToken p = "")) as [_|]; [|done].
  eexists. split.
  { f_equal. f_equal. rewrite fmap_app, concat_app. cbn. by rewrite app_nil_r. }
  cbn. split; [done|]. split; [done|].
  erewrite sent_since_app; [|cbn; rewrite Hs, <- app_assoc; reflexivity].
  rewrite fmap_app. cbn.
  rewrite Hc, Hl. cbn. f_equal.
  unfold search_payload. rewrite decide_True by done. by rewrite lookup_insert_ne.
Qed.

Lemma fetchSelectedMediaItems_pages client sid w
    (bps : list (BodyT * Picker.MediaItemsList)) b p rest :
  Forall (λ bp, json_Decode bp.1 = inr bp.2 ∧ Picker.NextPageToken bp.2 ≠ "") bps →
  json_Decode b = inr p →
  Picker.NextPageToken p = "" →
  net w = (page_reply <$> (bps.*1 ++ [b])) ++ rest →
  ∃ w', Picker.fetchSelectedMediaItems client sid w
          = Done (Picker.mkDownloadableMediaItems
                    (concat (Picker.MediaItems <$> (bps.*2 ++ [p]))), None) w'
        ∧ net w' = rest
        ∧ files w' = files w
        ∧ query_token <$> sent_since w w'
          = None :: ((λ bp, Some [Picker.NextPageToken bp.2]) <$> bps).
Proof.
  intros Hgood Hdec Hlast Hnet.
  rewrite fetchSelectedMediaItems_unfold, FirstPage_step. cbn zeta.
  rewrite fmap_app, <- app_assoc in Hnet. cbn in Hnet.
  destruct bps as [|[b1 p1] bps].
  - (* a single page *)
    cbn in Hnet. destruct (next_reply_cons _ _ _ Hnet) as [-> ->].
    unfold page_reply at 1. cbn [StatusCode Body]. rewrite Hdec.
    change (negb (StatusOK =? StatusOK)) with false. cbv iota.
    rewrite fetch_for_step, decide_True by done.
    eexists. split; [cbn; by rewrite app_nil_r|]. cbn.
    split; [done|]. split; [done|].
    erewrite sent_since_app; [|cbn; reflexivity].
    cbn [fmap list_fmap]. by rewrite query_token_first.
  - apply Forall_cons in Hgood as [[Hdec1 Hp1] Hgood]. cbn in Hdec1, Hp1.
    cbn in Hnet. destruct (next_reply_cons _ _ _ Hnet) as [-> ->].
    unfold page_reply at 1. cbn [StatusCode Body]. rewrite Hdec1.
    change (negb (StatusOK =? StatusOK)) with false. cbv iota. cbn [net set_net].
    replace (S (length ((page_reply <$> bps.*1) ++ page_reply b :: rest)))
      with (length bps + S (S (length rest)))%nat
      by (rewrite length_app, !length_fmap; cbn; lia).
    edestruct (fetch_for_prefix client sid (page_reply b :: rest) bps (S (S (length rest))))
      as (w1 & tok1 & new & -> & Ht1 & Hn & Hf & Hs & Hc); [exact Hp1|done|reflexivity|].
    rewrite fetch_for_step, decide_False, PageURL_step by done. cbn zeta.
    destruct (next_reply_cons _ _ _ Hn) as [-> ->].
    unfold page_reply at 1. cbn [StatusCode Body]. rewrite Hdec.
    change (negb (StatusOK =? StatusOK)) with false. cbv iota.
    rewrite fetch_for_step, decide_True by done.
    eexists. split.
    { f_equal. f_equal. cbn. rewrite fmap_app, concat_app. cbn.
      by rewrite app_nil_r, <- app_assoc. }
    cbn. split; [done|]. split; [done|].
    cbn in Hs.
    rewrite (sent_since_app _ _ (first_page_request sid :: new ++ [next_page_request sid tok1]))
      by (cbn; rewrite Hs, <- !app_assoc; reflexivity).
    rewrite fmap_cons, fmap_app. cbn [fmap list_fmap].
    by rewrite query_token_next, Hc, query_token_first.
Qed.


Lemma SearchMediaItems_always gp l w :
  ∃ items err w' m',
    Search.SearchMediaItems gp (Some l) w = Done (items, err) w'
    ∧ (is_Some err → items = [])
    ∧ heap w' !! l = Some m'
    ∧ m' !! "pageSize" = Some (VInt 100)
    ∧ (∀ k, k ≠ "pageSize" → k ≠ "pageToken" →
            m' !! k = default ∅ (heap w !! l) !! k)
    ∧ (∃ new, sent w' = sent w ++ new ∧
              Forall (λ r, carried_size r = Some (VInt 100)) new)
    ∧ files w' = files w.
Proof.
  rewrite SearchMediaItems_unfold.
  destruct (Search_for_always gp l (S (length (net w))) [] "" w)
    as (items & err & w' & m' & Hrun & ? & ? & ? & ? & ? & ? & _); [lia|].
  exists items, err, w', m'. done.
Qed.

Lemma SearchMediaItems_fails gp l w
    (bps : list (BodyT * Search.MediaItemsResponse)) rest :
  marshals (default ∅ (heap w !! l)) = true →
  Forall (λ bp, json_Decode bp.1 = inr bp.2 ∧ Search.NextPageToken bp.2 ≠ "") bps →
  net w = (page_reply <$> bps.*1) ++ rest →
  bad_reply Search.MediaItemsResponse (reply_after rest) →
  ∃ err w', Search.SearchMediaItems gp (Some l) w = Done ([], Some err) w'.
Proof.
  intros Hm Hgood Hnet Hbad.
  rewrite SearchMediaItems_unfold.
  replace (S (length (net w))) with (length bps + S (length rest))%nat
    by (rewrite Hnet, length_app, !length_fmap; lia).
  destruct (Search_for_prefix gp l rest bps (S (length rest)) [] "" w)
    as (w1 & tok1 & new & -> & Hn & Hf & Hm1 & Hs & Hc); [done..|].
  rewrite Search_step. cbn zeta.
  rewrite (marshals_search_payload _ tok1 Hm1).
  unfold next_reply. rewrite Hn.
  destruct (reply_after rest) as [err|resp]; [eauto|].
  destruct (Z.eqb_spec (StatusCode resp) StatusOK) as [Hok|Hne]; cbn [negb]; [|eauto].
  destruct Hbad as [|[err ->]]; [done|eauto].
Qed.

Lemma fetchSelectedMediaItems_fails client sid w
    (bps : list (BodyT * Picker.MediaItemsList)) rest :
  Forall (λ bp, json_Decode bp.1 = inr bp.2 ∧ Picker.NextPageToken bp.2 ≠ "") bps →
  net w = (page_reply <$> bps.*1) ++ rest →
  bad_reply Picker.MediaItemsList (reply_after rest) →
  ∃ err w', Picker.fetchSelectedMediaItems client sid w
              = Done (Picker.DownloadableMediaItems_zero, Some err) w'.
Proof.
  intros Hgood Hnet Hbad.
  rewrite fetchSelectedMediaItems_unfold.
  destruct bps as [|[b1 p1] bps].
  - cbn in Hnet.
    destruct (FirstPage_always client sid w) as (page & err & -> & Herr & Hok).
    destruct err as [err|]; [eauto|].
    destruct (Hok eq_refl) as (resp & Hr & Hst & Hd).
    unfold next_reply in Hr. rewrite Hnet in Hr. rewrite Hr in Hbad.
    destruct Hbad as [|[err Herr']]; [done|]. congruence.
  - apply Forall_cons in Hgood as [[Hdec1 Hp1] Hgood]. cbn in Hdec1, Hp1.
    rewrite FirstPage_step. cbn zeta.
    cbn in Hnet. destruct (next_reply_cons _ _ _ Hnet) as [-> ->].
    unfold page_reply at 1. cbn [StatusCode Body]. rewrite Hdec1.
    change (negb (StatusOK =? StatusOK)) with false. cbv iota. cbn [net set_net].
    replace (S (length ((page_reply <$> bps.*1) ++ rest)))
      with (length bps + S (length rest))%nat
      by (rewrite length_app, !length_fmap; lia).
    edestruct (fetch_for_prefix client sid rest bps (S (length rest)))
      as (w1 & tok1 & new & -> & Ht1 & Hn & Hf & Hs & Hc); [exact Hp1|done|reflexivity|].
    rewrite fetch_for_step, decide_False by done.
    destruct (PageURL_always client sid tok1 w1) as (page & err & -> & Herr & Hok).
    destruct err as [err|]; [eauto|].
    destruct (Hok eq_refl) as (resp & Hr & Hst & Hd).
    unfold next_reply in Hr. rewrite Hn in Hr. rewrite Hr in Hbad.
    destruct Hbad as [|[err Herr']]; [done|]. congruence.
Qed.

(** C7. Whenever a pagination function returns an error it returns no media
    items next to it.  And it does return an error as soon as a page request
    fails: after any number of pages that were served well, a transport
    error, a status other than 200 or an undecodable body makes
    [SearchMediaItems] return the nil slice and [fetchSelectedMediaItems] the
    zero [DownloadableMediaItems], each with an error; the items of the
    earlier pages are gone. *)
Theorem pagination_error_returns_no_items gp filterPayload l client sid w
    (spages : list (BodyT * Search.MediaItemsResponse))
    (ppages : list (BodyT * Picker.MediaItemsList)) rest :
  (∀ items err w',
      Search.SearchMediaItems gp filterPayload w = Done (items, Some err) w' → items = [])
  ∧ (∀ items err w',
      Picker.fetchSelectedMediaItems client sid w = Done (items, Some err) w' →
      items = Picker.DownloadableMediaItems_zero)
  ∧ (marshals (default ∅ (heap w !! l)) = true →
     Forall (λ bp, json_Decode bp.1 = inr bp.2 ∧ Search.NextPageToken bp.2 ≠ "") spages →
     net w = (page_reply <$> spages.*1) ++ rest →
     bad_reply Search.MediaItemsResponse (reply_after rest) →
     ∃ err w', Search.SearchMediaItems gp (Some l) w = Done ([], Some err) w')
  ∧ (Forall (λ bp, json_Decode bp.1 = inr bp.2 ∧ Picker.NextPageToken bp.2 ≠ "") ppages →
     net w = (page_reply <$> ppages.*1) ++ rest →
     bad_reply Picker.MediaItemsList (reply_after rest) →
     ∃ err w', Picker.fetchSelectedMediaItems client sid w
                 = Done (Picker.DownloadableMediaItems_zero, Some err) w').
Proof.
  split; [|split; [|split]].
  - intros items err w' Hrun. destruct filterPayload as [l'|].
    + destruct (SearchMediaItems_always gp l' w) as (i & e & w1 & m' & Hr & Hi & _).
      rewrite Hr in Hrun. simplify_eq. apply Hi. eauto.
    + rewrite SearchMediaItems_unfold, Search_for_nil_map in Hrun. discriminate.
  - intros items err w' Hrun.
    destruct (fetchSelectedMediaItems_always client sid w) as (i & e & w1 & Hr & Hi & _).
    rewrite Hr in Hrun. simplify_eq. apply Hi. eauto.
  - apply SearchMediaItems_fails.
  - apply fetchSelectedMediaItems_fails.
Qed.

(** C10. Every page request asks for 100 items: whatever the world and the
    filter map, each request sent by [SearchMediaItems] has ["pageSize"] 100
    in its payload, each of the two picker page fetchers sends exactly one
    request whose query has [pageSize=100], and so has each request sent by
    [fetchSelectedMediaItems]. *)
Theorem page_requests_ask_for_100 gp filterPayload client sid tok w :
  Forall (λ r, carried_size r = Some (VInt 100))
         (sent_since w (world_of (Search.SearchMediaItems gp filterPayload w)))
  ∧ (∃ r, sent_since w (world_of (Picker.getMediaItemsFromFirstPage client sid w)) = [r]
          ∧ query_size r = Some ["100"])
  ∧ (∃ r, sent_since w (world_of (Picker.getMediaItemsFromPageURL client sid tok w)) = [r]
          ∧ query_size r = Some ["100"])
  ∧ Forall (λ r, query_size r = Some ["100"])
           (sent_since w (world_of (Picker.fetchSelectedMediaItems client sid w))).
Proof.
  split; [|split; [|split]].
  - destruct filterPayload as [l|].
    + destruct (SearchMediaItems_always gp l w)
        as (i & e & w1 & m' & -> & _ & _ & _ & _ & (new & Hs & Hn) & _).
      cbn. by rewrite (sent_since_app _ _ _ Hs).
    + rewrite SearchMediaItems_unfold, Search_for_nil_map. cbn.
      rewrite (sent_since_app w w []) by (by rewrite app_nil_r). constructor.
  - destruct (FirstPage_always client sid w) as (page & err & -> & _).
    exists (first_page_request sid). split; [|apply query_size_first].
    by apply sent_since_app.
  - destruct (PageURL_always client sid tok w) as (page & err & -> & _).
    exists (next_page_request sid tok). split; [|apply query_size_next].
    by apply sent_since_app.
  - destruct (fetchSelectedMediaItems_always client sid w)
      as (i & e & w1 & -> & _ & (new & Hs & Hn) & _).
    cbn. by rewrite (sent_since_app _ _ _ Hs).
Qed.

End PaginationClaims.

Section LoopFacts.
Context `{GoLib}.
Implicit Types (folder : string) (client : HttpClient) (w : World).

(** The footprint of a download whose existence check says not-exist. *)
Lemma Download_footprint {I} `{Downloadable I} (item : I) folder client w :
  stat_not_exist w (target folder item) →
  ∃ r w1, DownloadMediaItem item folder client w = Done r w1
          ∧ sent w1 = sent w ++ [download_request item]
          ∧ lookup_fault w1 = lookup_fault w
          ∧ ∀ path, path ≠ target folder item → files w1 !! path = files w !! path.
Proof.
  intros Hs. rewrite (Download_fetch _ _ _ _ Hs). cbn zeta.
  repeat case_match; do 2 eexists; (split; [reflexivity|]); cbn;
    (split; [done|]); (split; [done|]); intros path Hp;
    by rewrite ?lookup_insert_ne.
Qed.

Lemma Search_main_range_cons item rest folder client w :
  Search.main_range (item :: rest) folder client w =
    match DownloadMediaItem item folder client w with
    | Done (Some err) w1 =>
        Search.main_range rest folder client
          (set_stdout (stdout w1 ++ [error_line (Search.Filename item) err]) w1)
    | Done None w1 => Search.main_range rest folder client w1
    | Halt s w1 => Halt s w1
    end.
Proof.
  cbn [Search.main_range]. unmonad.
  destruct (DownloadMediaItem item folder client w) as [[err|] w1|]; reflexivity.
Qed.

Lemma Picker_downloadItems_range_cons item rest folder client w :
  Picker.downloadItems_range client (item :: rest) folder w =
    match DownloadMediaItem (Picker.MediaFile' item) folder client w with
    | Done (Some err) w1 =>
        Picker.downloadItems_range client rest folder
          (set_stdout (stdout w1 ++
             [error_line (Picker.Filename (Picker.MediaFile' item)) err]) w1)
    | Done None w1 => Picker.downloadItems_range client rest folder w1
    | Halt s w1 => Halt s w1
    end.
Proof.
  cbn [Picker.downloadItems_range]. unmonad.
  destruct (DownloadMediaItem (Picker.MediaFile' item) folder client w) as [[err|] w1|];
    reflexivity.
Qed.

Lemma Search_main_range_all folder client : ∀ items w,
  (∀ item, item ∈ items → stat_not_exist w (target folder item)) →
  NoDup (target folder <$> items) →
  ∃ w', Search.main_range items folder client w = Done () w'
        ∧ sent w' = sent w ++ (download_request <$> items).
Proof.
  induction items as [|item rest IH]; intros w Hstat Hnd.
  - exists w. split; [done|]. by rewrite app_nil_r.
  - rewrite Search_main_range_cons.
    destruct (Download_footprint item folder client w) as (r & w1 & -> & Hs & Hl & Hf).
    { apply Hstat. left. }
    apply NoDup_cons in Hnd as [Hnotin Hnd].
    assert (∀ w2, sent w2 = sent w1 → lookup_fault w2 = lookup_fault w1 →
                  files w2 = files w1 →
                  ∃ w', Search.main_range rest folder client w2 = Done () w'
                        ∧ sent w' = sent w ++ (download_request <$> item :: rest)) as Hrest.
    { intros w2 Hs2 Hl2 Hf2. destruct (IH w2) as (w' & Hrun & Hs'); [|done|].
      - intros it Hit. apply (stat_not_exist_frame w); [congruence| |apply Hstat; by right].
        rewrite Hf2. apply Hf. intros Heq. apply Hnotin. rewrite <- Heq.
        apply list_elem_of_fmap. eauto.
      - exists w'. split; [done|]. rewrite Hs', Hs2, Hs, <- app_assoc. done. }
    destruct r as [err|]; apply Hrest; done.
Qed.

Lemma Picker_downloadItems_range_all folder client : ∀ items w,
  (∀ item, item ∈ items → stat_not_exist w (target folder (Picker.MediaFile' item))) →
  NoDup (target folder ∘ Picker.MediaFile' <$> items) →
  ∃ w', Picker.downloadItems_range client items folder w = Done () w'
        ∧ sent w' = sent w ++ (download_request ∘ Picker.MediaFile' <$> items).
Proof.
  induction items as [|item rest IH]; intros w Hstat Hnd.
  - exists w. split; [done|]. by rewrite app_nil_r.
  - rewrite Picker_downloadItems_range_cons.
    destruct (Download_footprint (Picker.MediaFile' item) folder client w)
      as (r & w1 & -> & Hs & Hl & Hf).
    { apply Hstat. left. }
    apply NoDup_cons in Hnd as [Hnotin Hnd].
    assert (∀ w2, sent w2 = sent w1 → lookup_fault w2 = lookup_fault w1 →
                  files w2 = files w1 →
                  ∃ w', Picker.downloadItems_range client rest folder w2 = Done () w'
                        ∧ sent w' = sent w ++
                            (download_request ∘ Picker.MediaFile' <$> item :: rest)) as Hrest.
    { intros w2 Hs2 Hl2 Hf2. destruct (IH w2) as (w' & Hrun & Hs'); [|done|].
      - intros it Hit. apply (stat_not_exist_frame w); [congruence| |apply Hstat; by right].
        rewrite Hf2. apply Hf. intros Heq. apply Hnotin.
        change ((target folder ∘ Picker.MediaFile') item
                ∈ target folder ∘ Picker.MediaFile' <$> rest).
        unfold compose at 1. rewrite <- Heq.
        apply (list_elem_of_fmap_2 (target folder ∘ Picker.MediaFile')), Hit.
      - exists w'. split; [done|]. rewrite Hs', Hs2, Hs, <- app_assoc. done. }
    destruct r as [err|]; apply Hrest; done.
Qed.

(** C4, as the code has it.  A failed download is reported and the loop goes
    on: when [DownloadMediaItem] returns an error for the item at the head,
    the line ["Error downloading %s: %v"] is printed and the remaining items
    are processed from the world the failure left.  In particular, when none
    of the target files exists at the start and the targets are pairwise
    distinct, the loop returns after sending one download request per media
    item, in list order, whichever of the downloads fail.  This holds for
    the [range] loop of [main] (variant B) and for [downloadItems]
    (variant A). *)
Theorem download_loop_reports_and_continues folder client
    (sitems : list Search.MediaItem) (pitems : Picker.DownloadableMediaItems) w :
  (∀ item rest e w1,
      DownloadMediaItem item folder client w = Done (Some e) w1 →
      Search.main_range (item :: rest) folder client w =
      Search.main_range rest folder client
        (set_stdout (stdout w1 ++ [error_line (Search.Filename item) e]) w1))
  ∧ (∀ item rest e w1,
      DownloadMediaItem (Picker.MediaFile' item) folder client w = Done (Some e) w1 →
      Picker.downloadItems client (Picker.mkDownloadableMediaItems (item :: rest)) folder w =
      Picker.downloadItems client (Picker.mkDownloadableMediaItems rest) folder
        (set_stdout (stdout w1 ++
           [error_line (Picker.Filename (Picker.MediaFile' item)) e]) w1))
  ∧ ((∀ item, item ∈ sitems → stat_not_exist w (target folder item)) →
     NoDup (target folder <$> sitems) →
     ∃ w', Search.main_range sitems folder client w = Done () w'
           ∧ sent_since w w' = download_request <$> sitems)
  ∧ ((∀ item, item ∈ Picker.MediaItems' pitems →
              stat_not_exist w (target folder (Picker.MediaFile' item))) →
     NoDup (target folder ∘ Picker.MediaFile' <$> Picker.MediaItems' pitems) →
     ∃ w', Picker.downloadItems client pitems folder w = Done () w'
           ∧ sent_since w w'
             = download_request ∘ Picker.MediaFile' <$> Picker.MediaItems' pitems).
Proof.
  split; [|split; [|split]].
  - intros item rest e w1 Hrun. by rewrite Search_main_range_cons, Hrun.
  - intros item rest e w1 Hrun. unfold Picker.downloadItems. cbn [Picker.MediaItems'].
    by rewrite Picker_downloadItems_range_cons, Hrun.
  - intros Hstat Hnd.
    destruct (Search_main_range_all folder client sitems w Hstat Hnd) as (w' & Hrun & Hs).
    exists w'. split; [done|]. by apply sent_since_app.
  - intros Hstat Hnd. unfold Picker.downloadItems.
    destruct (Picker_downloadItems_range_all folder client _ w Hstat Hnd)
      as (w' & Hrun & Hs).
    exists w'. split; [done|]. by apply sent_since_app.
Qed.
End LoopFacts.

Section AuthFacts.
Context `{GoLib} `{JSONDecode Token} `{JSONEncode Token}.
Variable variant : Variant.
Implicit Types (config : Config) (w : World).

Lemma tokenFromFile_token_file w :
  tokenFromFile "token.json" w =
    Done (match token_file w with
          | Unreadable err => (None, Some err)
          | Undecodable err => (Some (mkToken "" "" 0), Some err)
          | Stored tok => (Some tok, None)
          end) w.
Proof.
  unfold tokenFromFile, token_file, os_Open. unmonad.
  destruct (lookup_fault w "token.json"); [reflexivity|].
  destruct (files w !! "token.json"); [|reflexivity].
  destruct (json_Decode _); reflexivity.
Qed.

(** One web authorization followed by saving the token. *)
Lemma getNewTokenAndSave_run config w :
  "/" ∉ mux w →
  let r := getNewTokenAndSave variant config "token.json" w in
  mux (world_of r) = mux w ++ ["/"]
  ∧ ∀ tok err w', r = Done (tok, err) w' →
      err = None ∧
      ∃ cb t, head (browser w) = Some cb ∧ exchanged cb = inr t ∧ tok = Some t
              ∧ files w' = <["token.json" := json_Encode t]> (files w)
              ∧ now w' = now w + elapsed cb.
Proof.
  intros Hmux. unfold getNewTokenAndSave, getTokenFromWeb, saveToken. unmonad.
  unfold http_HandleFunc. rewrite decide_False by done. cbn.
  unfold recv_authCodeChannel. cbn.
  destruct (browser w) as [|cb rest]; cbn; [done|].
  destruct (exchanged cb) as [err|t] eqn:Hex; cbn; [done|].
  destruct variant; cbn; unfold os_Create; cbn;
    destruct (lookup_fault w "token.json"); cbn; try done;
    destruct (create_fault w "token.json"); cbn; try done;
    (split; [done|]); intros tok err w' [= <- <- <-]; (split; [done|]);
    exists cb, t; cbn; rewrite lookup_insert_eq, insert_insert_eq; done.
Qed.

Lemma getNewTokenAndSave_again config w :
  "/" ∈ mux w →
  getNewTokenAndSave variant config "token.json" w
    = Halt (Panic "http: multiple registrations") w.
Proof.
  intros Hmux. unfold getNewTokenAndSave, getTokenFromWeb. unmonad.
  unfold http_HandleFunc. by rewrite decide_True.
Qed.

Lemma getClient_unfold config w :
  getClient variant config w =
    match token_file w with
    | Stored tok =>
        if Expiry tok <? now w then
          match getNewTokenAndSave variant config "token.json" w with
          | Done (Some t, None) w1 => Done (mkClient t, t) w1
          | Done (None, None) w1 =>
              Halt (Panic "invalid memory address or nil pointer dereference") w1
          | Done (_, Some err) w1 => Halt (Fatal "Unable to retrieve token: %v" [AErr err]) w1
          | Halt s w1 => Halt s w1
          end
        else Done (mkClient tok, tok) w
    | _ =>
        match getNewTokenAndSave variant config "token.json" w with
        | Done (Some t1, None) w1 =>
            if Expiry t1 <? now w1 then
              match getNewTokenAndSave variant config "token.json" w1 with
              | Done (Some t, None) w2 => Done (mkClient t, t) w2
              | Done (None, None) w2 =>
                  Halt (Panic "invalid memory address or nil pointer dereference") w2
              | Done (_, Some err) w2 =>
                  Halt (Fatal "Unable to retrieve token: %v" [AErr err]) w2
              | Halt s w2 => Halt s w2
              end
            else Done (mkClient t1, t1) w1
        | Done (None, None) w1 =>
            Halt (Panic "invalid memory address or nil pointer dereference") w1
        | Done (_, Some err) w1 => Halt (Fatal "Unable to retrieve token: %v" [AErr err]) w1
        | Halt s w1 => Halt s w1
        end
    end.
Proof.
  unfold getClient. unmonad. rewrite tokenFromFile_token_file.
  destruct (token_file w) as [err|err|tok]; cbn.
  - destruct (getNewTokenAndSave variant config "token.json" w) as [[[t1|] [e|]] w1|];
      cbn; try reflexivity.
    unfold time_Now. destruct (Expiry t1 <? now w1); [|reflexivity].
    destruct (getNewTokenAndSave variant config "token.json" w1) as [[[t2|] [e|]] w2|];
      reflexivity.
  - destruct (getNewTokenAndSave variant config "token.json" w) as [[[t1|] [e|]] w1|];
      cbn; try reflexivity.
    unfold time_Now. destruct (Expiry t1 <? now w1); [|reflexivity].
    destruct (getNewTokenAndSave variant config "token.json" w1) as [[[t2|] [e|]] w2|];
      reflexivity.
  - unfold time_Now. destruct (Expiry tok <? now w); [|reflexivity].
    destruct (getNewTokenAndSave variant config "token.json" w) as [[[t2|] [e|]] w2|];
      reflexivity.
Qed.

Lemma snoc_ne {A} (l : list A) x : l ++ [x] ≠ l.
Proof. intros Heq. apply (f_equal length) in Heq. rewrite length_app in Heq. cbn in Heq. lia. Qed.

(** A first authorization started from an unusable or expired token file. *)
Lemma getClient_after_flow config w :
  "/" ∉ mux w →
  must_authorize w →
  let r := getClient variant config w in
  web_flow_ran w (world_of r)
  ∧ ∀ c tok w', r = Done (c, tok) w' →
      c = mkClient tok
      ∧ files w' = <["token.json" := json_Encode tok]> (files w)
      ∧ ∃ cb, head (browser w) = Some cb ∧ exchanged cb = inr tok.
Proof.
  intros Hmux Hmust. cbn zeta. rewrite getClient_unfold.
  destruct (getNewTokenAndSave_run config w Hmux) as [Hm1 Hd1].
  unfold web_flow_ran, must_authorize in *.
  assert (∀ w1, mux w1 = mux w ++ ["/"] → "/" ∈ mux w1) as Hin.
  { intros w1 ->. apply elem_of_app. right. by left. }
  destruct (token_file w) as [err|err|tok].
  - destruct (getNewTokenAndSave variant config "token.json" w)
      as [[[t1|] [e|]] w1|] eqn:Hr1; cbn in Hm1 |- *;
      try (split; [rewrite Hm1; apply snoc_ne|done]).
    destruct (Expiry t1 <? now w1).
    + rewrite getNewTokenAndSave_again by auto. cbn.
      split; [rewrite Hm1; apply snoc_ne|done].
    + cbn. split; [rewrite Hm1; apply snoc_ne|].
      intros c tok w' [= <- <- <-].
      destruct (Hd1 _ _ _ eq_refl) as (_ & cb & t & Hb & He & [= <-] & Hf & _). eauto.
  - destruct (getNewTokenAndSave variant config "token.json" w)
      as [[[t1|] [e|]] w1|] eqn:Hr1; cbn in Hm1 |- *;
      try (split; [rewrite Hm1; apply snoc_ne|done]).
    destruct (Expiry t1 <? now w1).
    + rewrite getNewTokenAndSave_again by auto. cbn.
      split; [rewrite Hm1; apply snoc_ne|done].
    + cbn. split; [rewrite Hm1; apply snoc_ne|].
      intros c tok w' [= <- <- <-].
      destruct (Hd1 _ _ _ eq_refl) as (_ & cb & t & Hb & He & [= <-] & Hf & _). eauto.
  - destruct (Z.ltb_spec (Expiry tok) (now w)); [|lia].
    destruct (getNewTokenAndSave variant config "token.json" w)
      as [[[t1|] [e|]] w1|] eqn:Hr1; cbn in Hm1 |- *;
      try (split; [rewrite Hm1; apply snoc_ne|done]).
    split; [rewrite Hm1; apply snoc_ne|].
    intros c tok' w' [= <- <- <-].
    destruct (Hd1 _ _ _ eq_refl) as (_ & cb & t & Hb & He & [= <-] & Hf & _). eauto.
Qed.

(** C5. Started before any handler is registered, [getClient] runs the web
    authorization flow if and only if the token file cannot be read or
    decoded or the stored token expired before the current time.  In every
    other case it returns the stored token, with a client built on it, and
    leaves the world (the token file included) untouched.  When it does
    authorize and returns, the token it returns is the one obtained from the
    exchange, and the token file holds exactly its encoding. *)
Theorem getClient_authorizes_iff_needed config w :
  "/" ∉ mux w →
  let r := getClient variant config w in
  (web_flow_ran w (world_of r) ↔ must_authorize w)
  ∧ (¬ must_authorize w →
     ∃ tok, token_file w = Stored tok ∧ r = Done (mkClient tok, tok) w)
  ∧ (must_authorize w →
     ∀ c tok w', r = Done (c, tok) w' →
       c = mkClient tok
       ∧ files w' = <["token.json" := json_Encode tok]> (files w)
       ∧ ∃ cb, head (browser w) = Some cb ∧ exchanged cb = inr tok).
Proof.
  intros Hmux. cbn zeta.
  assert (¬ must_authorize w →
          ∃ tok, token_file w = Stored tok
                 ∧ getClient variant config w = Done (mkClient tok, tok) w) as Hkeep.
  { intros Hno. rewrite getClient_unfold. unfold must_authorize in Hno.
    destruct (token_file w) as [err|err|tok]; [done|done|].
    exists tok. split; [done|].
    destruct (Z.ltb_spec (Expiry tok) (now w)); [done|reflexivity]. }
  split; [|split; [done|]].
  - split.
    + intros Hran. destruct (decide (must_authorize w)) as [|Hno]; [done|].
      destruct (Hkeep Hno) as (tok & _ & Hrun). rewrite Hrun in Hran. by destruct Hran.
    + intros Hmust. by apply getClient_after_flow.
  - intros Hmust. by apply getClient_after_flow.
Qed.
End AuthFacts.

Section WaitClaims.
Context `{GoLib} `{JSONDecode Picker.PickingSession} `{JSONDecode Picker.MediaItemsList}.
Implicit Types (client : HttpClient) (session : Picker.PickingSession) (w : World).

Lemma poll_step client sid w :
  Picker.pollForCompleteSession client sid w =
    Done (match next_reply w with
          | Fail err => (false, Some (Errorf "failed to check session: %v" [AErr err]))
          | Answer resp =>
              if negb (StatusCode resp =? StatusOK)
              then (false, Some (Errorf "failed to check session: status %d"
                                        [AInt (StatusCode resp)]))
              else
                match json_Decode (Body resp) with
                | inl err =>
                    (false, Some (Errorf "failed to decode session response: %v" [AErr err]))
                | inr s => (Picker.MediaItemsSet s, None)
                end
          end)
         (set_net (tail (net w)) (sent w ++ [poll_request sid]) w).
Proof.
  unfold Picker.pollForCompleteSession. unmonad. unfold client_Get.
  rewrite client_Do_next. cbn.
  destruct (next_reply w) as [err|resp]; [reflexivity|].
  destruct (negb (StatusCode resp =? StatusOK)); [reflexivity|].
  destruct (json_Decode (Body resp)); reflexivity.
Qed.

Lemma poll_session_reply client sid w set r rest :
  net w = r :: rest →
  session_reply set r →
  Picker.pollForCompleteSession client sid w =
    Done (set, None) (set_net rest (sent w ++ [poll_request sid]) w).
Proof.
  intros Hnet (resp & s & -> & Hst & Hd & Hset).
  rewrite poll_step. destruct (next_reply_cons _ _ _ Hnet) as [-> ->].
  rewrite Hst, Hd, Hset. reflexivity.
Qed.

(** One iteration of the loop of [waitForSessionComplete]. *)
Lemma wait_for_step fuel client session timeout w :
  Picker.waitForSessionComplete_for (S fuel) client session timeout w =
    match sched w with
    | [] => Halt Blocked w
    | TimerFired :: later =>
        Done (Picker.DownloadableMediaItems_zero,
              Some (Errorf "session timed out after %v" [ADur timeout])) (set_sched later w)
    | TickFired :: later =>
        match Picker.pollForCompleteSession client (Picker.ID session) (set_sched later w) with
        | Done (_, Some err) w1 =>
            Done (Picker.DownloadableMediaItems_zero,
                  Some (Errorf "polling failed: %v" [AErr err])) w1
        | Done (true, None) w1 =>
            match Picker.fetchSelectedMediaItems client (Picker.ID session) w1 with
            | Done (_, Some err) w2 =>
                Done (Picker.DownloadableMediaItems_zero,
                      Some (Errorf "failed to fetch selected media items: %v" [AErr err])) w2
            | Done (mediaItems, None) w2 => Done (mediaItems, None) w2
            | Halt s w2 => Halt s w2
            end
        | Done (false, None) w1 =>
            Picker.waitForSessionComplete_for fuel client session timeout w1
        | Halt s w1 => Halt s w1
        end
    end.
Proof.
  cbn [Picker.waitForSessionComplete_for]. unmonad. unfold select_timer_ticker.
  destruct (sched w) as [|[|] later]; [reflexivity..|].
  destruct (Picker.pollForCompleteSession _ _ _) as [[[|] [err|]] w1|]; try reflexivity.
  destruct (Picker.fetchSelectedMediaItems _ _ _) as [[items [err|]] w2|]; reflexivity.
Qed.

(** Ticks whose polls all report that the selection is still pending. *)
Lemma wait_for_pending client session timeout later rest :
  ∀ (pending : list Reply) fuel w,
  Forall (session_reply false) pending →
  sched w = replicate (length pending) TickFired ++ later →
  net w = pending ++ rest →
  ∃ w1,
    Picker.waitForSessionComplete_for (length pending + fuel) client session timeout w
      = Picker.waitForSessionComplete_for fuel client session timeout w1
    ∧ sent w1 = sent w ++ replicate (length pending) (poll_request (Picker.ID session))
    ∧ sched w1 = later ∧ net w1 = rest
    ∧ files w1 = files w ∧ clocks w1 = clocks w.
Proof.
  induction pending as [|r pending IH]; intros fuel w Hp Hsched Hnet.
  - exists w. cbn. by rewrite app_nil_r.
  - apply Forall_cons in Hp as [Hr Hp].
    cbn [length plus]. rewrite wait_for_step. cbn in Hsched, Hnet. rewrite Hsched.
    erewrite poll_session_reply; [|cbn; exact Hnet|exact Hr].
    edestruct (IH fuel) as (w1 & -> & Hs & Hsc & Hn & Hf & Hc); [done|reflexivity|reflexivity|].
    exists w1. cbn in Hs. split; [done|]. split; [|done].
    rewrite Hs, <- app_assoc. done.
Qed.

Lemma waitForSessionComplete_unfold client session interval timeout w :
  Picker.parseDuration (Picker.PollInterval (Picker.PollingConfig' session)) = inr interval →
  Picker.parseDuration (Picker.TimeoutIn (Picker.PollingConfig' session)) = inr timeout →
  0 < interval →
  Picker.waitForSessionComplete client session w =
    Picker.waitForSessionComplete_for (S (length (sched w))) client session timeout
      (set_clocks (clocks w ++ [Timer timeout; Ticker interval]) w).
Proof.
  intros Hi Ht Hpos. unfold Picker.waitForSessionComplete. rewrite Hi, Ht. unmonad.
  unfold time_NewTimer, time_NewTicker. cbn.
  rewrite decide_False by lia. cbn. by rewrite <- app_assoc.
Qed.

Lemma replicate_S_app {A} n (x : A) l :
  replicate (S n) x ++ l = replicate n x ++ x :: l.
Proof. induction n as [|n IH]; [done|]. cbn in *. by rewrite IH. Qed.

(** C3. [waitForSessionComplete] creates the timer with the timeout and the
    ticker with the poll interval the server specified, and polls the
    session once for every tick.  As long as the polls report that the media
    items are not set it goes on.  When the timer fires first it returns the
    timeout error and no items, having sent the polls and nothing else.  The
    first time a poll reports that the media items are set it runs
    [fetchSelectedMediaItems] and returns what that returns: the paginated
    list, or no items and the error wrapped.  In both cases the loop is over:
    whatever the schedule holds after the deciding event is left
    unconsumed. *)
Theorem waitForSessionComplete_polls_until_set_or_timeout
    client session interval timeout (pending : list Reply) w :
  Picker.parseDuration (Picker.PollInterval (Picker.PollingConfig' session)) = inr interval →
  Picker.parseDuration (Picker.TimeoutIn (Picker.PollingConfig' session)) = inr timeout →
  0 < interval →
  Forall (session_reply false) pending →
  (∀ later rest,
      sched w = replicate (length pending) TickFired ++ TimerFired :: later →
      net w = pending ++ rest →
      ∃ w', Picker.waitForSessionComplete client session w
              = Done (Picker.DownloadableMediaItems_zero,
                      Some (Errorf "session timed out after %v" [ADur timeout])) w'
            ∧ sent_since w w' = replicate (length pending) (poll_request (Picker.ID session))
            ∧ sched w' = later ∧ net w' = rest
            ∧ clocks w' = clocks w ++ [Timer timeout; Ticker interval])
  ∧ (∀ set later rest,
      session_reply true set →
      sched w = replicate (S (length pending)) TickFired ++ later →
      net w = pending ++ set :: rest →
      ∃ w1 items err w',
        sent_since w w1 = replicate (S (length pending)) (poll_request (Picker.ID session))
        ∧ net w1 = rest
        ∧ clocks w1 = clocks w ++ [Timer timeout; Ticker interval]
        ∧ Picker.fetchSelectedMediaItems client (Picker.ID session) w1 = Done (items, err) w'
        ∧ Picker.waitForSessionComplete client session w
            = Done (items,
                    (λ e, Errorf "failed to fetch selected media items: %v" [AErr e]) <$> err) w'
        ∧ sched w' = later).
Proof.
  intros Hi Ht Hpos Hp. split.
  - intros later rest Hsched Hnet.
    rewrite (waitForSessionComplete_unfold _ _ _ _ _ Hi Ht Hpos).
    replace (S (length (sched w))) with (length pending + S (S (length later)))%nat
      by (rewrite Hsched, length_app, length_replicate; cbn; lia).
    edestruct (wait_for_pending client session timeout (TimerFired :: later) rest pending)
      as (w1 & -> & Hs & Hsc & Hn & Hf & Hc); [done|exact Hsched|exact Hnet|].
    rewrite wait_for_step, Hsc. eexists. split; [reflexivity|]. cbn.
    split; [by apply sent_since_app|]. done.
  - intros set later rest Hset Hsched Hnet.
    rewrite (waitForSessionComplete_unfold _ _ _ _ _ Hi Ht Hpos).
    replace (S (length (sched w))) with (length pending + S (S (length later)))%nat
      by (rewrite Hsched, length_app, length_replicate; cbn; lia).
    edestruct (wait_for_pending client session timeout (TickFired :: later) (set :: rest) pending)
      as (w1 & -> & Hs & Hsc & Hn & Hf & Hc).
    { done. }
    { cbn [sched set_clocks]. rewrite Hsched. apply replicate_S_app. }
    { exact Hnet. }
    rewrite wait_for_step, Hsc.
    erewrite poll_session_reply; [|cbn; exact Hn|exact Hset].
    set (w2 := set_net rest _ _).
    destruct (fetchSelectedMediaItems_always client (Picker.ID session) w2)
      as (items & err & w' & Hrun & Hz & _ & _ & Hsc').
    exists w2, items, err, w'. rewrite Hrun.
    split.
    { apply sent_since_app. subst w2. cbn. cbn in Hs. rewrite Hs, <- app_assoc.
      f_equal. symmetry. apply replicate_cons_app. }
    split; [done|]. split; [done|]. split; [done|].
    split; [|by rewrite Hsc'].
    destruct err as [err|]; [|done]. by rewrite Hz.
Qed.
End WaitClaims.

(** ** The loops never run out of fuel *)

Section Totality.
Context `{GoLib} `{JSONDecode Search.MediaItemsResponse}
        `{JSONDecode Picker.PickingSession} `{JSONDecode Picker.MediaItemsList}.

Lemma SearchMediaItems_fuel gp filterPayload w w' :
  Search.SearchMediaItems gp filterPayload w ≠ Halt OutOfFuel w'.
Proof.
  destruct filterPayload as [l|].
  - destruct (SearchMediaItems_always gp l w) as (i & e & w1 & m' & -> & _). done.
  - by rewrite SearchMediaItems_unfold, Search_for_nil_map.
Qed.

Lemma fetchSelectedMediaItems_fuel client sid w w' :
  Picker.fetchSelectedMediaItems client sid w ≠ Halt OutOfFuel w'.
Proof.
  destruct (fetchSelectedMediaItems_always client sid w) as (i & e & w1 & -> & _). done.
Qed.

Lemma wait_for_fuel client session timeout : ∀ fuel w w',
  (length (sched w) < fuel)%nat →
  Picker.waitForSessionComplete_for fuel client session timeout w ≠ Halt OutOfFuel w'.
Proof.
  induction fuel as [|fuel IH]; intros w w' Hfuel; [lia|].
  rewrite wait_for_step. destruct (sched w) as [|[|] later] eqn:Hs; [done..|].
  pose proof (poll_step client (Picker.ID session) (set_sched later w)) as Hp.
  destruct (Picker.pollForCompleteSession _ _ _) as [[[|] [err|]] w1|]; try done.
  - destruct (fetchSelectedMediaItems_always client (Picker.ID session) w1)
      as (i & e & w2 & -> & _).
    by destruct e.
  - apply IH. injection Hp as _ ->. cbn in *. lia.
Qed.

Lemma waitForSessionComplete_fuel client session w w' :
  Picker.waitForSessionComplete client session w ≠ Halt OutOfFuel w'.
Proof.
  destruct (Picker.parseDuration (Picker.PollInterval (Picker.PollingConfig' session)))
    as [err|interval] eqn:Hi.
  { unfold Picker.waitForSessionComplete. by rewrite Hi. }
  destruct (Picker.parseDuration (Picker.TimeoutIn (Picker.PollingConfig' session)))
    as [err|timeout] eqn:Ht.
  { unfold Picker.waitForSessionComplete. by rewrite Hi, Ht. }
  destruct (decide (interval ≤ 0)) as [Hle|Hpos].
  - unfold Picker.waitForSessionComplete. rewrite Hi, Ht. unmonad.
    unfold time_NewTimer, time_NewTicker. cbn -[Picker.waitForSessionComplete_for].
    by rewrite decide_True.
  - rewrite (waitForSessionComplete_unfold _ _ interval timeout) by (done || lia).
    apply wait_for_fuel. cbn. lia.
Qed.
End Totality.

(** * The statements on concrete worlds *)

Section OnConcreteWorlds.
#[local] Existing Instances Demo.lib Demo.decode_search Demo.decode_list
Demo.decode_session Demo.decode_token Demo.encode_token.

(** [DownloadMediaItem] on a disk that has the file, and on an empty disk with
  a server that answers 200. *)
Lemma DownloadMediaItem_skips_or_fetches_witness :
let w := Demo.with_net [ok [x07; x08]; Demo.not_found] Demo.world0 in
(∃ w', DownloadMediaItem Demo.itemA "photos" Demo.client Demo.world_with_a
         = Done None w'
       ∧ files w' = files Demo.world_with_a
       ∧ sent w' = sent Demo.world_with_a
       ∧ net w' = net Demo.world_with_a)
∧ (∃ w', DownloadMediaItem Demo.itemA "photos" Demo.client w = Done None w'
         ∧ files w !! target "photos" Demo.itemA = None
         ∧ files w' = <[target "photos" Demo.itemA := [x07; x08]]> (files w)
         ∧ net w' = [Demo.not_found]).
Proof.
intros w. split.
- exact (proj1 (DownloadMediaItem_skips_or_fetches
                  Demo.itemA "photos" Demo.client Demo.world_with_a) eq_refl).
- pose proof (proj2 (DownloadMediaItem_skips_or_fetches
                       Demo.itemA "photos" Demo.client w)) as Hthm.
  destruct Hthm as [_ Hthm]; [reflexivity|].
  exact (Hthm [x07; x08] [Demo.not_found] eq_refl (conj eq_refl eq_refl)).
Defined.

(** A second call after a download that succeeded, and a second call after a
    404 that meets another 404. *)
Lemma DownloadMediaItem_idempotent_witness :
  let w := Demo.with_net [ok [x07; x08]; ok [x09]] Demo.world0 in
  let w1 := world_of (DownloadMediaItem Demo.itemA "photos" Demo.client w) in
  let v := Demo.with_net [Demo.not_found; Demo.not_found] Demo.world0 in
  let v1 := world_of (DownloadMediaItem Demo.itemA "photos" Demo.client v) in
  (∃ w2, DownloadMediaItem Demo.itemA "photos" Demo.client w1 = Done None w2
         ∧ stat_finds w1 (target "photos" Demo.itemA)
         ∧ files w2 = files w1 ∧ sent w2 = sent w1 ∧ net w2 = net w1)
  ∧ files (world_of (DownloadMediaItem Demo.itemA "photos" Demo.client v1)) = files v1.
Proof.
  intros w w1 v v1. split.
  - exact (proj1 (DownloadMediaItem_idempotent Demo.itemA "photos" Demo.client w None w1
                    eq_refl) eq_refl).
  - exact (proj2 (DownloadMediaItem_idempotent Demo.itemA "photos" Demo.client v
                    (Some (Errorf "failed to download file %s, HTTP status %d"
                                  [AStr "a.jpg"; AInt 404])) v1
                    eq_refl) eq_refl).
Defined.

(** The three failures before the file is created, and a copy that breaks off. *)
Lemma DownloadMediaItem_failure_and_disk_witness :
let broken := mkResponse 200 (mkBody [x07] (Some (NetErr "reset"))) in
let w := Demo.with_net [Answer broken] Demo.world0 in
DownloadMediaItem Demo.itemA "photos" Demo.client Demo.world_denied
  = Done (Some (SysErr EACCES)) Demo.world_denied
∧ (∃ w', DownloadMediaItem Demo.itemA "photos" Demo.client
           (Demo.with_net [Fail (NetErr "timeout")] Demo.world0)
           = Done (Some (NetErr "timeout")) w'
         ∧ files w' = files (Demo.with_net [Fail (NetErr "timeout")] Demo.world0))
∧ (∃ e w', DownloadMediaItem Demo.itemA "photos" Demo.client
             (Demo.with_net [Demo.not_found] Demo.world0) = Done (Some e) w'
           ∧ files w' = files (Demo.with_net [Demo.not_found] Demo.world0))
∧ (∃ resp,
      next_reply w = Answer resp
      ∧ StatusCode resp = StatusOK
      ∧ read_err (Body resp) = Some (NetErr "reset")
      ∧ files (world_of (DownloadMediaItem Demo.itemA "photos" Demo.client w))
        = <[target "photos" Demo.itemA := data (Body resp)]> (files w)).
Proof.
intros broken w. split; [|split; [|split]].
- exact (proj1 (DownloadMediaItem_failure_and_disk
                  Demo.itemA "photos" Demo.client Demo.world_denied)
           (SysErr EACCES) eq_refl eq_refl).
- exact (proj1 (proj2 (DownloadMediaItem_failure_and_disk
                  Demo.itemA "photos" Demo.client
                  (Demo.with_net [Fail (NetErr "timeout")] Demo.world0)))
           eq_refl (NetErr "timeout") eq_refl).
- refine (proj1 (proj2 (proj2 (DownloadMediaItem_failure_and_disk
                  Demo.itemA "photos" Demo.client
                  (Demo.with_net [Demo.not_found] Demo.world0))))
           eq_refl (mkResponse 404 (mkBody [] None)) eq_refl _).
  discriminate.
- refine (proj2 (proj2 (proj2 (DownloadMediaItem_failure_and_disk
                  Demo.itemA "photos" Demo.client w)))
           (NetErr "reset")
           (world_of (DownloadMediaItem Demo.itemA "photos" Demo.client w))
           eq_refl _).
  intros Heq.
  apply (f_equal (λ m : gmap string (list byte), m !! "photos/a.jpg")) in Heq.
  vm_compute in Heq. discriminate.
Defined.



(** A page of items followed by a 404: the error comes back with no items. *)
Lemma pagination_error_returns_no_items_witness :
let p1s := Search.mkMediaItemsResponse [Demo.itemA] "t" in
let p1p := Picker.mkMediaItemsList [Demo.pickedA] "t" in
let w := Demo.world_search [page_reply Demo.page1; Demo.not_found] in
(∃ err w', Search.SearchMediaItems Demo.gp (Some 1%positive) w = Done ([], Some err) w')
∧ (∃ err w', Picker.fetchSelectedMediaItems Demo.client "s1" w
               = Done (Picker.DownloadableMediaItems_zero, Some err) w').
Proof.
intros p1s p1p w.
pose proof (pagination_error_returns_no_items Demo.gp (Some 1%positive) 1%positive
              Demo.client "s1" w [(Demo.page1, p1s)] [(Demo.page1, p1p)] [Demo.not_found])
  as (_ & _ & Hs & Hp).
split.
- apply Hs; [reflexivity| |reflexivity|left; discriminate].
  repeat constructor. discriminate.
- apply Hp; [|reflexivity|left; discriminate].
  repeat constructor. discriminate.
Defined.


(** The first of two downloads fails with a 404; the second is still made. *)
Lemma download_loop_continues_after_error :
let w := Demo.with_net [Demo.not_found; ok [x07]] Demo.world0 in
let failure := Errorf "failed to download file %s, HTTP status %d" [AStr "a.jpg"; AInt 404] in
(∃ w1, DownloadMediaItem Demo.itemA "photos" Demo.client w = Done (Some failure) w1)
∧ (∃ w', Search.main_range [Demo.itemA; Demo.itemB] "photos" Demo.client w = Done () w'
         ∧ sent w' = [download_request Demo.itemA; download_request Demo.itemB]
         ∧ files w' = {[ "photos/b.jpg" := [x07] ]}
         ∧ stdout w' = [error_line "a.jpg" failure; mkLine "Downloaded: %s\n" [AStr "b.jpg"]])
∧ (∃ w', Picker.downloadItems Demo.client
           (Picker.mkDownloadableMediaItems [Demo.pickedA; Demo.pickedB]) "photos" w
           = Done () w'
         ∧ sent w' = [download_request (Picker.MediaFile' Demo.pickedA);
                      download_request (Picker.MediaFile' Demo.pickedB)]
         ∧ files w' = {[ "photos/b.jpg" := [x07] ]})
∧ ¬ stops_after_error (λ items, Search.main_range items "photos" Demo.client)
                      (λ item, DownloadMediaItem item "photos" Demo.client)
∧ ¬ stops_after_error
      (λ items, Picker.downloadItems Demo.client (Picker.mkDownloadableMediaItems items) "photos")
      (λ item, DownloadMediaItem (Picker.MediaFile' item) "photos" Demo.client).
Proof.
intros w failure.
split; [eexists; reflexivity|].
split; [eexists; repeat split|].
split; [eexists; repeat split|].
split.
- intros Hstop.
  specialize (Hstop [] Demo.itemA [Demo.itemB] w w (Errorf "failed to download file %s, HTTP status %d" [AStr "a.jpg"; AInt 404]) _ eq_refl eq_refl).
  vm_compute in Hstop. discriminate.
- intros Hstop.
  specialize (Hstop [] Demo.pickedA [Demo.pickedB] w w (Errorf "failed to download file %s, HTTP status %d" [AStr "a.jpg"; AInt 404]) _ eq_refl eq_refl).
  vm_compute in Hstop. discriminate.
Qed.

(** The same two downloads, seen through the statement about the loops. *)
Lemma download_loop_reports_and_continues_witness :
let w := Demo.with_net [Demo.not_found; ok [x07]] Demo.world0 in
let failure := Errorf "failed to download file %s, HTTP status %d" [AStr "a.jpg"; AInt 404] in
let w1 := world_of (DownloadMediaItem Demo.itemA "photos" Demo.client w) in
Search.main_range [Demo.itemA; Demo.itemB] "photos" Demo.client w
  = Search.main_range [Demo.itemB] "photos" Demo.client
      (set_stdout (stdout w1 ++ [error_line (Search.Filename Demo.itemA) failure]) w1)
∧ (∃ w', Search.main_range [Demo.itemA; Demo.itemB] "photos" Demo.client w = Done () w'
         ∧ sent_since w w' = download_request <$> [Demo.itemA; Demo.itemB])
∧ (∃ w', Picker.downloadItems Demo.client
           (Picker.mkDownloadableMediaItems [Demo.pickedA; Demo.pickedB]) "photos" w
           = Done () w'
         ∧ sent_since w w'
           = download_request ∘ Picker.MediaFile' <$> [Demo.pickedA; Demo.pickedB]).
Proof.
intros w failure w1.
destruct (download_loop_reports_and_continues "photos" Demo.client
            [Demo.itemA; Demo.itemB]
            (Picker.mkDownloadableMediaItems [Demo.pickedA; Demo.pickedB]) w)
  as (Hstep & _ & Hall & Hallp).
split; [exact (Hstep Demo.itemA [Demo.itemB] failure w1 eq_refl)|].
split.
- apply Hall.
  + intros item Hin.
    repeat (apply elem_of_cons in Hin as [->|Hin]); try reflexivity;
      try (by apply elem_of_nil in Hin).
  + by apply (bool_decide_unpack _).
- apply Hallp.
  + intros item Hin.
    repeat (apply elem_of_cons in Hin as [->|Hin]); try reflexivity;
      try (by apply elem_of_nil in Hin).
  + by apply (bool_decide_unpack _).
Defined.

(** An expired token file makes [getClient] authorize; a good one does not. *)
Lemma getClient_authorizes_iff_needed_witness :
(web_flow_ran Demo.world_expired
   (world_of (getClient SearchClient Demo.config Demo.world_expired))
 ∧ ∃ w', getClient SearchClient Demo.config Demo.world_expired
           = Done (mkClient (mkToken "new" "refresh" 200), mkToken "new" "refresh" 200) w'
         ∧ files w' = <["token.json" := json_Encode (mkToken "new" "refresh" 200)]>
                        (files Demo.world_expired))
∧ (¬ web_flow_ran Demo.world_fresh
       (world_of (getClient PickerClient Demo.config Demo.world_fresh))
   ∧ ∃ tok, token_file Demo.world_fresh = Stored tok
            ∧ getClient PickerClient Demo.config Demo.world_fresh
              = Done (mkClient tok, tok) Demo.world_fresh).
Proof.
assert (must_authorize Demo.world_expired) as Hexp by reflexivity.
assert (¬ must_authorize Demo.world_fresh) as Hfresh by (intros Hlt; discriminate Hlt).
split.
- destruct (getClient_authorizes_iff_needed SearchClient Demo.config Demo.world_expired)
    as (Hiff & _ & Hnew); [apply not_elem_of_nil|].
  split; [by apply Hiff|].
  eexists. split; [reflexivity|].
  by apply (Hnew Hexp (mkClient (mkToken "new" "refresh" 200)) (mkToken "new" "refresh" 200)).
- destruct (getClient_authorizes_iff_needed PickerClient Demo.config Demo.world_fresh)
    as (Hiff & Hkeep & _); [apply not_elem_of_nil|].
  split; [by rewrite Hiff|by apply Hkeep].
Defined.

(** Two pending polls, then the timeout; and two pending polls, then a poll
  that finds the media items set, followed by a one-page fetch. *)
Lemma waitForSessionComplete_polls_until_set_or_timeout_witness :
let wA := Demo.world_polling [TickFired; TickFired; TimerFired; TickFired]
            [Demo.pending; Demo.pending; Demo.selected] in
let wB := Demo.world_polling [TickFired; TickFired; TickFired; TimerFired]
            [Demo.pending; Demo.pending; Demo.selected; page_reply Demo.page2] in
(∃ w', Picker.waitForSessionComplete Demo.client Demo.session wA
         = Done (Picker.DownloadableMediaItems_zero,
                 Some (Errorf "session timed out after %v" [ADur 60000000000])) w'
       ∧ sent_since wA w' = replicate 2 (poll_request "s1")
       ∧ sched w' = [TickFired] ∧ net w' = [Demo.selected]
       ∧ clocks w' = [Timer 60000000000; Ticker 5000000000])
∧ (∃ w', Picker.waitForSessionComplete Demo.client Demo.session wB
           = Done (Picker.mkDownloadableMediaItems [Demo.pickedB], None) w'
         ∧ sched w' = [TimerFired]
         ∧ sent_since wB w' = replicate 3 (poll_request "s1") ++ [first_page_request "s1"]).
Proof.
intros wA wB.
assert (Forall (session_reply false) [Demo.pending; Demo.pending]) as Hpending.
{ repeat constructor; eexists _, _; repeat split; reflexivity. }
assert (session_reply true Demo.selected) as Hset.
{ eexists _, _; repeat split; reflexivity. }
assert (Picker.parseDuration (Picker.PollInterval (Picker.PollingConfig' Demo.session))
        = inr 5000000000) as Hinterval by reflexivity.
assert (Picker.parseDuration (Picker.TimeoutIn (Picker.PollingConfig' Demo.session))
        = inr 60000000000) as Htimeout by reflexivity.
split.
- destruct (waitForSessionComplete_polls_until_set_or_timeout Demo.client Demo.session
              5000000000 60000000000 [Demo.pending; Demo.pending] wA
              Hinterval Htimeout eq_refl Hpending) as [Hfires _].
  exact (Hfires [TickFired] [Demo.selected] eq_refl eq_refl).
- destruct (waitForSessionComplete_polls_until_set_or_timeout Demo.client Demo.session
              5000000000 60000000000 [Demo.pending; Demo.pending] wB
              Hinterval Htimeout eq_refl Hpending) as [_ Hdone].
  destruct (Hdone Demo.selected [TimerFired] [page_reply Demo.page2] Hset eq_refl eq_refl)
    as (w1 & items & err & w' & _ & _ & _ & _ & Hrun & Hsched).
  pose proof Hrun as Hval. vm_compute in Hval.
  injection Hval as <- Herr <-. destruct err; [discriminate Herr|].
  eexists. split; [exact Hrun|]. split; [exact Hsched|reflexivity].
Defined.

End OnConcreteWorlds.

(** * Further properties of the code *)

Section DownloadMore.
Context `{GoLib} {I : Type} `{Downloadable I}.
Implicit Types (item : I) (folder : string) (client : HttpClient) (w : World).

(** Everything a call of [DownloadMediaItem] can do to the world. *)
Lemma Download_effect item folder client w :
  ∃ r w', DownloadMediaItem item folder client w = Done r w'
    ∧ (sent w' = sent w ∨ sent w' = sent w ++ [download_request item])
    ∧ files w ⊆ files w'
    ∧ (∀ path, path ≠ target folder item → files w' !! path = files w !! path)
    ∧ lookup_fault w' = lookup_fault w
    ∧ create_fault w' = create_fault w
    ∧ heap w' = heap w.
Proof.
  destruct (os_Stat_cases w (target folder item))
    as [(Hs&_)|[(Hs&Hwhy)|(e&Hs&Hne&_)]].
  - rewrite (Download_skip _ _ _ _ Hs). do 2 eexists. split; [reflexivity|].
    cbn. eauto 10.
  - rewrite (Download_fetch _ _ _ _ Hs). cbn zeta.
    destruct (next_reply w) as [err|resp];
      [do 2 eexists; split; [reflexivity|]; cbn; eauto 10|].
    destruct (negb (StatusCode resp =? StatusOK));
      [do 2 eexists; split; [reflexivity|]; cbn; eauto 10|].
    destruct (lookup_fault w (target folder item)) as [e|] eqn:Hl;
      [do 2 eexists; split; [reflexivity|]; cbn; eauto 10|].
    destruct (create_fault w (target folder item)) as [e|] eqn:Hc;
      [do 2 eexists; split; [reflexivity|]; cbn; eauto 10|].
    destruct Hwhy as [?|[_ Hnone]]; [congruence|].
    destruct (read_err (Body resp)); do 2 eexists; (split; [reflexivity|]); cbn;
      (split; [by right|]); (split; [by apply insert_subseteq|]);
      (split; [intros path Hp; by rewrite lookup_insert_ne|done]).
  - erewrite Download_stat_error; eauto; [|destruct e; done].
    do 2 eexists. split; [reflexivity|]. eauto 10.
Qed.

(** X1.  [DownloadMediaItem] never removes a file and never changes the
    content of a file that is already on the disk; the only path whose entry
    can differ after the call is the target of the item.  The maps on the
    heap are not touched. *)
Theorem DownloadMediaItem_keeps_existing_files item folder client w :
  let w' := world_of (DownloadMediaItem item folder client w) in
  (∀ path content, files w !! path = Some content → files w' !! path = Some content)
  ∧ (∀ path, path ≠ target folder item → files w' !! path = files w !! path)
  ∧ heap w' = heap w.
Proof.
  destruct (Download_effect item folder client w) as (r & w' & -> & _ & Hsub & Hfr & _ & _ & Hh).
  cbn. split; [|done]. intros path content Hp.
  by apply (lookup_weaken _ _ _ _ Hp).
Qed.

(** A call that returned success, or changed the disk, leaves a file that the
    existence check finds. *)
Lemma Download_leaves_target item folder client w r w1 :
  DownloadMediaItem item folder client w = Done r w1 →
  r = None ∨ files w1 ≠ files w →
  stat_finds w1 (target folder item).
Proof.
  intros Hrun Hwhy.
  destruct (os_Stat_cases w (target folder item))
    as [(Hs&Hl&[c Hc])|[(Hs&Hne)|(e&Hs&Hne&_)]].
  - rewrite (Download_skip _ _ _ _ Hs) in Hrun. injection Hrun as <- <-.
    unfold stat_finds, os_Stat. cbn. by rewrite Hl, Hc.
  - rewrite (Download_fetch _ _ _ _ Hs) in Hrun. cbn zeta in Hrun.
    destruct (next_reply w) as [err|resp];
      [injection Hrun as <- <-; by destruct Hwhy|].
    destruct (negb (StatusCode resp =? StatusOK));
      [injection Hrun as <- <-; by destruct Hwhy|].
    destruct (lookup_fault w (target folder item)) as [e|] eqn:Hl;
      [injection Hrun as <- <-; by destruct Hwhy|].
    destruct (create_fault w (target folder item)) as [e|] eqn:Hc;
      [injection Hrun as <- <-; by destruct Hwhy|].
    destruct (read_err (Body resp)); injection Hrun as <- <-;
      unfold stat_finds, os_Stat; cbn; by rewrite Hl, lookup_insert_eq.
  - erewrite Download_stat_error in Hrun; eauto; [|destruct e; done].
    injection Hrun as <- <-. by destruct Hwhy.
Qed.

(** X2.  When [DownloadMediaItem] fails after it has changed the disk, the
    copy of the body broke off: the bytes that had arrived are left under the
    file name.  A second call for the same item finds that file, reports
    success and sends no request, so the truncated file is never replaced. *)
Theorem DownloadMediaItem_keeps_broken_copy item folder client w e w1 :
  DownloadMediaItem item folder client w = Done (Some e) w1 →
  files w1 ≠ files w →
  ∃ w2 resp,
    DownloadMediaItem item folder client w1 = Done None w2
    ∧ sent w2 = sent w1 ∧ net w2 = net w1 ∧ files w2 = files w1
    ∧ next_reply w = Answer resp
    ∧ read_err (Body resp) = Some e
    ∧ files w2 !! target folder item = Some (data (Body resp)).
Proof.
  intros Hrun Hch.
  assert (stat_finds w1 (target folder item)) as Hs1
    by (eapply Download_leaves_target; eauto).
  rewrite (Download_skip _ _ _ _ Hs1).
  destruct (os_Stat_cases w (target folder item))
    as [(Hs&_)|[(Hs&_)|(e'&Hs&Hne&_)]].
  - rewrite (Download_skip _ _ _ _ Hs) in Hrun. discriminate.
  - rewrite (Download_fetch _ _ _ _ Hs) in Hrun. cbn zeta in Hrun.
    destruct (next_reply w) as [err|resp]; [injection Hrun as <- <-; done|].
    destruct (negb (StatusCode resp =? StatusOK)); [injection Hrun as <- <-; done|].
    destruct (lookup_fault w (target folder item)); [injection Hrun as <- <-; done|].
    destruct (create_fault w (target folder item)); [injection Hrun as <- <-; done|].
    destruct (read_err (Body resp)) as [err|] eqn:Hre; [|discriminate].
    injection Hrun as <- <-. eexists _, resp. split; [reflexivity|]. cbn.
    by rewrite lookup_insert_eq.
  - erewrite Download_stat_error in Hrun; eauto; [|destruct e'; done].
    injection Hrun as <- <-. done.
Qed.

(** X3.  Files are told apart by the file name only: after a download that
    went through, another item with the same file name, whatever its base
    URL, is skipped without a request. *)
Theorem DownloadMediaItem_skips_same_filename item item' folder client w w1 :
  DownloadMediaItem item folder client w = Done None w1 →
  item_Filename item' = item_Filename item →
  ∃ w2, DownloadMediaItem item' folder client w1 = Done None w2
        ∧ sent w2 = sent w1 ∧ net w2 = net w1 ∧ files w2 = files w1.
Proof.
  intros Hrun Hname.
  assert (stat_finds w1 (target folder item')) as Hs1.
  { unfold target. rewrite Hname. eapply Download_leaves_target; eauto. }
  rewrite (Download_skip _ _ _ _ Hs1). eexists. split; [reflexivity|done].
Qed.
End DownloadMore.

Section LoopMore.
Context `{GoLib}.
Implicit Types (folder : string) (client : HttpClient) (w : World).

Lemma Search_main_range_effect folder client : ∀ items w,
  ∃ w', Search.main_range items folder client w = Done () w'
        ∧ files w ⊆ files w'
        ∧ (∃ new, sent w' = sent w ++ new ∧ new `sublist_of` (download_request <$> items))
        ∧ heap w' = heap w.
Proof.
  induction items as [|item rest IH]; intros w.
  - exists w. split; [done|]. split; [done|]. split; [|done].
    exists []. by rewrite app_nil_r.
  - rewrite Search_main_range_cons.
    destruct (Download_effect item folder client w)
      as (r & w1 & -> & Hsent & Hsub & _ & _ & _ & Hheap).
    assert (∀ w2, sent w2 = sent w1 → files w2 = files w1 → heap w2 = heap w1 →
                  ∃ w', Search.main_range rest folder client w2 = Done () w'
                        ∧ files w ⊆ files w'
                        ∧ (∃ new, sent w' = sent w ++ new
                                  ∧ new `sublist_of` (download_request <$> item :: rest))
                        ∧ heap w' = heap w) as Hrest.
    { intros w2 Hs2 Hf2 Hh2.
      destruct (IH w2) as (w' & Hrun & Hsub' & (new & Hs' & Hnew) & Hh').
      exists w'. split; [done|]. split; [by etrans; [|done]; rewrite Hf2|].
      split; [|congruence].
      destruct Hsent as [Hsame|Hone].
      - exists new. split; [congruence|]. by apply sublist_cons.
      - exists (download_request item :: new).
        split; [by rewrite Hs', Hs2, Hone, <- app_assoc|]. by apply sublist_skip. }
    destruct r as [err|]; apply Hrest; done.
Qed.

Lemma Picker_downloadItems_range_effect folder client : ∀ items w,
  ∃ w', Picker.downloadItems_range client items folder w = Done () w'
        ∧ files w ⊆ files w'
        ∧ (∃ new, sent w' = sent w ++ new
                  ∧ new `sublist_of` (download_request ∘ Picker.MediaFile' <$> items))
        ∧ heap w' = heap w.
Proof.
  induction items as [|item rest IH]; intros w.
  - exists w. split; [done|]. split; [done|]. split; [|done].
    exists []. by rewrite app_nil_r.
  - rewrite Picker_downloadItems_range_cons.
    destruct (Download_effect (Picker.MediaFile' item) folder client w)
      as (r & w1 & -> & Hsent & Hsub & _ & _ & _ & Hheap).
    assert (∀ w2, sent w2 = sent w1 → files w2 = files w1 → heap w2 = heap w1 →
                  ∃ w', Picker.downloadItems_range client rest folder w2 = Done () w'
                        ∧ files w ⊆ files w'
                        ∧ (∃ new, sent w' = sent w ++ new
                                  ∧ new `sublist_of`
                                      (download_request ∘ Picker.MediaFile' <$> item :: rest))
                        ∧ heap w' = heap w) as Hrest.
    { intros w2 Hs2 Hf2 Hh2.
      destruct (IH w2) as (w' & Hrun & Hsub' & (new & Hs' & Hnew) & Hh').
      exists w'. split; [done|]. split; [by etrans; [|done]; rewrite Hf2|].
      split; [|congruence].
      destruct Hsent as [Hsame|Hone].
      - exists new. split; [congruence|]. by apply sublist_cons.
      - exists (download_request (Picker.MediaFile' item) :: new).
        split; [by rewrite Hs', Hs2, Hone, <- app_assoc|].
        by apply (sublist_skip (download_request (Picker.MediaFile' item))). }
    destruct r as [err|]; apply Hrest; done.
Qed.

(** X4.  The download loops of both programs always run to their end, for
    any items, replies and disk.  They only add files, and the requests they
    send are download requests of the items in the order of the items, each
    item at most once. *)
Theorem download_loops_only_add_files folder client
    (sitems : list Search.MediaItem) (pitems : Picker.DownloadableMediaItems) w :
  (∃ w', Search.main_range sitems folder client w = Done () w'
         ∧ files w ⊆ files w'
         ∧ sent_since w w' `sublist_of` (download_request <$> sitems))
  ∧ (∃ w', Picker.downloadItems client pitems folder w = Done () w'
           ∧ files w ⊆ files w'
           ∧ sent_since w w'
               `sublist_of` (download_request ∘ Picker.MediaFile' <$> Picker.MediaItems' pitems)).
Proof.
  split.
  - destruct (Search_main_range_effect folder client sitems w)
      as (w' & Hrun & Hsub & (new & Hs & Hnew) & _).
    exists w'. by rewrite (sent_since_app _ _ _ Hs).
  - destruct (Picker_downloadItems_range_effect folder client (Picker.MediaItems' pitems) w)
      as (w' & Hrun & Hsub & (new & Hs & Hnew) & _).
    exists w'. by rewrite (sent_since_app _ _ _ Hs).
Qed.
End LoopMore.

Section SearchMore.
Context `{JSONDecode Search.MediaItemsResponse}.
Implicit Types (gp : Search.GooglePhotosClient) (l : positive) (w : World)
  (m : gmap string Value) (all : list Search.MediaItem).



Lemma Search_for_requests gp l : ∀ fuel all tok w,
  (length (net w) < fuel)%nat →
  ∃ new, sent (world_of (Search.SearchMediaItems_for fuel gp (Some l) all tok w))
           = sent w ++ new
         ∧ Forall (sends_filter (default ∅ (heap w !! l))) new.
Proof.
  induction fuel as [|fuel IH]; intros all tok w Hfuel; [lia|].
  rewrite Search_step. cbn zeta.
  set (m := default ∅ (heap w !! l)). set (m1 := search_payload m tok).
  assert (sends_filter m (search_request m1)) as Hreq.
  { exists m1. split; [done|]. intros. by apply search_payload_other. }
  destruct (marshals m1); [|exists []; cbn; by rewrite app_nil_r].
  destruct (next_reply w) as [err|resp] eqn:Hr; [exists [search_request m1]; cbn; eauto|].
  destruct (negb (StatusCode resp =? StatusOK)); [exists [search_request m1]; cbn; eauto|].
  destruct (json_Decode (Body resp)) as [err|p]; [exists [search_request m1]; cbn; eauto|].
  case_decide; [exists [search_request m1]; cbn; eauto|].
  edestruct (IH (all ++ Search.MediaItems p) (Search.NextPageToken p)) as (new & -> & Hnew).
  { apply next_reply_Answer in Hr. rewrite Hr in Hfuel. cbn in *. lia. }
  exists (search_request m1 :: new). cbn. rewrite <- app_assoc. split; [done|].
  constructor; [done|]. cbn in Hnew. rewrite lookup_insert_eq in Hnew. cbn in Hnew.
  eapply Forall_impl; [exact Hnew|]. intros r (p' & -> & Hp'). exists p'. split; [done|].
  intros k ??. rewrite Hp' by done. by apply search_payload_other.
Qed.

(** X6.  Every request of [SearchMediaItems] is a POST to the search URL
    with a JSON content type, and its payload agrees with the caller's filter
    on every key other than [pageSize] and [pageToken].  The disk is not
    touched. *)
Theorem SearchMediaItems_sends_the_filter gp l m w :
  heap w !! l = Some m →
  let w' := world_of (Search.SearchMediaItems gp (Some l) w) in
  Forall (λ r, ReqMethod r = POST ∧ ReqURL r = Search.url
               ∧ ReqHeader r = [("Content-Type", "application/json")]
               ∧ ∃ p, ReqPayload r = Some p
                      ∧ ∀ k, k ≠ "pageSize" → k ≠ "pageToken" → p !! k = m !! k)
         (sent_since w w')
  ∧ files w' = files w.
Proof.
  intros Hl. cbn zeta. split.
  - rewrite SearchMediaItems_unfold.
    destruct (Search_for_requests gp l (S (length (net w))) [] "" w) as (new & Hs & Hnew); [lia|].
    rewrite (sent_since_app _ _ _ Hs). rewrite Hl in Hnew. cbn in Hnew.
    eapply Forall_impl; [exact Hnew|]. intros r (p & -> & Hp). cbn. eauto 10.
  - destruct (SearchMediaItems_always gp l w) as (i & e & w1 & m' & -> & _ & _ & _ & _ & _ & Hf).
    done.
Qed.

Lemma Search_for_success gp l : ∀ fuel all tok w items w',
  Search.SearchMediaItems_for fuel gp (Some l) all tok w = Done (items, None) w' →
  ∃ m', heap w' !! l = Some m' ∧ marshals m' = true
        ∧ m' !! "pageSize" = Some (VInt 100)
        ∧ last (sent w') = Some (search_request m').
Proof.
  induction fuel as [|fuel IH]; intros all tok w items w' Hrun; [discriminate|].
  rewrite Search_step in Hrun. cbn zeta in Hrun.
  set (m1 := search_payload (default ∅ (heap w !! l)) tok) in *.
  destruct (marshals m1) eqn:Hm; [|discriminate].
  destruct (next_reply w) as [err|resp]; [discriminate|].
  destruct (negb (StatusCode resp =? StatusOK)); [discriminate|].
  destruct (json_Decode (Body resp)) as [err|p]; [discriminate|].
  case_decide; [|exact (IH _ _ _ _ _ Hrun)].
  injection Hrun as <- <-. exists m1. cbn. rewrite lookup_insert_eq, last_snoc.
  split; [done|]. split; [done|]. split; [apply search_payload_size|done].
Qed.

(** X7.  A search that went through leaves the caller's map as its last
    request carried it, and the function does not reset it: the first request
    of a second search with the same map repeats the last request of the
    first one, page token included. *)
Theorem SearchMediaItems_again_resumes gp l items w w1 :
  Search.SearchMediaItems gp (Some l) w = Done (items, None) w1 →
  ∃ r, last (sent w1) = Some r
       ∧ head (sent_since w1 (world_of (Search.SearchMediaItems gp (Some l) w1))) = Some r.
Proof.
  intros Hrun. rewrite SearchMediaItems_unfold in Hrun.
  destruct (Search_for_success _ _ _ _ _ _ _ _ Hrun) as (m' & Hh & Hm & Hsz & Hlast).
  exists (search_request m'). split; [done|].
  rewrite SearchMediaItems_unfold.
  destruct (Search_for_requests gp l (S (length (net w1))) [] "" w1) as (new & Hs & _); [lia|].
  rewrite (sent_since_app _ _ _ Hs).
  rewrite Search_step in Hs. cbn zeta in Hs. rewrite Hh in Hs. cbn [default from_option id] in Hs.
  assert (search_payload m' "" = m') as Hid by (by apply insert_id).
  rewrite Hid, Hm in Hs.
  destruct (next_reply w1) as [err|resp] eqn:Hr;
    [cbn in Hs; apply app_inv_head in Hs; by subst|].
  destruct (negb (StatusCode resp =? StatusOK));
    [cbn in Hs; apply app_inv_head in Hs; by subst|].
  destruct (json_Decode (Body resp)) as [err|p];
    [cbn in Hs; apply app_inv_head in Hs; by subst|].
  case_decide; [cbn in Hs; apply app_inv_head in Hs; by subst|].
  edestruct (Search_for_requests gp l (length (net w1)) (([] : list Search.MediaItem) ++ Search.MediaItems p)
               (Search.NextPageToken p)) as (new' & Hs' & _); [|rewrite Hs' in Hs].
  { cbn. apply next_reply_Answer in Hr. rewrite Hr at 2. cbn. lia. }
  cbn in Hs. rewrite <- app_assoc in Hs. apply app_inv_head in Hs. by subst.
Qed.

Lemma Search_for_pauses gp l : ∀ fuel all tok w,
  (length (net w) < fuel)%nat →
  marshals (search_payload (default ∅ (heap w !! l)) tok) = true →
  let w' := world_of (Search.SearchMediaItems_for fuel gp (Some l) all tok w) in
  ∃ new, sent w' = sent w ++ new ∧ new ≠ []
         ∧ now w' = now w + 100 * Search.Millisecond * (Z.of_nat (length new) - 1).
Proof.
  induction fuel as [|fuel IH]; intros all tok w Hfuel Hm; [lia|].
  cbn zeta. rewrite Search_step. cbn zeta. rewrite Hm.
  set (m1 := search_payload (default ∅ (heap w !! l)) tok) in *.
  assert (∀ w2, sent w2 = sent w ++ [search_request m1] → now w2 = now w →
                ∃ new, sent w2 = sent w ++ new ∧ new ≠ []
                       ∧ now w2 = now w + 100 * Search.Millisecond * (Z.of_nat (length new) - 1))
    as Hone.
  { intros w2 Hs Hn. exists [search_request m1]. split; [done|]. split; [done|]. cbn. lia. }
  destruct (next_reply w) as [err|resp] eqn:Hr; [by apply Hone|].
  destruct (negb (StatusCode resp =? StatusOK)); [by apply Hone|].
  destruct (json_Decode (Body resp)) as [err|p]; [by apply Hone|].
  case_decide; [by apply Hone|].
  edestruct (IH (all ++ Search.MediaItems p) (Search.NextPageToken p)) as (new & Hs & Hne & Hn);
    [| |rewrite Hs, Hn].
  { apply next_reply_Answer in Hr. rewrite Hr in Hfuel. cbn in *. lia. }
  { cbn. rewrite lookup_insert_eq. cbn. by apply marshals_search_payload. }
  exists (search_request m1 :: new). cbn [sent set_now set_net set_heap now].
  rewrite <- app_assoc. split; [done|]. split; [done|].
  cbn [length]. lia.
Qed.

(** X8.  [SearchMediaItems] sleeps 100 milliseconds between two requests and
    at no other point: the clock advances by 100 milliseconds for every
    request after the first. *)
Theorem SearchMediaItems_pauses_between_requests gp l w :
  let w' := world_of (Search.SearchMediaItems gp (Some l) w) in
  now w' = now w + 100 * Search.Millisecond
                   * Z.of_nat (pred (length (sent_since w w'))).
Proof.
  cbn zeta. rewrite SearchMediaItems_unfold.
  destruct (marshals (search_payload (default ∅ (heap w !! l)) "")) eqn:Hm.
  - destruct (Search_for_pauses gp l (S (length (net w))) [] "" w) as (new & Hs & Hne & Hn);
      [lia|done|].
    rewrite (sent_since_app _ _ _ Hs), Hn. destruct new; [done|]. cbn [length pred]. lia.
  - rewrite Search_step. cbn zeta. rewrite Hm. cbn.
    rewrite (sent_since_app _ _ []) by (by rewrite app_nil_r). cbn. lia.
Qed.
End SearchMore.

Section PickerMore.
Context `{GoLib} `{JSONDecode Picker.PickingSession} `{JSONDecode Picker.MediaItemsList}.
Implicit Types (client : HttpClient) (session : Picker.PickingSession) (w : World)
  (sid tok : string).

Lemma fetch_for_requests client sid : ∀ fuel d tok w,
  (length (net w) < fuel)%nat →
  ∃ toks, sent (world_of (Picker.fetchSelectedMediaItems_for fuel client sid d tok w))
            = sent w ++ (next_page_request sid <$> toks)
          ∧ Forall (λ t, t ≠ "") toks.
Proof.
  induction fuel as [|fuel IH]; intros d tok w Hfuel; [lia|].
  rewrite fetch_for_step. case_decide; [exists []; cbn; by rewrite app_nil_r|].
  destruct (PageURL_always client sid tok w) as (page & err & -> & Herr & Hok).
  destruct err as [err|]; [exists [tok]; cbn; eauto|].
  destruct (Hok eq_refl) as (resp & Hr & _).
  edestruct (IH (Picker.mkDownloadableMediaItems (Picker.MediaItems' d ++ Picker.MediaItems page))
                (Picker.NextPageToken page)) as (toks & -> & Htoks).
  { apply next_reply_Answer in Hr. rewrite Hr in Hfuel. cbn in *. lia. }
  exists (tok :: toks). cbn. rewrite <- app_assoc. eauto.
Qed.

(** X9.  The requests of [fetchSelectedMediaItems] are one first-page request
    for the session followed by next-page requests for the same session, each
    with a page token that is not empty. *)
Theorem fetchSelectedMediaItems_requests client sid w :
  ∃ toks,
    sent_since w (world_of (Picker.fetchSelectedMediaItems client sid w))
      = first_page_request sid :: (next_page_request sid <$> toks)
    ∧ Forall (λ t, t ≠ "") toks.
Proof.
  rewrite fetchSelectedMediaItems_unfold.
  destruct (FirstPage_always client sid w) as (page & err & -> & Herr & Hok).
  destruct err as [err|].
  { exists []. split; [|done]. by apply sent_since_app. }
  edestruct (fetch_for_requests client sid) as (toks & Hs & Htoks); [|exists toks; split; [|done]].
  { apply Nat.lt_succ_diag_r. }
  apply sent_since_app. rewrite Hs. cbn. by rewrite <- app_assoc.
Qed.

Lemma strings_TrimLeft_quote s :
  strings_TrimLeft (quote +:+ s) quote = strings_TrimLeft s quote.
Proof. reflexivity. Qed.

Lemma strings_TrimRight_snoc s :
  strings_TrimRight (s +:+ quote) quote = strings_TrimRight s quote.
Proof.
  induction s as [|a s IH]; [reflexivity|].
  change (String a s +:+ quote) with (String a (s +:+ quote)).
  cbn [strings_TrimRight]. by rewrite IH.
Qed.

Lemma strings_TrimLeft_app s t cutset :
  strings_TrimLeft (s +:+ t) cutset =
    match strings_TrimLeft s cutset with
    | EmptyString => strings_TrimLeft t cutset
    | s' => s' +:+ t
    end.
Proof.
  induction s as [|a s IH]; [reflexivity|].
  change (String a s +:+ t) with (String a (s +:+ t)).
  cbn [strings_TrimLeft]. by destruct (inCutset a cutset).
Qed.

Lemma strings_Trim_quote_l s : strings_Trim (quote +:+ s) quote = strings_Trim s quote.
Proof. reflexivity. Qed.

Lemma strings_Trim_quote_r s : strings_Trim (s +:+ quote) quote = strings_Trim s quote.
Proof.
  unfold strings_Trim. rewrite strings_TrimLeft_app.
  destruct (strings_TrimLeft s quote) as [|a s'] eqn:Hl; [reflexivity|].
  apply strings_TrimRight_snoc.
Qed.

(** X10.  [parseDuration] ignores a double quote in front of the duration and
    a double quote behind it. *)
Theorem parseDuration_ignores_surrounding_quotes (s : string) :
  Picker.parseDuration (quote +:+ s) = Picker.parseDuration s
  ∧ Picker.parseDuration (s +:+ quote) = Picker.parseDuration s.
Proof.
  unfold Picker.parseDuration. by rewrite strings_Trim_quote_l, strings_Trim_quote_r.
Qed.

(** X11.  [waitForSessionComplete] checks the polling configuration before
    it does anything else.  An interval or a timeout that does not parse
    gives the error back with the world untouched.  An interval that parses
    to zero or less makes [time.NewTicker] panic, before any poll. *)
Theorem waitForSessionComplete_rejects_bad_config client session w :
  (∀ err,
     Picker.parseDuration (Picker.PollInterval (Picker.PollingConfig' session)) = inl err →
     Picker.waitForSessionComplete client session w
       = Done (Picker.DownloadableMediaItems_zero,
               Some (Errorf "invalid polling interval: %v" [AErr err])) w)
  ∧ (∀ interval err,
       Picker.parseDuration (Picker.PollInterval (Picker.PollingConfig' session)) = inr interval →
       Picker.parseDuration (Picker.TimeoutIn (Picker.PollingConfig' session)) = inl err →
       Picker.waitForSessionComplete client session w
         = Done (Picker.DownloadableMediaItems_zero,
                 Some (Errorf "invalid timeout: %v" [AErr err])) w)
  ∧ (∀ interval timeout,
       Picker.parseDuration (Picker.PollInterval (Picker.PollingConfig' session)) = inr interval →
       Picker.parseDuration (Picker.TimeoutIn (Picker.PollingConfig' session)) = inr timeout →
       interval ≤ 0 →
       ∃ w', Picker.waitForSessionComplete client session w
               = Halt (Panic "non-positive interval for NewTicker") w'
             ∧ sent w' = sent w ∧ sched w' = sched w ∧ files w' = files w).
Proof.
  split; [|split].
  - intros err Hi. unfold Picker.waitForSessionComplete. by rewrite Hi.
  - intros interval err Hi Ht. unfold Picker.waitForSessionComplete. by rewrite Hi, Ht.
  - intros interval timeout Hi Ht Hle. unfold Picker.waitForSessionComplete.
    rewrite Hi, Ht. unmonad. unfold time_NewTimer, time_NewTicker.
    cbn -[Picker.waitForSessionComplete_for]. rewrite decide_True by done.
    eexists. split; [reflexivity|done].
Qed.

Lemma poll_bad_reply client sid w :
  bad_reply Picker.PickingSession (next_reply w) →
  ∃ e, Picker.pollForCompleteSession client sid w
         = Done (false, Some e) (set_net (tail (net w)) (sent w ++ [poll_request sid]) w).
Proof.
  intros Hbad. rewrite poll_step. destruct (next_reply w) as [err|resp]; [eauto|].
  destruct (Z.eqb_spec (StatusCode resp) StatusOK) as [Hok|Hne]; cbn [negb]; [|eauto].
  destruct Hbad as [|[err ->]]; [done|eauto].
Qed.

(** X12.  The first poll that fails ends [waitForSessionComplete]: after the
    polls that found the selection pending it returns the wrapped polling
    error and no items, has sent one poll per tick and nothing else, and
    consumes neither further events nor further replies. *)
Theorem waitForSessionComplete_stops_at_failed_poll
    client session interval timeout (pending : list Reply) later rest w :
  Picker.parseDuration (Picker.PollInterval (Picker.PollingConfig' session)) = inr interval →
  Picker.parseDuration (Picker.TimeoutIn (Picker.PollingConfig' session)) = inr timeout →
  0 < interval →
  Forall (session_reply false) pending →
  sched w = replicate (S (length pending)) TickFired ++ later →
  net w = pending ++ rest →
  bad_reply Picker.PickingSession (reply_after rest) →
  ∃ e w', Picker.waitForSessionComplete client session w
            = Done (Picker.DownloadableMediaItems_zero,
                    Some (Errorf "polling failed: %v" [AErr e])) w'
          ∧ sent_since w w' = replicate (S (length pending)) (poll_request (Picker.ID session))
          ∧ sched w' = later
          ∧ net w' = tail rest.
Proof.
  intros Hi Ht Hpos Hp Hsched Hnet Hbad.
  rewrite (waitForSessionComplete_unfold _ _ _ _ _ Hi Ht Hpos).
  replace (S (length (sched w))) with (length pending + S (S (length later)))%nat
    by (rewrite Hsched, length_app, length_replicate; cbn; lia).
  edestruct (wait_for_pending client session timeout (TickFired :: later) rest pending)
    as (w1 & -> & Hs & Hsc & Hn & Hf & Hc).
  { done. }
  { cbn [sched set_clocks]. rewrite Hsched. apply replicate_S_app. }
  { exact Hnet. }
  rewrite wait_for_step, Hsc.
  destruct (poll_bad_reply client (Picker.ID session) (set_sched later w1)) as (e & ->).
  { unfold next_reply. cbn. by rewrite Hn. }
  exists e. eexists. split; [reflexivity|]. cbn. rewrite Hn. split; [|done].
  apply sent_since_app. cbn. cbn in Hs. rewrite Hs, <- app_assoc. f_equal.
  symmetry. apply replicate_cons_app.
Qed.
End PickerMore.

Section AuthMore.
Context `{GoLib} `{JSONDecode Token} `{JSONEncode Token}.
Implicit Types (variant : Variant) (config : Config) (w : World).

Lemma saveToken_run variant path tok w :
  ∃ w0, stdout w0 = stdout w ++ match variant with
                               | SearchClient => [mkLine "Saving token to %s\n" [AStr path]]
                               | PickerClient => []
                               end
        ∧ saveToken variant path tok w =
            match create_error w path with
            | Some e => Halt (Fatal "Unable to cache token: %v" [AErr (SysErr e)]) w0
            | None => Done () (set_files (<[path := json_Encode tok]> (files w)) w0)
            end
        ∧ files w0 = files w ∧ sent w0 = sent w ∧ net w0 = net w ∧ mux w0 = mux w
        ∧ now w0 = now w ∧ browser w0 = browser w
        ∧ lookup_fault w0 = lookup_fault w ∧ create_fault w0 = create_fault w.
Proof.
  unfold saveToken, create_error. unmonad.
  destruct variant; cbn; unfold os_Create; cbn.
  - exists w. rewrite app_nil_r. split; [done|]. split; [|done].
    destruct (lookup_fault w path); [done|]. destruct (create_fault w path); [done|].
    cbn. unfold file_Write. cbn. rewrite lookup_insert_eq, insert_insert_eq. by destruct w.
  - eexists (set_stdout _ w). split; [reflexivity|]. split; [|done].
    destruct (lookup_fault w path); [done|]. destruct (create_fault w path); [done|].
    cbn. unfold file_Write. cbn. by rewrite lookup_insert_eq, insert_insert_eq.
Qed.

(** X13.  What [saveToken] writes [tokenFromFile] reads back: where the file
    can be created and the JSON codec round-trips the token, saving stores
    the encoding under the path and reading the path returns the token. *)
Theorem saveToken_then_tokenFromFile variant path tok w :
  creatable w path →
  token_codec_round_trip tok →
  ∃ w1, saveToken variant path tok w = Done () w1
        ∧ files w1 = <[path := json_Encode tok]> (files w)
        ∧ tokenFromFile path w1 = Done (Some tok, None) w1.
Proof.
  intros [Hl Hc] Hrt.
  destruct (saveToken_run variant path tok w) as (w0 & _ & -> & Hf & _ & _ & _ & _ & _ & Hl0 & _).
  unfold create_error. rewrite Hl, Hc. eexists. split; [reflexivity|]. cbn.
  split; [done|].
  unfold tokenFromFile, os_Open. unmonad. cbn. rewrite Hl0, Hl, lookup_insert_eq.
  unfold token_codec_round_trip in Hrt. by rewrite Hrt.
Qed.

(** One web authorization and the saving of its token, by cases. *)
Lemma getNewTokenAndSave_cases variant config w cb rest :
  "/" ∉ mux w →
  browser w = cb :: rest →
  ∃ w', getNewTokenAndSave variant config "token.json" w =
          match exchanged cb with
          | inl err => Halt (Fatal "Unable to retrieve token from web: %v" [AErr err]) w'
          | inr t =>
              match create_error w "token.json" with
              | Some e => Halt (Fatal "Unable to cache token: %v" [AErr (SysErr e)]) w'
              | None =>
                  Done (Some t, None)
                       (set_files (<["token.json" := json_Encode t]> (files w)) w')
              end
          end
        ∧ files w' = files w ∧ mux w' = mux w ++ ["/"] ∧ now w' = now w + elapsed cb
        ∧ browser w' = rest ∧ sent w' = sent w ∧ net w' = net w
        ∧ lookup_fault w' = lookup_fault w ∧ create_fault w' = create_fault w.
Proof.
  intros Hmux Hb. unfold getNewTokenAndSave, getTokenFromWeb. unmonad.
  unfold http_HandleFunc. rewrite decide_False by done. cbn.
  unfold recv_authCodeChannel. cbn. rewrite Hb. cbn.
  destruct (exchanged cb) as [err|t]; [eexists; split; [reflexivity|done]|].
  match goal with |- context [saveToken variant "token.json" t ?w1] =>
    destruct (saveToken_run variant "token.json" t w1)
      as (w0 & _ & -> & Hf & Hs & Hn & Hm & Hnow & Hbr & Hl & Hc)
  end.
  exists w0. cbn in *. unfold create_error. cbn. rewrite Hf.
  split; [|done].
  destruct (lookup_fault w "token.json"); [done|]. by destruct (create_fault w "token.json").
Qed.

Lemma token_file_of_saved tok w :
  token_codec_round_trip tok →
  lookup_fault w "token.json" = None →
  files w !! "token.json" = Some (json_Encode tok) →
  token_file w = Stored tok.
Proof.
  intros Hrt Hl Hf. unfold token_file. rewrite Hl, Hf.
  unfold token_codec_round_trip in Hrt. by rewrite Hrt.
Qed.

Lemma getClient_keeps variant config tok w :
  token_file w = Stored tok → ¬ Expiry tok < now w →
  getClient variant config w = Done (mkClient tok, tok) w.
Proof.
  intros Htf Hne. rewrite getClient_unfold, Htf.
  destruct (Z.ltb_spec (Expiry tok) (now w)); [done|reflexivity].
Qed.

(** X14.  After [getClient] has returned a token that is not expired, a
    second [getClient], of either program, returns the same token and leaves
    the world as it is: no browser flow, no write. *)
Theorem getClient_twice variant variant' config config' c tok w w1 :
  "/" ∉ mux w →
  getClient variant config w = Done (c, tok) w1 →
  token_codec_round_trip tok →
  ¬ Expiry tok < now w1 →
  getClient variant' config' w1 = Done (mkClient tok, tok) w1.
Proof.
  intros Hmux Hrun Hrt Hfresh.
  apply getClient_keeps; [|done].
  rewrite getClient_unfold in Hrun.
  assert (∀ w0 t0 w', "/" ∉ mux w0 →
            getNewTokenAndSave variant config "token.json" w0 = Done (Some t0, None) w' →
            lookup_fault w' "token.json" = None
            ∧ files w' !! "token.json" = Some (json_Encode t0)) as Hsaved.
  { intros w0 t0 w' Hm0 Hrun0.
    destruct (browser w0) as [|cb rest] eqn:Hb.
    { unfold getNewTokenAndSave, getTokenFromWeb in Hrun0. unmonad.
      unfold http_HandleFunc in Hrun0. rewrite decide_False in Hrun0 by done.
      cbn in Hrun0. unfold recv_authCodeChannel in Hrun0. cbn in Hrun0.
      rewrite Hb in Hrun0. discriminate. }
    destruct (getNewTokenAndSave_cases variant config w0 cb rest Hm0 Hb)
      as (w2 & Heq & _ & _ & _ & _ & _ & _ & Hl & _).
    rewrite Heq in Hrun0. destruct (exchanged cb); [discriminate|].
    unfold create_error in Hrun0.
    destruct (lookup_fault w0 "token.json") eqn:Hl0; [discriminate|].
    destruct (create_fault w0 "token.json"); [discriminate|].
    injection Hrun0 as <- <-. cbn. by rewrite Hl, Hl0, lookup_insert_eq. }
  assert (∀ w0 t0 w', "/" ∉ mux w0 →
            getNewTokenAndSave variant config "token.json" w0 = Done (Some t0, None) w' →
            "/" ∈ mux w') as Hreg.
  { intros w0 t0 w' Hm0 Hrun0.
    destruct (getNewTokenAndSave_run variant config w0 Hm0) as [Hm _].
    rewrite Hrun0 in Hm. cbn in Hm. rewrite Hm. apply elem_of_app. right. by left. }
  destruct (token_file w) as [err|err|t] eqn:Htf.
  - destruct (getNewTokenAndSave variant config "token.json" w)
      as [[[t1|] [e|]] w2|] eqn:Hr1; try discriminate.
    destruct (Expiry t1 <? now w2).
    + rewrite getNewTokenAndSave_again in Hrun by eauto. discriminate.
    + injection Hrun as <- <- <-.
      destruct (Hsaved _ _ _ Hmux Hr1). by apply token_file_of_saved.
  - destruct (getNewTokenAndSave variant config "token.json" w)
      as [[[t1|] [e|]] w2|] eqn:Hr1; try discriminate.
    destruct (Expiry t1 <? now w2).
    + rewrite getNewTokenAndSave_again in Hrun by eauto. discriminate.
    + injection Hrun as <- <- <-.
      destruct (Hsaved _ _ _ Hmux Hr1). by apply token_file_of_saved.
  - destruct (Expiry t <? now w).
    + destruct (getNewTokenAndSave variant config "token.json" w)
        as [[[t1|] [e|]] w2|] eqn:Hr1; try discriminate.
      injection Hrun as <- <- <-.
      destruct (Hsaved _ _ _ Hmux Hr1). by apply token_file_of_saved.
    + by injection Hrun as <- <- <-.
Qed.

(** X15.  With no usable token file, [getClient] authorizes through the
    browser, and then checks the expiry of the token it just received.  If
    that token is already expired it authorizes again, and the second
    registration of the callback handler panics, after the expired token has
    been saved. *)
Theorem getClient_panics_on_second_authorization variant config w cb rest t :
  "/" ∉ mux w →
  (∀ tok, token_file w ≠ Stored tok) →
  browser w = cb :: rest →
  exchanged cb = inr t →
  creatable w "token.json" →
  Expiry t < now w + elapsed cb →
  ∃ w', getClient variant config w = Halt (Panic "http: multiple registrations") w'
        ∧ files w' = <["token.json" := json_Encode t]> (files w)
        ∧ browser w' = rest.
Proof.
  intros Hmux Hno Hb Hex [Hl Hc] Hexp.
  destruct (getNewTokenAndSave_cases variant config w cb rest Hmux Hb)
    as (w1 & Heq & Hf & Hm & Hnow & Hbr & _ & _ & _ & _).
  rewrite Hex in Heq. unfold create_error in Heq. rewrite Hl, Hc in Heq.
  set (w2 := set_files (<["token.json" := json_Encode t]> (files w)) w1) in *.
  assert (getNewTokenAndSave variant config "token.json" w2
          = Halt (Panic "http: multiple registrations") w2) as Hagain.
  { apply getNewTokenAndSave_again. cbn. rewrite Hm. apply elem_of_app. right. by left. }
  exists w2. split; [|by cbn].
  rewrite getClient_unfold.
  destruct (token_file w) as [err|err|tok] eqn:Htf; [| |by destruct (Hno tok)].
  - rewrite Heq. replace (Expiry t <? now w2) with true; [by rewrite Hagain|].
    symmetry. apply Z.ltb_lt. cbn. lia.
  - rewrite Heq. replace (Expiry t <? now w2) with true; [by rewrite Hagain|].
    symmetry. apply Z.ltb_lt. cbn. lia.
Qed.

(** X16.  A failed authorization is fatal and leaves the disk as it was:
    when the token endpoint refuses the code, and when the token file cannot
    be created. *)
Theorem getClient_failed_authorization_keeps_token_file variant config w cb rest :
  "/" ∉ mux w →
  must_authorize w →
  browser w = cb :: rest →
  (∀ err, exchanged cb = inl err →
     ∃ w', getClient variant config w
             = Halt (Fatal "Unable to retrieve token from web: %v" [AErr err]) w'
           ∧ files w' = files w)
  ∧ (∀ t e, exchanged cb = inr t → create_error w "token.json" = Some e →
       ∃ w', getClient variant config w
               = Halt (Fatal "Unable to cache token: %v" [AErr (SysErr e)]) w'
             ∧ files w' = files w).
Proof.
  intros Hmux Hmust Hb.
  destruct (getNewTokenAndSave_cases variant config w cb rest Hmux Hb)
    as (w1 & Heq & Hf & _).
  unfold must_authorize in Hmust.
  split.
  - intros err Hex. rewrite Hex in Heq. exists w1. split; [|done].
    rewrite getClient_unfold.
    destruct (token_file w) as [e|e|tok]; rewrite ?Heq; try done.
    destruct (Z.ltb_spec (Expiry tok) (now w)); [done|lia].
  - intros t e Hex Hce. rewrite Hex, Hce in Heq. exists w1. split; [|done].
    rewrite getClient_unfold.
    destruct (token_file w) as [e'|e'|tok]; rewrite ?Heq; try done.
    destruct (Z.ltb_spec (Expiry tok) (now w)); [done|lia].
Qed.
End AuthMore.

Section Frames.
Context `{JSONDecode Search.MediaItemsResponse}
        `{JSONDecode Picker.PickingSession} `{JSONDecode Picker.MediaItemsList}.

Lemma same_disk_refl w : same_disk w w.
Proof. done. Qed.

Lemma same_disk_trans w1 w2 w3 : same_disk w1 w2 → same_disk w2 w3 → same_disk w1 w3.
Proof. intros (?&?&?) (?&?&?). repeat split; congruence. Qed.

Lemma same_disk_stat w w' path :
  same_disk w w' → stat_not_exist w path → stat_not_exist w' path.
Proof. intros (Hf&Hl&_). apply stat_not_exist_frame; [done|by rewrite Hf]. Qed.

Lemma Search_for_same_disk gp l : ∀ fuel all tok w,
  same_disk w (world_of (Search.SearchMediaItems_for fuel gp (Some l) all tok w)).
Proof.
  induction fuel as [|fuel IH]; intros all tok w; [done|].
  rewrite Search_step. cbn zeta.
  destruct (marshals _); [|done].
  destruct (next_reply w) as [err|resp]; [done|].
  destruct (negb (StatusCode resp =? StatusOK)); [done|].
  destruct (json_Decode (Body resp)) as [err|p]; [done|].
  case_decide; [done|].
  eapply same_disk_trans; [|apply IH]. done.
Qed.

Lemma fetch_for_same_disk client sid : ∀ fuel d tok w,
  same_disk w (world_of (Picker.fetchSelectedMediaItems_for fuel client sid d tok w)).
Proof.
  induction fuel as [|fuel IH]; intros d tok w; [done|].
  rewrite fetch_for_step. case_decide; [done|].
  destruct (PageURL_always client sid tok w) as (page & err & -> & _).
  destruct err as [err|]; [done|].
  eapply same_disk_trans; [|apply IH]. done.
Qed.

Lemma fetchSelectedMediaItems_same_disk client sid w :
  same_disk w (world_of (Picker.fetchSelectedMediaItems client sid w)).
Proof.
  rewrite fetchSelectedMediaItems_unfold.
  destruct (FirstPage_always client sid w) as (page & err & -> & _).
  destruct err as [err|]; [done|].
  eapply same_disk_trans; [|apply fetch_for_same_disk]. done.
Qed.
End Frames.

Section SearchMain.
Context `{GoLib} `{JSONDecode Search.MediaItemsResponse}
        `{JSONDecode Token} `{JSONEncode Token}.
Implicit Types (folder : string) (config : Config) (w : World).

Lemma getClient_stored variant config w :
  ¬ must_authorize w →
  ∃ tok, getClient variant config w = Done (mkClient tok, tok) w.
Proof.
  intros Hno. unfold must_authorize in Hno.
  destruct (token_file w) as [err|err|tok] eqn:Htf; [done|done|].
  exists tok. by apply getClient_keeps.
Qed.

Lemma marshals_favorites_filter : marshals favorites_filter = true.
Proof. reflexivity. Qed.

(** [main] of variant B once the stored token has been accepted. *)
Lemma Search_main_unfold folder config tok w :
  getClient SearchClient config w = Done (mkClient tok, tok) w →
  let client := mkClient tok in
  let l := fresh (dom (heap w)) in
  let w1 := set_stdout (stdout w ++ [mkLine "%v\n" [AStr "Fetching favorite photos from Google Photos..."]])
              (set_heap (<[l := favorites_filter]> (heap w)) w) in
  Search.main folder config w =
    match Search.SearchMediaItems (Search.mkGooglePhotosClient client) (Some l) w1 with
    | Done (mediaItems, Some err) w2 =>
        Halt (Fatal "Error retrieving favorite photos: %v" [AErr err]) w2
    | Done (mediaItems, None) w2 =>
        match Search.main_range mediaItems folder client
                (set_stdout (stdout w2 ++ [mkLine "Found %d favorite photos.\n"
                                             [AInt (Z.of_nat (length mediaItems))]]) w2) with
        | Done _ w3 =>
            Done () (set_stdout (stdout w3 ++
                       [mkLine "%v\n" [AStr "Finished downloading photos."]]) w3)
        | Halt s w3 => Halt s w3
        end
    | Halt s w2 => Halt s w2
    end.
Proof.
  intros Hc. cbn zeta. unfold Search.main. unmonad. rewrite Hc. cbn.
  destruct (Search.SearchMediaItems _ _ _) as [[items [err|]] w2|]; try reflexivity.
Qed.

Lemma SearchMediaItems_posts gp l w :
  let w' := world_of (Search.SearchMediaItems gp (Some l) w) in
  Forall (λ r, ReqMethod r = POST ∧ ReqURL r = Search.url) (sent_since w w').
Proof.
  cbn zeta. rewrite SearchMediaItems_unfold.
  destruct (Search_for_requests gp l (S (length (net w))) [] "" w) as (new & Hs & Hnew); [lia|].
  rewrite (sent_since_app _ _ _ Hs).
  eapply Forall_impl; [exact Hnew|]. by intros r (p & -> & _).
Qed.

(** X17.  In [main] of the search client an error of the search is fatal:
    with a usable token and a page sequence that breaks, the program stops
    with the search error, has sent search requests only, and has written
    nothing. *)
Theorem Search_main_stops_on_search_error folder config w
    (pages : list (BodyT * Search.MediaItemsResponse)) rest :
  ¬ must_authorize w →
  Forall (λ bp, json_Decode bp.1 = inr bp.2 ∧ Search.NextPageToken bp.2 ≠ "") pages →
  net w = (page_reply <$> pages.*1) ++ rest →
  bad_reply Search.MediaItemsResponse (reply_after rest) →
  ∃ err w', Search.main folder config w
              = Halt (Fatal "Error retrieving favorite photos: %v" [AErr err]) w'
            ∧ files w' = files w
            ∧ Forall (λ r, ReqMethod r = POST ∧ ReqURL r = Search.url) (sent_since w w').
Proof.
  intros Hno Hgood Hnet Hbad.
  destruct (getClient_stored SearchClient config w Hno) as (tok & Hc).
  rewrite (Search_main_unfold _ _ _ _ Hc). cbn zeta.
  set (l := fresh (dom (heap w))). set (w1 := set_stdout _ _).
  set (gp := Search.mkGooglePhotosClient (mkClient tok)).
  assert (heap w1 !! l = Some favorites_filter) as Hl by (cbn; by rewrite lookup_insert_eq).
  destruct (SearchMediaItems_fails gp l w1 pages rest) as (err & w2 & Hrun); [|done|done|done|].
  { rewrite Hl. apply marshals_favorites_filter. }
  pose proof (SearchMediaItems_posts gp l w1) as Hreq.
  pose proof (Search_for_same_disk gp l (S (length (net w1))) [] "" w1) as (Hf & _).
  rewrite <- SearchMediaItems_unfold in Hf.
  rewrite Hrun in Hreq, Hf |- *. cbn in Hreq, Hf.
  exists err, w2. split; [done|]. split; [done|]. exact Hreq.
Qed.

(** X18.  [main] of the search client, end to end, under these conditions:
    the stored token is usable, the server serves the pages of the search
    (all but the last announcing a successor), none of the target files of
    the items found exists beforehand, and the target paths of the items
    found are pairwise distinct.  Then [main] searches starting without a
    page token, sends one download request for every item found, in the
    order of the items, and ends normally with the closing line as its last
    output, whatever the downloads return. *)
Theorem Search_main_downloads_every_favorite folder config w
    (pages : list (BodyT * Search.MediaItemsResponse)) b p rest :
  ¬ must_authorize w →
  Forall (λ bp, json_Decode bp.1 = inr bp.2 ∧ Search.NextPageToken bp.2 ≠ "") pages →
  json_Decode b = inr p →
  Search.NextPageToken p = "" →
  net w = (page_reply <$> (pages.*1 ++ [b])) ++ rest →
  let items := concat (Search.MediaItems <$> (pages.*2 ++ [p])) in
  (∀ item, item ∈ items → stat_not_exist w (target folder item)) →
  NoDup (target folder <$> items) →
  ∃ searches w',
    Search.main folder config w = Done () w'
    ∧ sent_since w w' = searches ++ (download_request <$> items)
    ∧ carried_token <$> searches
      = None :: ((λ bp, Some (VStr (Search.NextPageToken bp.2))) <$> pages)
    ∧ last (stdout w') = Some (mkLine "%v\n" [AStr "Finished downloading photos."]).
Proof.
  intros Hno Hgood Hb Hp Hnet items Hstat Hnd.
  destruct (getClient_stored SearchClient config w Hno) as (tok & Hc).
  rewrite (Search_main_unfold _ _ _ _ Hc). cbn zeta.
  set (l := fresh (dom (heap w))). set (w1 := set_stdout _ _).
  set (gp := Search.mkGooglePhotosClient (mkClient tok)).
  assert (heap w1 !! l = Some favorites_filter) as Hl by (cbn; by rewrite lookup_insert_eq).
  destruct (SearchMediaItems_pages gp l favorites_filter w1 pages b p rest Hl
              marshals_favorites_filter Hgood Hb Hp Hnet)
    as (w2 & Hrun & _ & _ & Htok).
  pose proof (Search_for_same_disk gp l (S (length (net w1))) [] "" w1) as Hd.
  rewrite <- SearchMediaItems_unfold in Hd.
  pose proof (SearchMediaItems_always gp l w1) as (i0 & e0 & w0 & m0 & Hrun0 & _ & _ & _ & _ & (new & Hs & _) & _).
  rewrite Hrun in Hd, Hrun0 |- *. cbn in Hd. injection Hrun0 as <- <- <-.
  fold items.
  set (w3 := set_stdout _ w2).
  destruct (Search_main_range_all folder (mkClient tok) items w3) as (w4 & -> & Hs4).
  { intros item Hin. eapply (same_disk_stat w); [|by apply Hstat].
    eapply same_disk_trans; [|exact Hd]. done. }
  { done. }
  rewrite (sent_since_app _ _ _ Hs) in Htok.
  eexists new, _. split; [reflexivity|]. split; [|split].
  - apply (sent_since_app _ _ (new ++ (download_request <$> items))).
    cbn. rewrite Hs4. cbn. rewrite Hs. cbn. by rewrite <- (assoc (++)).
  - exact Htok.
  - cbn. by rewrite last_snoc.
Qed.
End SearchMain.

Section PickerMain.
Context `{GoLib} `{JSONDecode Picker.PickingSession} `{JSONDecode Picker.MediaItemsList}
        `{JSONDecode Token} `{JSONEncode Token}.
Implicit Types (folder : string) (config : Config) (w : World).

Lemma newSession_step client w :
  Picker.newSession client w =
    let w1 := set_net (tail (net w)) (sent w ++ [session_request]) w in
    match next_reply w with
    | Fail err => Halt (Fatal "Failed to create session: %v" [AErr err]) w1
    | Answer resp =>
        if negb (StatusCode resp =? StatusOK)
        then Done (Picker.PickingSession_zero,
                   Some (Errorf "failed to create session: status %d"
                                [AInt (StatusCode resp)])) w1
        else
          match json_Decode (Body resp) with
          | inl err =>
              Done (Picker.PickingSession_zero,
                    Some (Errorf "failed to decode session response: %v" [AErr err])) w1
          | inr sessionResult => Done (sessionResult, None) w1
          end
    end.
Proof.
  unfold Picker.newSession. unmonad. unfold client_Post.
  rewrite client_Do_next. cbn.
  destruct (next_reply w) as [err|resp]; [reflexivity|].
  destruct (negb (StatusCode resp =? StatusOK)); [reflexivity|].
  destruct (json_Decode (Body resp)); reflexivity.
Qed.

(** [main] of variant A once the stored token has been accepted. *)
Lemma Picker_main_unfold folder config tok w :
  getClient PickerClient config w = Done (mkClient tok, tok) w →
  let client := mkClient tok in
  Picker.main folder config w =
    match Picker.newSession client w with
    | Done (_, Some err) w1 =>
        Halt (Fatal "Failed to initialise photos picker session: %v" [AErr err]) w1
    | Done (s, None) w1 =>
        match Picker.waitForSessionComplete client s
                (set_stdout (stdout w1 ++ session_lines s) w1) with
        | Done (_, Some err) w2 =>
            Halt (Fatal "Failed while waiting for photo selection: %v" [AErr err]) w2
        | Done (items, None) w2 => Picker.downloadItems client items folder w2
        | Halt s w2 => Halt s w2
        end
    | Halt s w1 => Halt s w1
    end.
Proof.
  intros Hc. cbn zeta. unfold Picker.main. unmonad. rewrite Hc. cbn.
  destruct (Picker.newSession _ _) as [[s [err|]] w1|]; try reflexivity.
  unfold fmt_Printf. cbn. rewrite <- app_assoc. cbn.
  destruct (Picker.waitForSessionComplete _ _ _) as [[items [err|]] w2|]; reflexivity.
Qed.

(** X19.  In [main] of the picker client, started with a usable stored
    token, a session request that is not answered by a session document is
    fatal: the program has sent that one request, printed nothing, started
    no timer and written nothing. *)
Theorem Picker_main_stops_without_session folder config w :
  ¬ must_authorize w →
  bad_reply Picker.PickingSession (next_reply w) →
  ∃ fmt args w',
    Picker.main folder config w = Halt (Fatal fmt args) w'
    ∧ sent_since w w' = [session_request]
    ∧ files w' = files w ∧ stdout w' = stdout w ∧ clocks w' = clocks w.
Proof.
  intros Hno Hbad.
  destruct (getClient_stored PickerClient config w Hno) as (tok & Hc).
  rewrite (Picker_main_unfold _ _ _ _ Hc). cbn zeta. rewrite newSession_step. cbn zeta.
  assert (sent_since w (set_net (tail (net w)) (sent w ++ [session_request]) w)
          = [session_request]) as Hs by by apply sent_since_app.
  destruct (next_reply w) as [err|resp]; [by eauto 10|].
  destruct (negb (StatusCode resp =? StatusOK)) eqn:Hst; [by eauto 10|].
  destruct Hbad as [Hbad|(err & Hbad)].
  - apply negb_false_iff, Z.eqb_eq in Hst. done.
  - rewrite Hbad. by eauto 10.
Qed.

(** Ticks whose polls all report that the selection is still pending: the
    disk is not touched either. *)
Lemma wait_for_pending_disk client session timeout later rest :
  ∀ (pending : list Reply) fuel w,
  Forall (session_reply false) pending →
  sched w = replicate (length pending) TickFired ++ later →
  net w = pending ++ rest →
  ∃ w1,
    Picker.waitForSessionComplete_for (length pending + fuel) client session timeout w
      = Picker.waitForSessionComplete_for fuel client session timeout w1
    ∧ sent w1 = sent w ++ replicate (length pending) (poll_request (Picker.ID session))
    ∧ sched w1 = later ∧ net w1 = rest
    ∧ same_disk w w1 ∧ stdout w1 = stdout w.
Proof.
  induction pending as [|r pending IH]; intros fuel w Hp Hsched Hnet.
  - exists w. cbn. by rewrite app_nil_r.
  - apply Forall_cons in Hp as [Hr Hp].
    cbn [length plus]. rewrite wait_for_step. cbn in Hsched, Hnet. rewrite Hsched.
    erewrite poll_session_reply; [|cbn; exact Hnet|exact Hr].
    edestruct (IH fuel) as (w1 & -> & Hs & Hsc & Hn & Hf & Hc); [done|reflexivity|reflexivity|].
    exists w1. cbn in Hs. split; [done|]. split; [|done].
    rewrite Hs, <- app_assoc. done.
Qed.

(** The session document arrives, then [pending] polls, then the deciding
    event. *)
Lemma Picker_main_waits folder config w resp s interval timeout
    (pending : list Reply) rest later tok :
  getClient PickerClient config w = Done (mkClient tok, tok) w →
  StatusCode resp = StatusOK →
  json_Decode (Body resp) = inr s →
  Picker.parseDuration (Picker.PollInterval (Picker.PollingConfig' s)) = inr interval →
  Picker.parseDuration (Picker.TimeoutIn (Picker.PollingConfig' s)) = inr timeout →
  0 < interval →
  Forall (session_reply false) pending →
  net w = Answer resp :: pending ++ rest →
  sched w = replicate (length pending) TickFired ++ later →
  ∃ w1,
    Picker.main folder config w =
      match Picker.waitForSessionComplete_for (S (length later)) (mkClient tok) s timeout w1 with
      | Done (_, Some err) w2 =>
          Halt (Fatal "Failed while waiting for photo selection: %v" [AErr err]) w2
      | Done (items, None) w2 => Picker.downloadItems (mkClient tok) items folder w2
      | Halt s w2 => Halt s w2
      end
    ∧ sent w1 = sent w ++ session_request
                  :: replicate (length pending) (poll_request (Picker.ID s))
    ∧ sched w1 = later ∧ net w1 = rest ∧ same_disk w w1
    ∧ stdout w1 = stdout w ++ session_lines s.
Proof.
  intros Hc Hst Hd Hi Ht Hpos Hp Hnet Hsched.
  rewrite (Picker_main_unfold _ _ _ _ Hc). cbn zeta. rewrite newSession_step. cbn zeta.
  destruct (next_reply_cons _ _ _ Hnet) as [-> ->].
  rewrite Hst, Hd. change (negb (StatusOK =? StatusOK)) with false. cbv iota.
  rewrite (waitForSessionComplete_unfold _ _ _ _ _ Hi Ht Hpos).
  set (w0 := set_clocks _ _).
  replace (S (length (sched _))) with (length pending + S (length later))%nat
    by (cbn; rewrite Hsched, length_app, length_replicate; lia).
  edestruct (wait_for_pending_disk (mkClient tok) s timeout later rest pending
               (S (length later)) w0)
    as (w1 & -> & Hs & Hsc & Hn & Hf & Hso); [done|exact Hsched|reflexivity|].
  exists w1. split; [reflexivity|]. cbn in Hs. rewrite <- app_assoc in Hs.
  split; [exact Hs|]. split; [done|]. split; [done|]. split; [exact Hf|exact Hso].
Qed.

(** X20.  In [main] of the picker client, started with a usable stored
    token, a timeout of the selection is fatal: when the session document
    arrives with a timeout and a positive poll interval that parse, and
    every poll finds the selection pending until the timer fires, [main]
    stops with the timeout error after the session request and one poll per
    tick, having printed the picker URL and the waiting line and written
    nothing. *)
Theorem Picker_main_stops_at_timeout folder config w resp s interval timeout
    (pending : list Reply) rest later :
  ¬ must_authorize w →
  StatusCode resp = StatusOK →
  json_Decode (Body resp) = inr s →
  Picker.parseDuration (Picker.PollInterval (Picker.PollingConfig' s)) = inr interval →
  Picker.parseDuration (Picker.TimeoutIn (Picker.PollingConfig' s)) = inr timeout →
  0 < interval →
  Forall (session_reply false) pending →
  net w = Answer resp :: pending ++ rest →
  sched w = replicate (length pending) TickFired ++ TimerFired :: later →
  ∃ w',
    Picker.main folder config w
      = Halt (Fatal "Failed while waiting for photo selection: %v"
                [AErr (Errorf "session timed out after %v" [ADur timeout])]) w'
    ∧ sent_since w w'
      = session_request :: replicate (length pending) (poll_request (Picker.ID s))
    ∧ files w' = files w
    ∧ stdout w' = stdout w ++ session_lines s.
Proof.
  intros Hno Hst Hd Hi Ht Hpos Hp Hnet Hsched.
  destruct (getClient_stored PickerClient config w Hno) as (tok & Hc).
  destruct (Picker_main_waits folder config w resp s interval timeout pending rest
              (TimerFired :: later) tok Hc Hst Hd Hi Ht Hpos Hp Hnet Hsched)
    as (w1 & -> & Hs & Hsc & Hn & (Hf & _) & Hso).
  rewrite wait_for_step, Hsc. eexists. split; [reflexivity|]. cbn.
  split; [by apply sent_since_app|]. done.
Qed.

(** X21.  [main] of the picker client, end to end, under these conditions:
    the stored token is usable, the session document arrives with a timeout
    and a positive poll interval that parse, the polls find the selection
    pending until one finds it made, the pages of the selection are served
    (all but the last announcing a successor), none of the target files of
    the selected items exists beforehand, and their target paths are
    pairwise distinct.  Then [main] creates the session, polls once per tick
    up to the poll that finds the selection made, fetches the pages starting
    without a page token, sends one download request for every selected
    item, in the order of the items, and ends normally. *)
Theorem Picker_main_downloads_every_selected_item folder config w resp s interval timeout
    (pending : list Reply) set (pages : list (BodyT * Picker.MediaItemsList)) b p rest later :
  ¬ must_authorize w →
  StatusCode resp = StatusOK →
  json_Decode (Body resp) = inr s →
  Picker.parseDuration (Picker.PollInterval (Picker.PollingConfig' s)) = inr interval →
  Picker.parseDuration (Picker.TimeoutIn (Picker.PollingConfig' s)) = inr timeout →
  0 < interval →
  Forall (session_reply false) pending →
  session_reply true set →
  Forall (λ bp, json_Decode bp.1 = inr bp.2 ∧ Picker.NextPageToken bp.2 ≠ "") pages →
  json_Decode b = inr p →
  Picker.NextPageToken p = "" →
  net w = Answer resp :: pending ++ set :: (page_reply <$> (pages.*1 ++ [b])) ++ rest →
  sched w = replicate (S (length pending)) TickFired ++ later →
  let items := concat (Picker.MediaItems <$> (pages.*2 ++ [p])) in
  (∀ item, item ∈ items → stat_not_exist w (target folder (Picker.MediaFile' item))) →
  NoDup (target folder ∘ Picker.MediaFile' <$> items) →
  ∃ fetches w',
    Picker.main folder config w = Done () w'
    ∧ sent_since w w'
      = session_request :: replicate (S (length pending)) (poll_request (Picker.ID s))
        ++ fetches ++ (download_request ∘ Picker.MediaFile' <$> items)
    ∧ query_token <$> fetches = None :: ((λ bp, Some [Picker.NextPageToken bp.2]) <$> pages).
Proof.
  intros Hno Hst Hd Hi Ht Hpos Hp Hset Hgood Hb Hlast Hnet Hsched items Hstat Hnd.
  destruct (getClient_stored PickerClient config w Hno) as (tok & Hc).
  rewrite replicate_S_app in Hsched.
  destruct (Picker_main_waits folder config w resp s interval timeout pending
              (set :: (page_reply <$> (pages.*1 ++ [b])) ++ rest)
              (TickFired :: later) tok Hc Hst Hd Hi Ht Hpos Hp Hnet Hsched)
    as (w1 & -> & Hs & Hsc & Hn & Hdisk & Hso).
  rewrite wait_for_step, Hsc.
  erewrite poll_session_reply; [|cbn; exact Hn|exact Hset].
  set (w2 := set_net _ _ _).
  destruct (fetchSelectedMediaItems_pages (mkClient tok) (Picker.ID s) w2 pages b p rest
              Hgood Hb Hlast eq_refl) as (w3 & Hrun & _ & _ & Htok).
  pose proof (fetchSelectedMediaItems_same_disk (mkClient tok) (Picker.ID s) w2) as Hd3.
  pose proof (fetchSelectedMediaItems_always (mkClient tok) (Picker.ID s) w2)
    as (i0 & e0 & w0 & Hrun0 & _ & (new & Hnew & _) & _ & Hsc3).
  rewrite Hrun in Hd3, Hrun0 |- *. cbn in Hd3. injection Hrun0 as <- <- <-.
  unfold Picker.downloadItems. cbn [Picker.MediaItems']. fold items.
  destruct (Picker_downloadItems_range_all folder (mkClient tok) items w3) as (w4 & Hdl & Hs4).
  { intros item Hin. eapply (same_disk_stat w); [|by apply Hstat].
    eapply same_disk_trans; [exact Hdisk|]. eapply same_disk_trans; [|exact Hd3]. done. }
  { done. }
  rewrite (sent_since_app _ _ _ Hnew) in Htok.
  exists new, w4. split; [exact Hdl|]. split; [|done].
  apply sent_since_app. rewrite Hs4, Hnew. subst w2. cbn. rewrite Hs.
  rewrite <- !(assoc (++)). cbn. do 2 f_equal. symmetry. apply (replicate_S_app (length pending)).
Qed.
End PickerMain.

(** ** Examples for the further properties *)

Section MoreOnConcreteWorlds.
#[local] Existing Instances Demo.lib Demo.decode_search Demo.decode_list
  Demo.decode_session Demo.decode_token Demo.encode_token.

(** A copy that breaks off after one byte, and the retry. *)
Lemma DownloadMediaItem_keeps_broken_copy_witness :
  let w := Demo.with_net [Cases.broken; ok [x07; x08]] Demo.world0 in
  let w1 := world_of (DownloadMediaItem Demo.itemA "photos" Demo.client w) in
  ∃ w2 resp,
    DownloadMediaItem Demo.itemA "photos" Demo.client w1 = Done None w2
    ∧ sent w2 = sent w1 ∧ net w2 = net w1 ∧ files w2 = files w1
    ∧ next_reply w = Answer resp
    ∧ read_err (Body resp) = Some (NetErr "reset")
    ∧ files w2 !! target "photos" Demo.itemA = Some (data (Body resp)).
Proof.
  intros w w1.
  refine (DownloadMediaItem_keeps_broken_copy Demo.itemA "photos" Demo.client w
            (NetErr "reset") w1 eq_refl _).
  intros Heq.
  apply (f_equal (λ m : gmap string (list byte), m !! "photos/a.jpg")) in Heq.
  vm_compute in Heq. discriminate.
Defined.

(** Two items that share the file name [a.jpg]. *)
Lemma DownloadMediaItem_skips_same_filename_witness :
  let w := Demo.with_net [ok [x07; x08]; ok [x09]] Demo.world0 in
  let w1 := world_of (DownloadMediaItem Demo.itemA "photos" Demo.client w) in
  ∃ w2, DownloadMediaItem Cases.itemA' "photos" Demo.client w1 = Done None w2
        ∧ sent w2 = sent w1 ∧ net w2 = net w1 ∧ files w2 = files w1.
Proof.
  intros w w1.
  exact (DownloadMediaItem_skips_same_filename Demo.itemA Cases.itemA' "photos" Demo.client
           w w1 eq_refl eq_refl).
Defined.


(** The favourites filter over two pages. *)
Lemma SearchMediaItems_sends_the_filter_witness :
  let w := Demo.world_search [page_reply Demo.page1; page_reply Demo.page2] in
  let w' := world_of (Search.SearchMediaItems Demo.gp (Some 1%positive) w) in
  Forall (λ r, ReqMethod r = POST ∧ ReqURL r = Search.url
               ∧ ReqHeader r = [("Content-Type", "application/json")]
               ∧ ∃ p, ReqPayload r = Some p
                      ∧ ∀ k, k ≠ "pageSize" → k ≠ "pageToken" → p !! k = Demo.filter !! k)
         (sent_since w w')
  ∧ files w' = files w.
Proof.
  intros w.
  exact (SearchMediaItems_sends_the_filter Demo.gp 1%positive Demo.filter w eq_refl).
Defined.

(** A search of two pages, and the first request of the next search with the
    same map. *)
Lemma SearchMediaItems_again_resumes_witness :
  let w := Demo.world_search [page_reply Demo.page1; page_reply Demo.page2] in
  let w1 := world_of (Search.SearchMediaItems Demo.gp (Some 1%positive) w) in
  Search.SearchMediaItems Demo.gp (Some 1%positive) w = Done ([Demo.itemA; Demo.itemB], None) w1
  ∧ ∃ r, last (sent w1) = Some r
         ∧ head (sent_since w1 (world_of (Search.SearchMediaItems Demo.gp (Some 1%positive) w1)))
           = Some r.
Proof.
  intros w w1.
  assert (Search.SearchMediaItems Demo.gp (Some 1%positive) w
          = Done ([Demo.itemA; Demo.itemB], None) w1) as Hrun by (vm_compute; reflexivity).
  split; [exact Hrun|].
  exact (SearchMediaItems_again_resumes Demo.gp 1%positive [Demo.itemA; Demo.itemB] w w1 Hrun).
Defined.

(** One pending poll, then a poll that is answered 404. *)
Lemma waitForSessionComplete_stops_at_failed_poll_witness :
  let w := Demo.world_polling [TickFired; TickFired; TimerFired]
             [Demo.pending; Demo.not_found; Demo.selected] in
  ∃ e w', Picker.waitForSessionComplete Demo.client Demo.session w
            = Done (Picker.DownloadableMediaItems_zero,
                    Some (Errorf "polling failed: %v" [AErr e])) w'
          ∧ sent_since w w' = replicate 2 (poll_request "s1")
          ∧ sched w' = [TimerFired]
          ∧ net w' = [Demo.selected].
Proof.
  intros w.
  assert (Forall (session_reply false) [Demo.pending]) as Hp.
  { repeat constructor. eexists _, _. repeat split; reflexivity. }
  assert (bad_reply Picker.PickingSession (reply_after [Demo.not_found; Demo.selected]))
    as Hbad by (left; discriminate).
  exact (waitForSessionComplete_stops_at_failed_poll Demo.client Demo.session
           5000000000 60000000000 [Demo.pending] [TimerFired]
           [Demo.not_found; Demo.selected] w eq_refl eq_refl eq_refl Hp eq_refl eq_refl Hbad).
Defined.

(** A token that is good until 100, written and read back. *)
Lemma saveToken_then_tokenFromFile_witness :
  let tok := mkToken "access" "refresh" 100 in
  ∃ w1, saveToken SearchClient "token.json" tok Demo.world0 = Done () w1
        ∧ files w1 = <["token.json" := json_Encode tok]> (files Demo.world0)
        ∧ tokenFromFile "token.json" w1 = Done (Some tok, None) w1.
Proof.
  intros tok.
  exact (saveToken_then_tokenFromFile SearchClient "token.json" tok Demo.world0
           (conj eq_refl eq_refl) eq_refl).
Defined.

(** A first run that authorizes through the browser, and the next run. *)
Lemma getClient_twice_witness :
  let tok := mkToken "access" "refresh" 200 in
  let w := Cases.world_callback (inr tok) in
  let w1 := world_of (getClient SearchClient Demo.config w) in
  getClient SearchClient Demo.config w = Done (mkClient tok, tok) w1
  ∧ getClient PickerClient Demo.config w1 = Done (mkClient tok, tok) w1.
Proof.
  intros tok w w1.
  assert (getClient SearchClient Demo.config w = Done (mkClient tok, tok) w1) as Hrun
    by (vm_compute; reflexivity).
  split; [exact Hrun|].
  refine (getClient_twice SearchClient PickerClient Demo.config Demo.config (mkClient tok) tok
            w w1 _ Hrun eq_refl _).
  - apply not_elem_of_nil.
  - intros Hlt. vm_compute in Hlt. discriminate Hlt.
Defined.

(** The token endpoint hands out a token that expired at 5. *)
Lemma getClient_panics_on_second_authorization_witness :
  let t := mkToken "access" "refresh" 5 in
  let w := Cases.world_callback (inr t) in
  ∃ w', getClient SearchClient Demo.config w = Halt (Panic "http: multiple registrations") w'
        ∧ files w' = <["token.json" := json_Encode t]> (files w)
        ∧ browser w' = [].
Proof.
  intros t w.
  refine (getClient_panics_on_second_authorization SearchClient Demo.config w
            (mkCallback 3 "code" (inr t)) [] t _ _ eq_refl eq_refl (conj eq_refl eq_refl) _).
  - apply not_elem_of_nil.
  - intros tok Heq. discriminate Heq.
  - reflexivity.
Defined.

(** The token endpoint refuses the code; and the token cannot be written. *)
Lemma getClient_failed_authorization_keeps_token_file_witness :
  let t := mkToken "access" "refresh" 200 in
  let w := Cases.world_callback (inl (NetErr "invalid_grant")) in
  let v := Cases.world_read_only (inr t) in
  (∃ w', getClient SearchClient Demo.config w
           = Halt (Fatal "Unable to retrieve token from web: %v"
                     [AErr (NetErr "invalid_grant")]) w'
         ∧ files w' = files w)
  ∧ (∃ v', getClient PickerClient Demo.config v
             = Halt (Fatal "Unable to cache token: %v" [AErr (SysErr EACCES)]) v'
           ∧ files v' = files v).
Proof.
  intros t w v. split.
  - refine (proj1 (getClient_failed_authorization_keeps_token_file SearchClient Demo.config w
                     (mkCallback 3 "code" (inl (NetErr "invalid_grant"))) [] _ _ eq_refl)
              _ eq_refl).
    + apply not_elem_of_nil.
    + reflexivity.
  - refine (proj2 (getClient_failed_authorization_keeps_token_file PickerClient Demo.config v
                     (mkCallback 3 "code" (inr t)) [] _ _ eq_refl)
              t EACCES eq_refl eq_refl).
    + apply not_elem_of_nil.
    + reflexivity.
Defined.

(** A page of favourites, then a 404. *)
Lemma Search_main_stops_on_search_error_witness :
  let w := Cases.world_run [] [page_reply Demo.page1; Demo.not_found; ok [x07]] in
  ∃ err w', Search.main "photos" Demo.config w
              = Halt (Fatal "Error retrieving favorite photos: %v" [AErr err]) w'
            ∧ files w' = files w
            ∧ Forall (λ r, ReqMethod r = POST ∧ ReqURL r = Search.url) (sent_since w w').
Proof.
  intros w.
  assert (¬ must_authorize w) as Hfresh by (intros Hlt; discriminate Hlt).
  assert (Forall (λ bp : BodyT * Search.MediaItemsResponse,
                    json_Decode bp.1 = inr bp.2 ∧ Search.NextPageToken bp.2 ≠ "")
                 [(Demo.page1, Search.mkMediaItemsResponse [Demo.itemA] "t")]) as Hs.
  { repeat constructor. discriminate. }
  refine (Search_main_stops_on_search_error "photos" Demo.config w
            [(Demo.page1, Search.mkMediaItemsResponse [Demo.itemA] "t")]
            [Demo.not_found; ok [x07]] Hfresh Hs eq_refl _).
  left. discriminate.
Defined.

(** Two pages of favourites; the first download is served, the second is
    answered 404. *)
Lemma Search_main_downloads_every_favorite_witness :
  let w := Cases.world_run []
             [page_reply Demo.page1; page_reply Demo.page2; ok [x07]; Demo.not_found] in
  ∃ searches w',
    Search.main "photos" Demo.config w = Done () w'
    ∧ sent_since w w' = searches ++ [download_request Demo.itemA; download_request Demo.itemB]
    ∧ carried_token <$> searches = [None; Some (VStr "t")]
    ∧ last (stdout w') = Some (mkLine "%v\n" [AStr "Finished downloading photos."]).
Proof.
  intros w.
  assert (¬ must_authorize w) as Hfresh by (intros Hlt; discriminate Hlt).
  assert (Forall (λ bp : BodyT * Search.MediaItemsResponse,
                    json_Decode bp.1 = inr bp.2 ∧ Search.NextPageToken bp.2 ≠ "")
                 [(Demo.page1, Search.mkMediaItemsResponse [Demo.itemA] "t")]) as Hs.
  { repeat constructor. discriminate. }
  refine (Search_main_downloads_every_favorite "photos" Demo.config w
            [(Demo.page1, Search.mkMediaItemsResponse [Demo.itemA] "t")]
            Demo.page2 (Search.mkMediaItemsResponse [Demo.itemB] "")
            [ok [x07]; Demo.not_found] Hfresh Hs eq_refl eq_refl eq_refl _ _).
  - intros item Hin. apply list_elem_of_In in Hin.
    destruct Hin as [<-|[<-|[]]]; reflexivity.
  - apply NoDup_ListNoDup. repeat constructor; cbn; intuition discriminate.
Defined.

(** The session request is answered 404. *)
Lemma Picker_main_stops_without_session_witness :
  let w := Cases.world_run [TickFired] [Demo.not_found; Demo.selected] in
  ∃ fmt args w',
    Picker.main "photos" Demo.config w = Halt (Fatal fmt args) w'
    ∧ sent_since w w' = [session_request]
    ∧ files w' = files w ∧ stdout w' = stdout w ∧ clocks w' = clocks w.
Proof.
  intros w.
  assert (¬ must_authorize w) as Hfresh by (intros Hlt; discriminate Hlt).
  refine (Picker_main_stops_without_session "photos" Demo.config w Hfresh _).
  left. discriminate.
Defined.

(** The session is created, one poll finds the selection pending, then the
    timer fires. *)
Lemma Picker_main_stops_at_timeout_witness :
  let w := Cases.world_run [TickFired; TimerFired; TickFired]
             [ok [x00]; Demo.pending; Demo.selected] in
  ∃ w',
    Picker.main "photos" Demo.config w
      = Halt (Fatal "Failed while waiting for photo selection: %v"
                [AErr (Errorf "session timed out after %v" [ADur 60000000000])]) w'
    ∧ sent_since w w' = [session_request; poll_request "s1"]
    ∧ files w' = files w
    ∧ stdout w' = stdout w ++ session_lines Cases.session1.
Proof.
  intros w.
  assert (¬ must_authorize w) as Hfresh by (intros Hlt; discriminate Hlt).
  assert (Forall (session_reply false) [Demo.pending]) as Hp.
  { repeat constructor. eexists _, _. repeat split; reflexivity. }
  exact (Picker_main_stops_at_timeout "photos" Demo.config w
           (mkResponse StatusOK (mkBody [x00] None)) Cases.session1
           5000000000 60000000000 [Demo.pending] [Demo.selected] [TickFired]
           Hfresh eq_refl eq_refl eq_refl eq_refl eq_refl Hp eq_refl eq_refl).
Defined.

(** The session is created, the second poll finds the selection made, two
    pages list the items, and both downloads are served. *)
Lemma Picker_main_downloads_every_selected_item_witness :
  let w := Cases.world_run [TickFired; TickFired; TimerFired]
             [ok [x00]; Demo.pending; Demo.selected;
              page_reply Demo.page1; page_reply Demo.page2; ok [x07]; ok [x08]] in
  ∃ fetches w',
    Picker.main "photos" Demo.config w = Done () w'
    ∧ sent_since w w'
      = session_request :: replicate 2 (poll_request "s1")
        ++ fetches ++ [download_request (Picker.MediaFile' Demo.pickedA);
                       download_request (Picker.MediaFile' Demo.pickedB)]
    ∧ query_token <$> fetches = [None; Some ["t"]].
Proof.
  intros w.
  assert (¬ must_authorize w) as Hfresh by (intros Hlt; discriminate Hlt).
  assert (Forall (session_reply false) [Demo.pending]) as Hp.
  { repeat constructor. eexists _, _. repeat split; reflexivity. }
  assert (session_reply true Demo.selected) as Hset.
  { eexists _, _. repeat split; reflexivity. }
  assert (Forall (λ bp : BodyT * Picker.MediaItemsList,
                    json_Decode bp.1 = inr bp.2 ∧ Picker.NextPageToken bp.2 ≠ "")
                 [(Demo.page1, Picker.mkMediaItemsList [Demo.pickedA] "t")]) as Hs.
  { repeat constructor. discriminate. }
  refine (Picker_main_downloads_every_selected_item "photos" Demo.config w
            (mkResponse StatusOK (mkBody [x00] None)) Cases.session1
            5000000000 60000000000 [Demo.pending] Demo.selected
            [(Demo.page1, Picker.mkMediaItemsList [Demo.pickedA] "t")]
            Demo.page2 (Picker.mkMediaItemsList [Demo.pickedB] "")
            [ok [x07]; ok [x08]] [TimerFired]
            Hfresh eq_refl eq_refl eq_refl eq_refl eq_refl Hp Hset Hs eq_refl eq_refl
            eq_refl eq_refl _ _).
  - intros item Hin. apply list_elem_of_In in Hin.
    destruct Hin as [<-|[<-|[]]]; reflexivity.
  - apply NoDup_ListNoDup. repeat constructor; cbn; intuition discriminate.
Defined.
End MoreOnConcreteWorlds.

Section OnAZeroInterval.
#[local] Existing Instances Cases.lib0 Demo.decode_search Demo.decode_list
  Demo.decode_session Demo.decode_token Demo.encode_token.

(** An interval the library cannot read, a timeout it cannot read, and an
    interval of zero. *)
Lemma waitForSessionComplete_rejects_bad_config_witness :
  let w := Demo.world_polling [TickFired] [Demo.pending] in
  Picker.waitForSessionComplete Demo.client (Cases.session_of "soon" "60s") w
    = Done (Picker.DownloadableMediaItems_zero,
            Some (Errorf "invalid polling interval: %v"
                    [AErr (Errorf "time: invalid duration %q" [AStr "soon"])])) w
  ∧ Picker.waitForSessionComplete Demo.client (Cases.session_of "5s" "never") w
    = Done (Picker.DownloadableMediaItems_zero,
            Some (Errorf "invalid timeout: %v"
                    [AErr (Errorf "time: invalid duration %q" [AStr "never"])])) w
  ∧ ∃ w', Picker.waitForSessionComplete Demo.client (Cases.session_of "0s" "60s") w
            = Halt (Panic "non-positive interval for NewTicker") w'
          ∧ sent w' = sent w ∧ sched w' = sched w ∧ files w' = files w.
Proof.
  intros w. split; [|split].
  - exact (proj1 (waitForSessionComplete_rejects_bad_config
                    Demo.client (Cases.session_of "soon" "60s") w) _ eq_refl).
  - exact (proj1 (proj2 (waitForSessionComplete_rejects_bad_config
                    Demo.client (Cases.session_of "5s" "never") w)) 5000000000 _
             eq_refl eq_refl).
  - refine (proj2 (proj2 (waitForSessionComplete_rejects_bad_config
                    Demo.client (Cases.session_of "0s" "60s") w)) 0 60000000000
              eq_refl eq_refl _).
    done.
Defined.
End OnAZeroInterval.
